(** * CV analysis scripts: [rep.py] and [cvf.py]

    A shallow embedding of the two resume analysers of the repository,
    [analyze_cv] (rep.py) and [analyze_cv_structure] (cvf.py), together with
    the part of Python they run on: [str] and its methods, the fragment of
    the [re] module their patterns use, and a dictionary of dynamically
    typed values that is mutated statement by statement and whose accesses
    can raise. The rest of cvf.py follows: [read_file], [display_analysis]
    and [main], over the files, the arguments and the standard output of
    the machine. *)

From Stdlib Require Import String Ascii ZArith List Bool Lia Arith.
From Stdlib Require Strings.Byte DecimalString.
Import ListNotations.
Local Open Scope Z_scope.
Set Warnings "-register-all".

(** ** Python strings

    A [str] is a sequence of Unicode code points. *)
Module Py.

Definition str := list Z.

Definition ord (a : ascii) : Z := Z.of_N (N_of_ascii a).

(** A string literal of the source whose characters are all ASCII. *)
Fixpoint lit (s : string) : str :=
  match s with
  | EmptyString => []
  | String a s' => ord a :: lit s'
  end.

Fixpoint str_eqb (a b : str) : bool :=
  match a, b with
  | [], [] => true
  | x :: a', y :: b' => (x =? y) && str_eqb a' b'
  | _, _ => false
  end.

Definition str_eq_dec : forall a b : str, {a = b} + {a <> b} :=
  list_eq_dec Z.eq_dec.

(** [len(x)] of a string or a list. *)
Definition len {A} (x : list A) : Z := Z.of_nat (length x).

Definition between (lo hi c : Z) : bool := (lo <=? c) && (c <=? hi).

(** [str.isspace] on one character: the code points whose bidirectional type
    is WS, B or S, or whose category is Zs. *)
Definition isspace (c : Z) : bool :=
  between 9 13 c || between 28 32 c || (c =? 133) || (c =? 160)
  || (c =? 5760) || between 8192 8202 c || (c =? 8232) || (c =? 8233)
  || (c =? 8239) || (c =? 8287) || (c =? 12288).

(** The line boundaries of [str.splitlines]. *)
Definition islinebreak (c : Z) : bool :=
  between 10 13 c || between 28 30 c || (c =? 133) || (c =? 8232) || (c =? 8233).

Fixpoint lstrip (s : str) : str :=
  match s with
  | c :: s' => if isspace c then lstrip s' else s
  | [] => []
  end.

Definition rstrip (s : str) : str := rev (lstrip (rev s)).

(** [s.strip()] *)
Definition strip (s : str) : str := rstrip (lstrip s).

(** [s.split()]: the scan keeps the token being read in [cur], most recent
    character first, and closes it at the next whitespace character or at
    the end. *)
Fixpoint split_scan (cur : str) (s : str) : list str :=
  match s with
  | [] => match cur with [] => [] | _ => [rev cur] end
  | c :: s' =>
      if isspace c
      then match cur with
           | [] => split_scan [] s'
           | _ => rev cur :: split_scan [] s'
           end
      else split_scan (c :: cur) s'
  end.

Definition split (s : str) : list str := split_scan [] s.

(** [s.split(sep)] for a separator of one character: always at least one
    piece, empty pieces kept. *)
Fixpoint split_on_scan (sep : Z) (cur : str) (s : str) : list str :=
  match s with
  | [] => [rev cur]
  | c :: s' =>
      if c =? sep then rev cur :: split_on_scan sep [] s'
      else split_on_scan sep (c :: cur) s'
  end.

Definition split_on (sep : Z) (s : str) : list str := split_on_scan sep [] s.

(** [s.splitlines()]: a line ends at a line boundary, CR LF counts as one
    boundary, and the text after the last boundary is a line only when it is
    not empty. *)
Fixpoint splitlines_scan (cur : str) (s : str) : list str :=
  match s with
  | [] => match cur with [] => [] | _ => [rev cur] end
  | c :: s' =>
      if islinebreak c
      then rev cur ::
           match s' with
           | d :: s'' =>
               if (c =? 13) && (d =? 10) then splitlines_scan [] s''
               else splitlines_scan [] s'
           | [] => []
           end
      else splitlines_scan (c :: cur) s'
  end.

Definition splitlines (s : str) : list str := splitlines_scan [] s.

(** [sep.join(parts)] *)
Fixpoint join (sep : str) (parts : list str) : str :=
  match parts with
  | [] => []
  | [p] => p
  | p :: rest => p ++ sep ++ join sep rest
  end.

Definition NL : Z := 10.

End Py.

(** ** The fragment of the [re] module the patterns of the two scripts use *)
Module Re.
Import Py.

(** The interpreter's Unicode tables for the code points from 128 on: simple
    lower- and uppercase mappings, [str.isalnum], [str.isdecimal], and the
    extra case equivalences of [re] (lowercase characters with the same
    uppercase). They vary with the Unicode version of the interpreter and
    are left open; the ASCII part of every table is fixed below. *)
Class UnicodeDB : Type := {
  uc_tolower : Z -> Z;
  uc_toupper : Z -> Z;
  uc_isalnum : Z -> bool;
  uc_isdecimal : Z -> bool;
  uc_casefix : Z -> list Z
}.

(** A database in which no code point from 128 on is cased, alphanumeric or
    a digit: on a text of ASCII characters every database gives the same
    answers as this one. *)
Definition ascii_db : UnicodeDB :=
  {| uc_tolower := fun c => c;
     uc_toupper := fun c => c;
     uc_isalnum := fun _ => false;
     uc_isdecimal := fun _ => false;
     uc_casefix := fun _ => [] |}.

(** Character categories: [\d], [\s], [\w]. *)
Inductive category : Type := Digit | Space | Word.

(** The members of a character set [[...]]. *)
Inductive item : Type :=
| Chr (c : Z)
| Range (lo hi : Z)
| Cat (k : category).

(** What matches exactly one character. *)
Inductive atom : Type :=
| Literal (c : Z)
| Category (k : category)
| In_ (items : list item).

(** Patterns. Every repetition in the source is of a single character
    ([\s+], [[\d\s-]{7,}], [\d{1,3}]) or is a [?]; all are greedy. A group
    only brackets: no caller reads a group's text. *)
Inductive regex : Type :=
| Empty
| Atom (a : atom)
| Boundary
| Seq (r1 r2 : regex)
| Alt (r1 r2 : regex)
| Opt (r : regex)
| Repeat (a : atom) (lo : nat) (hi : option nat).

(** A pattern string: its body, and whether it starts with [(?i)]. *)
Record pattern : Type := { inline_i : bool; body : regex }.

Definition zrange (lo hi : Z) : list Z :=
  map (fun n => lo + Z.of_nat n) (seq 0 (Z.to_nat (hi - lo + 1))).

Fixpoint chars (s : str) : regex :=
  match s with
  | [] => Empty
  | [c] => Atom (Literal c)
  | c :: s' => Seq (Atom (Literal c)) (chars s')
  end.

(** A run of literal characters of the pattern. *)
Definition text (s : string) : regex := chars (lit s).

Fixpoint seqs (rs : list regex) : regex :=
  match rs with
  | [] => Empty
  | [r] => r
  | r :: rs' => Seq r (seqs rs')
  end.

(** [r1|r2|...]: the branches are tried from the left. *)
Fixpoint alts (rs : list regex) : regex :=
  match rs with
  | [] => Empty
  | [r] => r
  | r :: rs' => Alt r (alts rs')
  end.

Definition plus (a : atom) : regex := Repeat a 1 None.
Definition star (a : atom) : regex := Repeat a 0 None.
Definition times (a : atom) (n : nat) : regex := Repeat a n (Some n).

Section Matching.
Context {U : UnicodeDB}.

Definition tolower (c : Z) : Z :=
  if c <? 128 then (if between 65 90 c then c + 32 else c) else uc_tolower c.

Definition toupper (c : Z) : Z :=
  if c <? 128 then (if between 97 122 c then c - 32 else c) else uc_toupper c.

Definition iscased (c : Z) : bool :=
  negb (c =? tolower c) || negb (c =? toupper c).

(** The extra case equivalences of a lowercase character: dotless i for
    [i], long s for [s], nothing for the other ASCII characters. *)
Definition casefix (lo : Z) : list Z :=
  if lo =? 105 then [305]
  else if lo =? 115 then [383]
  else if lo <? 128 then []
  else uc_casefix lo.

Definition isdecimal (c : Z) : bool :=
  if c <? 128 then between 48 57 c else uc_isdecimal c.

Definition isalnum (c : Z) : bool :=
  if c <? 128 then between 48 57 c || between 65 90 c || between 97 122 c
  else uc_isalnum c.

Definition in_category (k : category) (c : Z) : bool :=
  match k with
  | Digit => isdecimal c
  | Space => isspace c
  | Word => isalnum c || (c =? 95)
  end.

(** A lowercased text character [l] against a lowercased pattern character
    [lo], under IGNORECASE. *)
Definition lower_match (lo l : Z) : bool :=
  (l =? lo) || existsb (Z.eqb l) (casefix lo).

Definition item_match (i : item) (c : Z) : bool :=
  match i with
  | Chr a => c =? a
  | Range lo hi => between lo hi c
  | Cat k => in_category k c
  end.

Definition item_cased (i : item) : bool :=
  match i with
  | Chr a => iscased a
  | Range lo hi => existsb iscased (zrange lo hi)
  | Cat _ => false
  end.

(** Under IGNORECASE a set with a cased member is compiled to the set of the
    lowercased members and their equivalents, and is tested on the
    lowercased text character. *)
Definition item_match_lower (i : item) (l : Z) : bool :=
  match i with
  | Chr a => lower_match (tolower a) l
  | Range lo hi => existsb (fun a => lower_match (tolower a) l) (zrange lo hi)
  | Cat k => in_category k l
  end.

Definition atom_match (ic : bool) (a : atom) (c : Z) : bool :=
  match a with
  | Literal x =>
      if ic && iscased x then lower_match (tolower x) (tolower c) else c =? x
  | Category k => in_category k c
  | In_ items =>
      if ic && existsb item_cased items
      then existsb (fun i => item_match_lower i (tolower c)) items
      else existsb (fun i => item_match i c) items
  end.

Definition isword_at (c : option Z) : bool :=
  match c with
  | Some x => in_category Word x
  | None => false
  end.

(** [\b] between the character before the position and the one at it. *)
Definition at_boundary (prev : option Z) (s : str) : bool :=
  xorb (isword_at prev) (isword_at (hd_error s)).

Section Backtracking.
Context {A : Type}.
Variable ic : bool.

(** Greedy repetition of one atom: take a character while the upper bound
    allows and the atom matches, and give one back each time the rest of the
    pattern fails, down to the lower bound. *)
Fixpoint repeat_atom (a : atom) (lo : nat) (hi : option nat)
  (prev : option Z) (s : str) (k : option Z -> str -> option A) : option A :=
  let stop := match lo with O => k prev s | S _ => None end in
  match hi with
  | Some O => stop
  | _ =>
      match s with
      | c :: s' =>
          if atom_match ic a c
          then match repeat_atom a (pred lo) (option_map pred hi) (Some c) s' k with
               | Some x => Some x
               | None => stop
               end
          else stop
      | [] => stop
      end
  end.

(** The backtracking matcher: [run r prev s k] matches [r] at the start of
    [s], [prev] being the character before it, and hands the position after
    the match to [k]; when [k] fails the next way of matching [r] is tried. *)
Fixpoint run (r : regex) (prev : option Z) (s : str)
  (k : option Z -> str -> option A) : option A :=
  match r with
  | Empty => k prev s
  | Atom a =>
      match s with
      | c :: s' => if atom_match ic a c then k (Some c) s' else None
      | [] => None
      end
  | Boundary => if at_boundary prev s then k prev s else None
  | Seq r1 r2 => run r1 prev s (fun p t => run r2 p t k)
  | Alt r1 r2 =>
      match run r1 prev s k with
      | Some x => Some x
      | None => run r2 prev s k
      end
  | Opt r1 =>
      match run r1 prev s k with
      | Some x => Some x
      | None => k prev s
      end
  | Repeat a lo hi => repeat_atom a lo hi prev s k
  end.

End Backtracking.

(** Reading the literal characters [w] off the start of [s]: the last
    character read and the rest of [s], when every character matches. *)
Fixpoint read_chars (ic : bool) (w : str) (prev : option Z) (s : str)
  : option (option Z * str) :=
  match w with
  | [] => Some (prev, s)
  | a :: w' =>
      match s with
      | c :: s' =>
          if atom_match ic (Literal a) c then read_chars ic w' (Some c) s'
          else None
      | [] => None
      end
  end.

Definition flag_i (p : pattern) (ignorecase : bool) : bool :=
  inline_i p || ignorecase.

(** [re.fullmatch(p, s, flags)], as the truth value of its result: a match
    that ends before the end of [s] is refused and the next one tried. *)
Definition fullmatch (p : pattern) (s : str) (ignorecase : bool) : bool :=
  match run (flag_i p ignorecase) (body p) None s
          (fun _ t => match t with [] => Some tt | _ => None end) with
  | Some _ => true
  | None => false
  end.

(** The length of the first match that starts exactly at [s]; with
    [must_advance] an empty match is refused. *)
Definition match_len (ic : bool) (r : regex) (prev : option Z) (s : str)
  (must_advance : bool) : option nat :=
  run ic r prev s
    (fun _ t =>
       let n := (length s - length t)%nat in
       if must_advance && (n =? 0)%nat then None else Some n).

(** The leftmost match from [s] on: characters skipped, length. *)
Fixpoint search_from (ic : bool) (r : regex) (prev : option Z) (s : str)
  : option (nat * nat) :=
  match match_len ic r prev s false with
  | Some n => Some (O, n)
  | None =>
      match s with
      | c :: s' =>
          match search_from ic r (Some c) s' with
          | Some (i, n) => Some (S i, n)
          | None => None
          end
      | [] => None
      end
  end.

(** [re.search(p, s, flags)]: the span of the leftmost match, if any. *)
Definition search (p : pattern) (s : str) (ignorecase : bool) : option (nat * nat) :=
  search_from (flag_i p ignorecase) (body p) None s.

(** The scan of [re.findall]: left to right, each match starts where the
    previous one ended ([skip] counts the characters of a match still to be
    passed); after an empty match the next one at the same position must
    not be empty. *)
Fixpoint findall_scan (ic : bool) (r : regex) (prev : option Z) (s : str)
  (skip : nat) : list str :=
  match skip, s with
  | S n, c :: s' => findall_scan ic r (Some c) s' n
  | S _, [] => []
  | O, _ =>
      let next n :=
        match s with
        | c :: s' => findall_scan ic r (Some c) s' n
        | [] => []
        end in
      match match_len ic r prev s false with
      | Some (S n) => firstn (S n) s :: next n
      | Some O =>
          [] :: match match_len ic r prev s true with
                | Some (S n) => firstn (S n) s :: next n
                | _ => next O
                end
      | None => next O
      end
  end.

(** [re.findall(p, s, flags)] for a pattern whose matches are read whole. *)
Definition findall (p : pattern) (s : str) (ignorecase : bool) : list str :=
  findall_scan (flag_i p ignorecase) (body p) None s O.

End Matching.
End Re.

(** ** Python objects: values, dictionaries, exceptions *)
Module Obj.
Import Py.

(** The values the two scripts store: [int], [str], [list], [dict] (keys
    are [str], insertion order kept). *)
Inductive value : Type :=
| VInt (n : Z)
| VStr (s : str)
| VList (l : list value)
| VDict (d : list (str * value)).

Definition dict := list (str * value).

Inductive exn : Type :=
| KeyError (k : str)
| TypeError
| AttributeError.

(** A list of strings as a value. *)
Definition strs (l : list str) : value := VList (map VStr l).

(** Dictionaries with string keys in insertion order, whatever they hold. *)
Fixpoint lookup {V} (k : str) (d : list (str * V)) : option V :=
  match d with
  | [] => None
  | (k', v) :: d' => if str_eqb k k' then Some v else lookup k d'
  end.

(** [d[k] = v]: an existing key keeps its place, a new key goes last. *)
Fixpoint update {V} (k : str) (v : V) (d : list (str * V)) : list (str * V) :=
  match d with
  | [] => [(k, v)]
  | (k', v') :: d' =>
      if str_eqb k k' then (k', v) :: d' else (k', v') :: update k v d'
  end.

Definition keys {V} (d : list (str * V)) : list str := map fst d.

(** The same keys in the same order, each value passed through [f]. *)
Definition map_values {V W} (f : V -> W) (d : list (str * V)) : list (str * W) :=
  map (fun kv => (fst kv, f (snd kv))) d.

(** [x == s] for a string [s]. *)
Definition eq_str (s : str) (x : value) : bool :=
  match x with
  | VStr t => str_eqb s t
  | _ => false
  end.

(** The truth value of an object. *)
Definition truthy (v : value) : bool :=
  match v with
  | VInt n => negb (n =? 0)
  | VStr s => match s with [] => false | _ => true end
  | VList l => match l with [] => false | _ => true end
  | VDict d => match d with [] => false | _ => true end
  end.

(** [list(set(l))] for a list of strings: one element per distinct string.
    Python's order is that of the hash table; here the first occurrences
    are kept in order, and no statement below depends on the order. *)
Fixpoint distinct (l : list str) : list str :=
  match l with
  | [] => []
  | x :: l' => x :: filter (fun y => negb (str_eqb x y)) (distinct l')
  end.

Fixpoint as_strs (l : list value) : option (list str) :=
  match l with
  | [] => Some []
  | VStr s :: l' =>
      match as_strs l' with
      | Some ss => Some (s :: ss)
      | None => None
      end
  | _ :: _ => None
  end.

End Obj.

(** ** Statements over the dictionary [analysis]

    Both functions build one dictionary, [analysis], and mutate it in place.
    A statement is a function of the current dictionary that raises or
    returns a result and the dictionary after it. *)
Module Stmt.
Import Py Obj.

Definition M (A : Type) : Type := dict -> exn + (A * dict).

Definition ret {A} (a : A) : M A := fun d => inr (a, d).
Definition raise {A} (e : exn) : M A := fun _ => inl e.
Definition bind {A B} (m : M A) (f : A -> M B) : M B :=
  fun d =>
    match m d with
    | inl e => inl e
    | inr (a, d') => f a d'
    end.

Declare Scope stmt_scope.
Delimit Scope stmt_scope with stmt.
Notation "x <- m ;; k" := (bind m (fun x => k))
  (at level 61, m at next level, right associativity) : stmt_scope.
Notation "m ;; k" := (bind m (fun _ => k))
  (at level 61, right associativity) : stmt_scope.
Local Open Scope stmt_scope.

(** [analysis[k]] *)
Definition getitem (k : str) : M value :=
  fun d =>
    match lookup k d with
    | Some v => inr (v, d)
    | None => inl (KeyError k)
    end.

(** [analysis[k] = v] *)
Definition setitem (k : str) (v : value) : M unit :=
  fun d => inr (tt, update k v d).

(** [v.append(x)] and [v.extend(xs)] give the list after the call. *)
Definition list_append (v x : value) : M value :=
  match v with
  | VList l => ret (VList (l ++ [x]))
  | _ => raise AttributeError
  end.

Definition list_extend (v : value) (xs : list value) : M value :=
  match v with
  | VList l => ret (VList (l ++ xs))
  | _ => raise AttributeError
  end.

(** [analysis[k].append(x)] *)
Definition append (k : str) (x : value) : M unit :=
  v <- getitem k ;;
  v' <- list_append v x ;;
  setitem k v'.

(** [analysis[k].extend(xs)] *)
Definition extend (k : str) (xs : list value) : M unit :=
  v <- getitem k ;;
  v' <- list_extend v xs ;;
  setitem k v'.

(** [c[k2]] for a dictionary [c]. *)
Definition subscript (c : value) (k2 : str) : M value :=
  match c with
  | VDict d =>
      match lookup k2 d with
      | Some v => ret v
      | None => raise (KeyError k2)
      end
  | _ => raise TypeError
  end.

(** [analysis[k][k2]] *)
Definition getitem2 (k k2 : str) : M value :=
  c <- getitem k ;;
  subscript c k2.

(** [analysis[k][k2] = v] *)
Definition setitem2 (k k2 : str) (v : value) : M unit :=
  c <- getitem k ;;
  match c with
  | VDict d => setitem k (VDict (update k2 v d))
  | _ => raise TypeError
  end.

(** [analysis[k][k2].append(x)] *)
Definition append2 (k k2 : str) (x : value) : M unit :=
  v <- getitem2 k k2 ;;
  v' <- list_append v x ;;
  setitem2 k k2 v'.

(** [s in v] for a string [s], [v] a list or a dictionary. *)
Definition contains (s : str) (v : value) : M bool :=
  match v with
  | VList l => ret (existsb (eq_str s) l)
  | VDict d => ret (existsb (str_eqb s) (keys d))
  | _ => raise TypeError
  end.

(** [sep.join(v)]: [v] must be a list of strings. *)
Definition str_join (sep : str) (v : value) : M value :=
  match v with
  | VList l =>
      match as_strs l with
      | Some ss => ret (VStr (join sep ss))
      | None => raise TypeError
      end
  | _ => raise TypeError
  end.

(** The keys a [for] loop over a dictionary visits. *)
Definition iter_keys (v : value) : M (list str) :=
  match v with
  | VDict d => ret (keys d)
  | _ => raise TypeError
  end.

(** [list(set(v))] *)
Definition list_set (v : value) : M value :=
  match v with
  | VList l =>
      match as_strs l with
      | Some ss => ret (strs (distinct ss))
      | None => raise TypeError
      end
  | _ => raise TypeError
  end.

(** [v < n] and [v > n] for an integer [n]. *)
Definition int_lt (v : value) (n : Z) : M bool :=
  match v with
  | VInt m => ret (m <? n)
  | _ => raise TypeError
  end.

Definition int_gt (v : value) (n : Z) : M bool :=
  match v with
  | VInt m => ret (n <? m)
  | _ => raise TypeError
  end.

(** [if b: body] *)
Definition when (b : bool) (body : M unit) : M unit :=
  if b then body else ret tt.

(** [for x in xs: body(x)] *)
Fixpoint for_each {X} (xs : list X) (body : X -> M unit) : M unit :=
  match xs with
  | [] => ret tt
  | x :: xs' => body x ;; for_each xs' body
  end.

(** A [for] loop that also updates a local variable. *)
Fixpoint for_fold {X S} (xs : list X) (body : S -> X -> M S) (s : S) : M S :=
  match xs with
  | [] => ret s
  | x :: xs' => s' <- body s x ;; for_fold xs' body s'
  end.

(** Run the statements on the dictionary [d] and return it. *)
Definition returning (d : dict) (body : M unit) : exn + dict :=
  match body d with
  | inl e => inl e
  | inr (_, d') => inr d'
  end.

End Stmt.

(** ** rep.py *)
Module Rep.
Import Py Re Obj Stmt.
Local Open Scope stmt_scope.

Definition chr (a : ascii) : item := Chr (ord a).
Definition range (a b : ascii) : item := Range (ord a) (ord b).
Definition digit : atom := Category Digit.
Definition space : atom := Category Space.

(** [section_patterns], in the order of the dictionary literal. *)
Definition section_patterns : list (str * pattern) :=
  [ (lit "Experience",
     (* (?i)(work\s+|professional\s+)?experience|employment|career *)
     {| inline_i := true;
        body := alts [ seqs [ Opt (alts [ seqs [text "work"; plus space];
                                          seqs [text "professional"; plus space] ]);
                              text "experience" ];
                       text "employment";
                       text "career" ] |});
    (lit "Education",
     (* (?i)education|qualifications|study *)
     {| inline_i := true;
        body := alts [text "education"; text "qualifications"; text "study"] |});
    (lit "Skills",
     (* (?i)skills?|technologies|competencies *)
     {| inline_i := true;
        body := alts [ seqs [text "skill"; Opt (text "s")];
                       text "technologies";
                       text "competencies" ] |}) ].

(** [[A-Za-z0-9._%+-]+@[A-Za-z0-9.-]+\.[A-Za-z]{2,}] *)
Definition email_pattern : pattern :=
  {| inline_i := false;
     body := seqs [ plus (In_ [range "A" "Z"; range "a" "z"; range "0" "9";
                               chr "."; chr "_"; chr "%"; chr "+"; chr "-"]);
                    text "@";
                    plus (In_ [range "A" "Z"; range "a" "z"; range "0" "9";
                               chr "."; chr "-"]);
                    text ".";
                    Repeat (In_ [range "A" "Z"; range "a" "z"]) 2 None ] |}.

(** [\+?\d[\d\s-]{7,}] *)
Definition phone_pattern : pattern :=
  {| inline_i := false;
     body := seqs [ Opt (text "+");
                    Atom digit;
                    Repeat (In_ [Cat Digit; Cat Space; chr "-"]) 7 None ] |}.

(** [\bword\b] for a word without special characters. *)
Definition whole_word (w : str) : pattern :=
  {| inline_i := false; body := seqs [Boundary; chars w; Boundary] |}.

Definition plain (w : string) : pattern :=
  {| inline_i := false; body := text w |}.

Definition edu_patterns : list pattern :=
  [ whole_word (lit "BSc"); whole_word (lit "MSc"); whole_word (lit "PhD");
    plain "University"; plain "College" ].

Definition exp_patterns : list pattern :=
  [ whole_word (lit "Manager"); whole_word (lit "Engineer");
    whole_word (lit "Experience"); whole_word (lit "Employment") ].

Definition skills_list : list str :=
  [ lit "Python"; lit "SQL"; lit "Kubernetes"; lit "Project Management";
    lit "Data Analysis" ].

Section Analysis.
Context {U : UnicodeDB}.

(** The inner [for ... in section_patterns.items()] with its [break]: the
    first section whose pattern matches the whole of [stripped]. *)
Fixpoint first_fullmatch (ps : list (str * pattern)) (stripped : str) : option str :=
  match ps with
  | [] => None
  | (section, p) :: ps' =>
      if fullmatch p stripped true then Some section
      else first_fullmatch ps' stripped
  end.

(** One turn of [for line in lines]; [current_section] is [None] or a
    section name. *)
Definition scan_line (current_section : option str) (line : str) : M (option str) :=
  let stripped := strip line in
  match stripped with
  | [] => ret current_section
  | _ =>
      match first_fullmatch section_patterns stripped with
      | Some section =>
          append (lit "sections_found") (VStr section) ;;
          setitem2 (lit "sections_content") section (VList []) ;;
          ret (Some section)
      | None =>
          match current_section with
          | Some (c :: cs) =>
              append2 (lit "sections_content") (c :: cs) (VStr stripped) ;;
              ret current_section
          | _ => ret current_section
          end
      end
  end.

(** [for section in analysis['sections_content']]: the collected lines of
    each section become one string. *)
Definition join_sections : M unit :=
  c <- getitem (lit "sections_content") ;;
  sections <- iter_keys c ;;
  for_each sections (fun section =>
    v <- getitem2 (lit "sections_content") section ;;
    joined <- str_join [NL] v ;;
    setitem2 (lit "sections_content") section joined).

Definition is_match (m : option (nat * nat)) : bool :=
  match m with Some _ => true | None => false end.

Definition analyze_cv (cv_text : str) : exn + dict :=
  returning
    [ (lit "total_chars", VInt (len cv_text));
      (lit "total_words", VInt (len (split cv_text)));
      (lit "sections_found", VList []);
      (lit "sections_content", VDict []);
      (lit "skills_indicators", VList []);
      (lit "experience_indicators", VList []);
      (lit "education_indicators", VList []);
      (lit "contact_info", VList []);
      (lit "potential_issues", VList []) ]
    (let lines := splitlines cv_text in
     for_fold lines scan_line None ;;
     join_sections ;;
     (let emails := findall email_pattern cv_text false in
      let phones := findall phone_pattern cv_text false in
      extend (lit "contact_info") (map VStr (emails ++ phones))) ;;
     for_each edu_patterns (fun pat =>
       let matches := findall pat cv_text true in
       extend (lit "education_indicators") (map VStr matches)) ;;
     for_each exp_patterns (fun pat =>
       let matches := findall pat cv_text true in
       extend (lit "experience_indicators") (map VStr matches)) ;;
     for_each skills_list (fun skill =>
       when (is_match (search (whole_word skill) cv_text true))
         (append (lit "skills_indicators") (VStr skill))) ;;
     (found <- getitem (lit "sections_found") ;;
      b <- contains (lit "Experience") found ;;
      when (negb b)
        (append (lit "potential_issues") (VStr (lit "Missing experience section")))) ;;
     (found <- getitem (lit "sections_found") ;;
      b <- contains (lit "Education") found ;;
      when (negb b)
        (append (lit "potential_issues") (VStr (lit "Missing education section")))) ;;
     (contact <- getitem (lit "contact_info") ;;
      when (negb (truthy contact))
        (append (lit "potential_issues") (VStr (lit "No contact information found"))))).

(** *** What the statements compute

    The functions below give, as plain functions of the text, what
    [analyze_cv] leaves under each key; the theorems relate them to the
    statements above. *)

(** The section a line opens, if it is a header. *)
Definition header_of (line : str) : option str :=
  match strip line with
  | [] => None
  | (_ :: _) as stripped => first_fullmatch section_patterns stripped
  end.

(** The sections the header lines among [lines] open, in order. *)
Definition headers (lines : list str) : list str :=
  flat_map (fun line => match header_of line with
                        | Some section => [section]
                        | None => []
                        end) lines.

(** The lines of a block as they are collected: trimmed, blank ones left
    out. *)
Definition body_lines (lines : list str) : list str :=
  filter (fun stripped => match stripped with [] => false | _ => true end)
         (map strip lines).

(** The state of the loop over the lines: [current_section],
    [analysis['sections_found']] and [analysis['sections_content']]. *)
Record sections : Type := {
  current : option str;
  found : list str;
  content : list (str * list str)
}.

Definition no_sections : sections :=
  {| current := None; found := []; content := [] |}.

Definition classify_line (st : sections) (line : str) : sections :=
  match header_of line with
  | Some section =>
      {| current := Some section;
         found := found st ++ [section];
         content := update section [] (content st) |}
  | None =>
      match strip line, current st with
      | (_ :: _) as stripped, Some (c :: cs) =>
          match lookup (c :: cs) (content st) with
          | Some ls =>
              {| current := current st;
                 found := found st;
                 content := update (c :: cs) (ls ++ [stripped]) (content st) |}
          | None => st
          end
      | _, _ => st
      end
  end.

Definition classify (lines : list str) : sections :=
  fold_left classify_line lines no_sections.

(** The loop only appends to a section it has opened: the current section
    is a key of [sections_content]. *)
Definition opened (st : sections) : Prop :=
  match current st with
  | Some k => In k (keys (content st))
  | None => True
  end.

(** [sections_content] while the lines are collected, and after the join. *)
Definition collected (ct : list (str * list str)) : dict :=
  map_values strs ct.

Definition joined (ct : list (str * list str)) : dict :=
  map_values (fun ls => VStr (join [NL] ls)) ct.

Definition emails (cv_text : str) : list str := findall email_pattern cv_text false.
Definition phones (cv_text : str) : list str := findall phone_pattern cv_text false.

Definition all_matches (ps : list pattern) (cv_text : str) : list str :=
  flat_map (fun pat => findall pat cv_text true) ps.

Definition has_skill (cv_text skill : str) : bool :=
  is_match (search (whole_word skill) cv_text true).

Definition issues (found contact : list str) : list str :=
  (if existsb (str_eqb (lit "Experience")) found then []
   else [lit "Missing experience section"])
  ++ (if existsb (str_eqb (lit "Education")) found then []
      else [lit "Missing education section"])
  ++ (match contact with
      | [] => [lit "No contact information found"]
      | _ => []
      end).

(** The dictionary [analysis] with the given values under its nine keys. *)
Definition rep_dict (chars words : Z) (found : list value) (content : dict)
  (skills experience education contact issues : list value) : dict :=
  [ (lit "total_chars", VInt chars);
    (lit "total_words", VInt words);
    (lit "sections_found", VList found);
    (lit "sections_content", VDict content);
    (lit "skills_indicators", VList skills);
    (lit "experience_indicators", VList experience);
    (lit "education_indicators", VList education);
    (lit "contact_info", VList contact);
    (lit "potential_issues", VList issues) ].

Definition analysis_of (cv_text : str) : dict :=
  let st := classify (splitlines cv_text) in
  let contact := emails cv_text ++ phones cv_text in
  rep_dict (len cv_text) (len (split cv_text))
    (map VStr (found st)) (joined (content st))
    (map VStr (filter (has_skill cv_text) skills_list))
    (map VStr (all_matches exp_patterns cv_text))
    (map VStr (all_matches edu_patterns cv_text))
    (map VStr contact)
    (map VStr (issues (found st) contact)).

End Analysis.
End Rep.

(** ** cvf.py *)
Module Cvf.
Import Py Re Obj Stmt.
Local Open Scope stmt_scope.

Definition chr (a : ascii) : item := Chr (ord a).
Definition range (a b : ascii) : item := Range (ord a) (ord b).
Definition digit : atom := Category Digit.
Definition space : atom := Category Space.

(** An alternation of literal words, written as in the source:
    [words "a|b|c"]. *)
Definition words (ws : string) : regex :=
  alts (map chars (split_on (ord "|") (lit ws))).

Definition section_patterns : list (str * pattern) :=
  [ (lit "Skills",
     (* (?i)(technical\s+)?skills?|competenc(ies|y)|technologies? *)
     {| inline_i := true;
        body := alts [ seqs [ Opt (seqs [text "technical"; plus space]);
                              text "skill"; Opt (text "s") ];
                       seqs [ text "competenc"; alts [text "ies"; text "y"] ];
                       seqs [ text "technologie"; Opt (text "s") ] ] |});
    (lit "Experience",
     (* (?i)(work\s+|professional\s+)?experience|employment|career *)
     {| inline_i := true;
        body := alts [ seqs [ Opt (alts [ seqs [text "work"; plus space];
                                          seqs [text "professional"; plus space] ]);
                              text "experience" ];
                       text "employment";
                       text "career" ] |});
    (lit "Education",
     (* (?i)education|qualifications?|academic *)
     {| inline_i := true;
        body := alts [ text "education";
                       seqs [text "qualification"; Opt (text "s")];
                       text "academic" ] |});
    (lit "Contact",
     (* (?i)contact|personal\s+info *)
     {| inline_i := true;
        body := alts [ text "contact";
                       seqs [text "personal"; plus space; text "info"] ] |});
    (lit "Summary",
     (* (?i)summary|profile|objective *)
     {| inline_i := true; body := words "summary|profile|objective" |});
    (lit "Projects",
     (* (?i)projects?|portfolio *)
     {| inline_i := true;
        body := alts [ seqs [text "project"; Opt (text "s")]; text "portfolio" ] |}) ].

Definition skill_patterns : list pattern :=
  [ {| inline_i := false;
       body := words "python|javascript|java|sql|html|css|react|angular|vue" |};
    {| inline_i := false;
       body := words "aws|azure|docker|kubernetes|git|linux" |};
    {| inline_i := false;
       body := words "machine learning|ai|data science|analytics" |};
    {| inline_i := false;
       body := words "project management|leadership|agile|scrum" |} ].

Definition exp_patterns : list pattern :=
  [ (* \d+\+?\s+years?(?:\s+(?:of\s+)?experience)? *)
    {| inline_i := false;
       body := seqs [ plus digit; Opt (text "+"); plus space;
                      text "year"; Opt (text "s");
                      Opt (seqs [ plus space;
                                  Opt (seqs [text "of"; plus space]);
                                  text "experience" ]) ] |};
    (* (?:senior|junior|lead|principal|manager|director) *)
    {| inline_i := false;
       body := words "senior|junior|lead|principal|manager|director" |};
    (* \d{4}\s*[-–]\s*(?:\d{4}|present|current), the second dash is U+2013 *)
    {| inline_i := false;
       body := seqs [ times digit 4; star space;
                      Atom (In_ [chr "-"; Chr 8211]); star space;
                      alts [times digit 4; text "present"; text "current"] ] |};
    (* (?:january|...|december)\s+\d{4} *)
    {| inline_i := false;
       body := seqs [ words "january|february|march|april|may|june|july|august|september|october|november|december";
                      plus space; times digit 4 ] |} ].

Definition edu_patterns : list pattern :=
  [ {| inline_i := false;
       body := words "bachelor|master|phd|doctorate|degree" |};
    {| inline_i := false;
       body := words "university|college|institute|school" |};
    {| inline_i := false;
       body := words "bsc|msc|ba|ma|phd|mba" |};
    (* certified?|certification *)
    {| inline_i := false;
       body := alts [ seqs [text "certifie"; Opt (text "d")];
                      text "certification" ] |} ].

Definition separator : regex := Opt (Atom (In_ [chr "-"; chr "."; Cat Space])).

(** [[a-zA-Z0-9._%+-]+@[a-zA-Z0-9.-]+\.[a-zA-Z]{2,}] *)
Definition email_pattern : pattern :=
  {| inline_i := false;
     body := seqs [ plus (In_ [range "a" "z"; range "A" "Z"; range "0" "9";
                               chr "."; chr "_"; chr "%"; chr "+"; chr "-"]);
                    text "@";
                    plus (In_ [range "a" "z"; range "A" "Z"; range "0" "9";
                               chr "."; chr "-"]);
                    text ".";
                    Repeat (In_ [range "a" "z"; range "A" "Z"]) 2 None ] |}.

(** [\+?\d{1,3}[-.\s]?\d{1,4}[-.\s]?\d{1,4}[-.\s]?\d{1,9}] *)
Definition phone_pattern : pattern :=
  {| inline_i := false;
     body := seqs [ Opt (text "+");
                    Repeat digit 1 (Some 3%nat); separator;
                    Repeat digit 1 (Some 4%nat); separator;
                    Repeat digit 1 (Some 4%nat); separator;
                    Repeat digit 1 (Some 9%nat) ] |}.

(** [linkedin\.com/in/[\w-]+] *)
Definition linkedin_pattern : pattern :=
  {| inline_i := false;
     body := seqs [ text "linkedin.com/in/"; plus (In_ [Cat Word; chr "-"]) ] |}.

(** [github\.com/[\w-]+] *)
Definition github_pattern : pattern :=
  {| inline_i := false;
     body := seqs [ text "github.com/"; plus (In_ [Cat Word; chr "-"]) ] |}.

Definition contact_patterns : list pattern :=
  [ email_pattern; phone_pattern; linkedin_pattern; github_pattern ].

Definition too_short : str := lit "CV seems very short (less than 500 characters)".
Definition too_long : str :=
  lit "CV is quite long (over 10,000 characters) - consider summarizing".
Definition no_skills : str :=
  lit "No clear technical skills found - make sure to list your skills clearly".
Definition no_experience : str :=
  lit "No clear work experience found - include job titles and dates".
Definition no_headers : str :=
  lit "No clear section headers found - consider adding section headers like 'SKILLS' and 'EXPERIENCE'".

Section Analysis.
Context {U : UnicodeDB}.

(** [bool(matches)] for the list [re.findall] returns. Where a pattern has
    groups the list holds the groups' texts, one entry per match still. *)
Definition any_match (matches : list str) : bool :=
  match matches with [] => false | _ => true end.

Definition analyze_cv_structure (cv_text : str) : exn + dict :=
  returning
    [ (lit "total_chars", VInt (len cv_text));
      (lit "total_words", VInt (len (split cv_text)));
      (lit "sections_found", VList []);
      (lit "skills_indicators", VList []);
      (lit "experience_indicators", VList []);
      (lit "education_indicators", VList []);
      (lit "contact_info", VList []);
      (lit "potential_issues", VList []) ]
    (let lines := split_on NL cv_text in
     setitem (lit "total_lines") (VInt (len lines)) ;;
     for_each section_patterns (fun '(section, pat) =>
       let matches := findall pat cv_text false in
       when (any_match matches)
         (append (lit "sections_found") (VStr section))) ;;
     for_each skill_patterns (fun pat =>
       let matches := findall pat cv_text true in
       when (any_match matches)
         (extend (lit "skills_indicators") (map VStr matches))) ;;
     (skills <- getitem (lit "skills_indicators") ;;
      unique <- list_set skills ;;
      setitem (lit "skills_indicators") unique) ;;
     for_each exp_patterns (fun pat =>
       let matches := findall pat cv_text true in
       extend (lit "experience_indicators") (map VStr matches)) ;;
     for_each edu_patterns (fun pat =>
       let matches := findall pat cv_text true in
       extend (lit "education_indicators") (map VStr matches)) ;;
     for_each contact_patterns (fun pat =>
       let matches := findall pat cv_text true in
       extend (lit "contact_info") (map VStr matches)) ;;
     (chars <- getitem (lit "total_chars") ;;
      b <- int_lt chars 500 ;;
      when b (append (lit "potential_issues") (VStr too_short))) ;;
     (chars <- getitem (lit "total_chars") ;;
      b <- int_gt chars 10000 ;;
      when b (append (lit "potential_issues") (VStr too_long))) ;;
     (skills <- getitem (lit "skills_indicators") ;;
      when (negb (truthy skills))
        (append (lit "potential_issues") (VStr no_skills))) ;;
     (experience <- getitem (lit "experience_indicators") ;;
      when (negb (truthy experience))
        (append (lit "potential_issues") (VStr no_experience))) ;;
     (found <- getitem (lit "sections_found") ;;
      e <- contains (lit "Experience") found ;;
      found' <- getitem (lit "sections_found") ;;
      s <- contains (lit "Skills") found' ;;
      when (negb e && negb s)
        (append (lit "potential_issues") (VStr no_headers)))).

(** *** What the statements compute *)

Definition sections_found (cv_text : str) : list str :=
  map fst (filter (fun sp => any_match (findall (snd sp) cv_text false))
                  section_patterns).

Definition all_matches (ps : list pattern) (cv_text : str) : list str :=
  flat_map (fun pat => findall pat cv_text true) ps.

Definition skills (cv_text : str) : list str :=
  distinct (all_matches skill_patterns cv_text).

Definition issues (chars : Z) (skills experience found : list str) : list str :=
  (if chars <? 500 then [too_short] else [])
  ++ (if 10000 <? chars then [too_long] else [])
  ++ (match skills with [] => [no_skills] | _ => [] end)
  ++ (match experience with [] => [no_experience] | _ => [] end)
  ++ (if negb (existsb (str_eqb (lit "Experience")) found)
         && negb (existsb (str_eqb (lit "Skills")) found)
      then [no_headers] else []).

(** The dictionary [analysis] with the given values under its keys;
    [total_lines] is assigned after the literal and so comes last. *)
Definition cvf_dict (chars words : Z)
  (found skills experience education contact issues : list value) (lines : Z)
  : dict :=
  [ (lit "total_chars", VInt chars);
    (lit "total_words", VInt words);
    (lit "sections_found", VList found);
    (lit "skills_indicators", VList skills);
    (lit "experience_indicators", VList experience);
    (lit "education_indicators", VList education);
    (lit "contact_info", VList contact);
    (lit "potential_issues", VList issues);
    (lit "total_lines", VInt lines) ].

Definition analysis_of (cv_text : str) : dict :=
  let found := sections_found cv_text in
  let experience := all_matches exp_patterns cv_text in
  cvf_dict (len cv_text) (len (split cv_text))
    (map VStr found)
    (map VStr (skills cv_text))
    (map VStr experience)
    (map VStr (all_matches edu_patterns cv_text))
    (map VStr (all_matches contact_patterns cv_text))
    (map VStr (issues (len cv_text) (skills cv_text) experience found))
    (len (split_on NL cv_text)).

End Analysis.
End Cvf.

(** ** Text files: bytes, encodings, newlines

    What [open(path, 'r', encoding=...)] and [f.read()] do with the bytes
    of a file: decode them, strictly, and translate the line ends. *)
Module Codec.
Import Py.

Definition bytes := list Byte.byte.

Definition byte_value (b : Byte.byte) : Z := Z.of_N (Strings.Byte.to_N b).

(** A continuation byte, 80..BF. *)
Definition continuation (b : Z) : bool := between 128 191 b.

(** The strict UTF-8 decoder on byte values: the well-formed sequences of
    one to four bytes, no overlong form, no surrogate, nothing above
    U+10FFFF; [None] is [UnicodeDecodeError]. *)
Fixpoint utf8_values (bs : list Z) : option str :=
  match bs with
  | [] => Some []
  | b0 :: bs1 =>
      if b0 <? 128 then option_map (cons b0) (utf8_values bs1)
      else if between 194 223 b0 then
        match bs1 with
        | b1 :: bs2 =>
            if continuation b1
            then option_map (cons ((b0 - 192) * 64 + (b1 - 128))) (utf8_values bs2)
            else None
        | _ => None
        end
      else if between 224 239 b0 then
        match bs1 with
        | b1 :: b2 :: bs3 =>
            if between (if b0 =? 224 then 160 else 128)
                       (if b0 =? 237 then 159 else 191) b1
               && continuation b2
            then option_map
                   (cons ((b0 - 224) * 4096 + (b1 - 128) * 64 + (b2 - 128)))
                   (utf8_values bs3)
            else None
        | _ => None
        end
      else if between 240 244 b0 then
        match bs1 with
        | b1 :: b2 :: b3 :: bs4 =>
            if between (if b0 =? 240 then 144 else 128)
                       (if b0 =? 244 then 143 else 191) b1
               && continuation b2 && continuation b3
            then option_map
                   (cons ((b0 - 240) * 262144 + (b1 - 128) * 4096
                          + (b2 - 128) * 64 + (b3 - 128)))
                   (utf8_values bs4)
            else None
        | _ => None
        end
      else None
  end.

Definition decode_utf8 (bs : bytes) : option str :=
  utf8_values (map byte_value bs).

(** Latin-1: every byte is the character of the same number. *)
Definition decode_latin1 (bs : bytes) : str := map byte_value bs.

(** Windows-1252 differs from Latin-1 on 80..9F, where five bytes are not
    assigned. *)
Definition cp1252_high : list (Z * Z) :=
  [ (128, 8364); (130, 8218); (131, 402); (132, 8222); (133, 8230);
    (134, 8224); (135, 8225); (136, 710); (137, 8240); (138, 352);
    (139, 8249); (140, 338); (142, 381); (145, 8216); (146, 8217);
    (147, 8220); (148, 8221); (149, 8226); (150, 8211); (151, 8212);
    (152, 732); (153, 8482); (154, 353); (155, 8250); (156, 339);
    (158, 382); (159, 376) ].

Definition cp1252_char (b : Z) : option Z :=
  if between 128 159 b
  then option_map snd (find (fun bc => fst bc =? b) cp1252_high)
  else Some b.

Fixpoint cp1252_values (bs : list Z) : option str :=
  match bs with
  | [] => Some []
  | b :: bs' =>
      match cp1252_char b with
      | Some c => option_map (cons c) (cp1252_values bs')
      | None => None
      end
  end.

Definition decode_cp1252 (bs : bytes) : option str :=
  cp1252_values (map byte_value bs).

Inductive codec : Type := Utf8 | Latin1 | Cp1252.

(** The name of the encoding as the source writes it. *)
Definition codec_name (c : codec) : str :=
  match c with
  | Utf8 => lit "utf-8"
  | Latin1 => lit "latin-1"
  | Cp1252 => lit "cp1252"
  end.

Definition decode (c : codec) (bs : bytes) : option str :=
  match c with
  | Utf8 => decode_utf8 bs
  | Latin1 => Some (decode_latin1 bs)
  | Cp1252 => decode_cp1252 bs
  end.

(** Reading in text mode with the default [newline=None]: CR LF and a lone
    CR become LF. *)
Fixpoint universal_newlines (s : str) : str :=
  match s with
  | [] => []
  | c :: s' =>
      if c =? 13
      then NL :: match s' with
                 | d :: s'' =>
                     if d =? NL then universal_newlines s''
                     else universal_newlines s'
                 | [] => []
                 end
      else c :: universal_newlines s'
  end.

(** The code points UTF-8 can write: all but the surrogates. *)
Definition is_scalar (c : Z) : bool :=
  (0 <=? c) && (c <? 55296) || (57343 <? c) && (c <=? 1114111).

(** A string literal of the source with characters beyond ASCII: the
    literal holds its UTF-8 bytes. *)
Definition utf8 (s : string) : str :=
  match decode_utf8 (list_byte_of_string s) with
  | Some t => t
  | None => []
  end.

(** [str(n)] for an integer. *)
Definition decimal (n : Z) : str :=
  lit (DecimalString.NilZero.string_of_int (Z.to_int n)).

(** The digits of a number, last digit first, with a comma after every
    third one that has a digit after it; [k] counts the digits of the group
    being written. *)
Fixpoint group_digits (ds : str) (k : nat) : str :=
  match ds with
  | [] => []
  | d :: ds' =>
      match k with
      | 3%nat => ord "," :: d :: group_digits ds' 1
      | _ => d :: group_digits ds' (S k)
      end
  end.

(** [format(n, ',')] for an integer. *)
Definition thousands (n : Z) : str :=
  (if n <? 0 then lit "-" else [])
  ++ rev (group_digits (rev (decimal (Z.abs n))) 0).

Fixpoint starts_with (w s : str) : bool :=
  match w, s with
  | [], _ => true
  | a :: w', c :: s' => (a =? c) && starts_with w' s'
  | _ :: _, [] => false
  end.

(** [w in s] for two strings. *)
Fixpoint occurs (w s : str) : bool :=
  starts_with w s
  || match s with
     | [] => false
     | _ :: s' => occurs w s'
     end.

End Codec.

(** ** cvf.py: the file reader, the report and the command line

    [read_file], [display_analysis] and [main] act on the world around the
    script: the arguments, the files, the standard output. The world is a
    [Host]; the file system is taken not to change while [main] runs. A
    statement is a function of what has been printed so far that returns or
    raises and leaves the output as it is then: what was printed before an
    exception stays printed. *)
Module Cli.
Import Py Re Obj Codec.

Inductive error : Type :=
| UnicodeDecodeError
| UnicodeEncodeError
| OSError (text : str)
| Exception_ (text : str)
| KeyError (k : str)
| TypeError
| ValueError
| AttributeError.

(** What the interpreter and the machine decide. *)
Class Host : Type := {
  (** [sys.argv] *)
  argv : list str;
  (** [Path(p).exists()]: the answer, or the text of the [OSError] of
      [stat] that [exists] raises again (a name too long, a directory that
      may not be searched); a missing file is the answer [False]. *)
  path_exists : str -> str + bool;
  (** Opening [p] for reading and reading it to the end: the bytes of the
      file, or the text of the exception raised ([FileNotFoundError],
      [PermissionError], [IsADirectoryError], ...), none of which is a
      [UnicodeDecodeError]. *)
  open_read : str -> str + bytes;
  (** Whether the encoding of [sys.stdout] has the character. *)
  encodable : Z -> bool;
  (** [str(v)] for a list or a dictionary. *)
  str_container : value -> str;
  (** [str(e)] for an exception the interpreter words. *)
  str_exception : error -> str;
  (** What [d[:n]] raises for a dictionary [d]: [TypeError] up to Python
      3.11, [KeyError] from 3.12 on. *)
  dict_slice_error : error
}.

Definition IO (A : Type) : Type := list str -> (error + A) * list str.

Definition ret {A} (a : A) : IO A := fun out => (inr a, out).
Definition raise {A} (e : error) : IO A := fun out => (inl e, out).
Definition bind {A B} (m : IO A) (f : A -> IO B) : IO B :=
  fun out =>
    match m out with
    | (inl e, out') => (inl e, out')
    | (inr a, out') => f a out'
    end.

Declare Scope io_scope.
Delimit Scope io_scope with io.
Notation "x <- m ;; k" := (bind m (fun x => k))
  (at level 61, m at next level, right associativity) : io_scope.
Notation "m ;; k" := (bind m (fun _ => k))
  (at level 61, right associativity) : io_scope.
Local Open Scope io_scope.

(** [try: body / except Exception as e: handler(e)]: every exception of
    the model is an [Exception]. *)
Definition try_except {A} (body : IO A) (handler : error -> IO A) : IO A :=
  fun out =>
    match body out with
    | (inl e, out') => handler e out'
    | (inr a, out') => (inr a, out')
    end.

(** The result of a call that prints nothing. *)
Definition lift {A} (r : error + A) : IO A := fun out => (r, out).

Fixpoint for_each {X} (xs : list X) (body : X -> IO unit) : IO unit :=
  match xs with
  | [] => ret tt
  | x :: xs' => body x ;; for_each xs' body
  end.

Definition when (b : bool) (body : IO unit) : IO unit :=
  if b then body else ret tt.

Definition of_exn (e : exn) : error :=
  match e with
  | Obj.KeyError k => KeyError k
  | Obj.TypeError => TypeError
  | Obj.AttributeError => AttributeError
  end.

Definition encodings : list codec := [Utf8; Latin1; Cp1252].

Definition could_not_read : str := lit "Could not read file with any encoding".

Section Program.
Context {U : UnicodeDB} {W : Host}.

(** [print(s)]: the text and a newline go to the standard output, or
    nothing does when the output's encoding lacks a character of [s]. *)
Definition print (s : str) : IO unit :=
  fun out =>
    if forallb encodable s then (inr tt, out ++ [s])
    else (inl UnicodeEncodeError, out).

(** [str(e)] *)
Definition text_of (e : error) : str :=
  match e with
  | OSError text => text
  | Exception_ text => text
  | _ => str_exception e
  end.

(** *** read_file *)

(** [with open(file_path, 'r', encoding=encoding) as f: f.read()] *)
Definition read_text (c : codec) (file_path : str) : error + str :=
  match open_read file_path with
  | inl text => inl (OSError text)
  | inr bs =>
      match decode c bs with
      | Some t => inr (universal_newlines t)
      | None => inl UnicodeDecodeError
      end
  end.

(** The loop over the encodings: the first that decodes the file returns,
    a [UnicodeDecodeError] goes on to the next, any other exception leaves
    the function, and after the last encoding the function raises. *)
Fixpoint try_encodings (cs : list codec) (file_path : str) : error + (str * str) :=
  match cs with
  | [] => inl (Exception_ could_not_read)
  | c :: cs' =>
      match read_text c file_path with
      | inr t => inr (t, codec_name c)
      | inl UnicodeDecodeError => try_encodings cs' file_path
      | inl e => inl e
      end
  end.

Definition read_file (file_path : str) : error + (str * str) :=
  try_encodings encodings file_path.

(** What [read_file] makes of the bytes of a file: the text and the name
    of the encoding. *)
Definition decoded (bs : bytes) : str * str :=
  match decode_utf8 bs with
  | Some t => (universal_newlines t, lit "utf-8")
  | None => (universal_newlines (decode_latin1 bs), lit "latin-1")
  end.

(** *** display_analysis *)

(** [analysis[k]] *)
Definition item (analysis : dict) (k : string) : IO value :=
  match lookup (lit k) analysis with
  | Some v => ret v
  | None => raise (KeyError (lit k))
  end.

(** [f"{v:,}"] *)
Definition format_comma (v : value) : IO str :=
  match v with
  | VInt n => ret (thousands n)
  | VStr _ => raise ValueError
  | VList _ | VDict _ => raise TypeError
  end.

(** [f"{v}"] *)
Definition to_str (v : value) : str :=
  match v with
  | VStr s => s
  | VInt n => decimal n
  | VList _ | VDict _ => str_container v
  end.

(** What [for x in v] visits. *)
Definition iterate (v : value) : IO (list value) :=
  match v with
  | VList l => ret l
  | VStr s => ret (map (fun c => VStr [c]) s)
  | VDict d => ret (map VStr (keys d))
  | VInt _ => raise TypeError
  end.

(** [v[:n]] *)
Definition slice_to (n : nat) (v : value) : IO value :=
  match v with
  | VList l => ret (VList (firstn n l))
  | VStr s => ret (VStr (firstn n s))
  | VDict _ => raise dict_slice_error
  | VInt _ => raise TypeError
  end.

(** [len(v)] *)
Definition length_of (v : value) : IO Z :=
  match v with
  | VList l => ret (len l)
  | VStr s => ret (len s)
  | VDict d => ret (len d)
  | VInt _ => raise TypeError
  end.

(** [s not in v] for a string [s]. *)
Definition not_in (s : str) (v : value) : IO bool :=
  match v with
  | VList l => ret (negb (existsb (eq_str s) l))
  | VStr t => ret (negb (occurs s t))
  | VDict d => ret (negb (existsb (str_eqb s) (keys d)))
  | VInt _ => raise TypeError
  end.

Definition display_analysis (analysis : dict) (filename : str) : IO unit :=
  print (utf8 "📄 CV Analysis Report for: " ++ filename) ;;
  print (repeat (ord "=") 60) ;;
  print (NL :: utf8 "📊 Basic Statistics:") ;;
  (v <- item analysis "total_chars" ;;
   t <- format_comma v ;;
   print (utf8 "  • Characters: " ++ t)) ;;
  (v <- item analysis "total_words" ;;
   t <- format_comma v ;;
   print (utf8 "  • Words: " ++ t)) ;;
  (v <- item analysis "total_lines" ;;
   t <- format_comma v ;;
   print (utf8 "  • Lines: " ++ t)) ;;
  print (NL :: utf8 "📋 Sections Detected:") ;;
  (found <- item analysis "sections_found" ;;
   if truthy found then
     found' <- item analysis "sections_found" ;;
     sections <- iterate found' ;;
     for_each sections (fun section => print (utf8 "  ✅ " ++ to_str section))
   else print (utf8 "  ❌ No clear section headers found")) ;;
  print (NL :: utf8 "🔧 Skills Found:") ;;
  (skills <- item analysis "skills_indicators" ;;
   if truthy skills then
     (skills' <- item analysis "skills_indicators" ;;
      first <- slice_to 10 skills' ;;
      shown <- iterate first ;;
      for_each shown (fun skill => print (utf8 "  ✅ " ++ to_str skill))) ;;
     (skills' <- item analysis "skills_indicators" ;;
      n <- length_of skills' ;;
      when (10 <? n)
        (skills'' <- item analysis "skills_indicators" ;;
         m <- length_of skills'' ;;
         print (lit "  ... and " ++ decimal (m - 10) ++ lit " more")))
   else print (utf8 "  ❌ No clear skills found")) ;;
  print (NL :: utf8 "💼 Experience Indicators:") ;;
  (experience <- item analysis "experience_indicators" ;;
   if truthy experience then
     (experience' <- item analysis "experience_indicators" ;;
      first <- slice_to 5 experience' ;;
      shown <- iterate first ;;
      for_each shown (fun exp => print (utf8 "  ✅ " ++ to_str exp))) ;;
     (experience' <- item analysis "experience_indicators" ;;
      n <- length_of experience' ;;
      when (5 <? n)
        (experience'' <- item analysis "experience_indicators" ;;
         m <- length_of experience'' ;;
         print (lit "  ... and " ++ decimal (m - 5) ++ lit " more")))
   else print (utf8 "  ❌ No clear experience indicators found")) ;;
  print (NL :: utf8 "📚 Education Indicators:") ;;
  (education <- item analysis "education_indicators" ;;
   if truthy education then
     education' <- item analysis "education_indicators" ;;
     first <- slice_to 5 education' ;;
     shown <- iterate first ;;
     for_each shown (fun edu => print (utf8 "  ✅ " ++ to_str edu))
   else print (utf8 "  ❌ No education information found")) ;;
  print (NL :: utf8 "📞 Contact Information:") ;;
  (contacts <- item analysis "contact_info" ;;
   if truthy contacts then
     contacts' <- item analysis "contact_info" ;;
     each <- iterate contacts' ;;
     for_each each (fun contact => print (utf8 "  ✅ " ++ to_str contact))
   else print (utf8 "  ❌ No contact information found")) ;;
  (issues <- item analysis "potential_issues" ;;
   if truthy issues then
     print (NL :: utf8 "⚠️  Potential Issues:") ;;
     issues' <- item analysis "potential_issues" ;;
     each <- iterate issues' ;;
     for_each each (fun issue => print (utf8 "  • " ++ to_str issue))
   else print (NL :: utf8 "✅ No major issues found!")) ;;
  print (NL :: utf8 "💡 Recommendations:") ;;
  (found <- item analysis "sections_found" ;;
   b <- not_in (lit "Skills") found ;;
   when b (print (utf8 "  • Add a clear 'SKILLS' or 'TECHNICAL SKILLS' section"))) ;;
  (skills <- item analysis "skills_indicators" ;;
   when (negb (truthy skills))
     (print (utf8 "  • List specific technologies, programming languages, and tools"))) ;;
  (experience <- item analysis "experience_indicators" ;;
   when (negb (truthy experience))
     (print (utf8 "  • Include job titles, company names, and employment dates"))) ;;
  (contacts <- item analysis "contact_info" ;;
   when (negb (truthy contacts))
     (print (utf8 "  • Add email address and phone number"))) ;;
  print (utf8 "  • Use keywords from job descriptions you're applying to") ;;
  print (utf8 "  • Quantify achievements with numbers when possible").

(** *** What the statements print *)

(** The lines in order, one [print] each. *)
Definition print_all (lines : list str) : IO unit := for_each lines print.

Definition ticked (x : str) : str := utf8 "  ✅ " ++ x.
Definition bulleted (x : str) : str := utf8 "  • " ++ x.
Definition and_more (n : Z) : str := lit "  ... and " ++ decimal n ++ lit " more".

(** The lines of the report for an analysis whose counts are integers and
    whose lists hold strings. *)
Definition report (chars words lines : Z)
  (found skills experience education contact issues : list str)
  (filename : str) : list str :=
  [ utf8 "📄 CV Analysis Report for: " ++ filename;
    repeat (ord "=") 60;
    NL :: utf8 "📊 Basic Statistics:";
    utf8 "  • Characters: " ++ thousands chars;
    utf8 "  • Words: " ++ thousands words;
    utf8 "  • Lines: " ++ thousands lines;
    NL :: utf8 "📋 Sections Detected:" ]
  ++ match found with
     | [] => [utf8 "  ❌ No clear section headers found"]
     | _ => map ticked found
     end
  ++ [NL :: utf8 "🔧 Skills Found:"]
  ++ match skills with
     | [] => [utf8 "  ❌ No clear skills found"]
     | _ => map ticked (firstn 10 skills)
            ++ (if 10 <? len skills then [and_more (len skills - 10)] else [])
     end
  ++ [NL :: utf8 "💼 Experience Indicators:"]
  ++ match experience with
     | [] => [utf8 "  ❌ No clear experience indicators found"]
     | _ => map ticked (firstn 5 experience)
            ++ (if 5 <? len experience then [and_more (len experience - 5)]
                else [])
     end
  ++ [NL :: utf8 "📚 Education Indicators:"]
  ++ match education with
     | [] => [utf8 "  ❌ No education information found"]
     | _ => map ticked (firstn 5 education)
     end
  ++ [NL :: utf8 "📞 Contact Information:"]
  ++ match contact with
     | [] => [utf8 "  ❌ No contact information found"]
     | _ => map ticked contact
     end
  ++ match issues with
     | [] => [NL :: utf8 "✅ No major issues found!"]
     | _ => (NL :: utf8 "⚠️  Potential Issues:") :: map bulleted issues
     end
  ++ [NL :: utf8 "💡 Recommendations:"]
  ++ (if existsb (str_eqb (lit "Skills")) found then []
      else [utf8 "  • Add a clear 'SKILLS' or 'TECHNICAL SKILLS' section"])
  ++ match skills with
     | [] => [utf8 "  • List specific technologies, programming languages, and tools"]
     | _ => []
     end
  ++ match experience with
     | [] => [utf8 "  • Include job titles, company names, and employment dates"]
     | _ => []
     end
  ++ match contact with
     | [] => [utf8 "  • Add email address and phone number"]
     | _ => []
     end
  ++ [ utf8 "  • Use keywords from job descriptions you're applying to";
       utf8 "  • Quantify achievements with numbers when possible" ].

(** The report for the analysis of a text. *)
Definition report_of (cv_text filename : str) : list str :=
  report (len cv_text) (len (split cv_text)) (len (split_on NL cv_text))
    (Cvf.sections_found cv_text) (Cvf.skills cv_text)
    (Cvf.all_matches Cvf.exp_patterns cv_text)
    (Cvf.all_matches Cvf.edu_patterns cv_text)
    (Cvf.all_matches Cvf.contact_patterns cv_text)
    (Cvf.issues (len cv_text) (Cvf.skills cv_text)
       (Cvf.all_matches Cvf.exp_patterns cv_text) (Cvf.sections_found cv_text))
    filename.

(** *** main *)

Definition main : IO unit :=
  if negb (len argv =? 2) then
    print (lit "Usage: python3 cv_format_checker.py <cv_file>") ;;
    print (lit "Example: python3 cv_format_checker.py my_cv.pdf")
  else
    let cv_file := nth 1 argv [] in
    there <- lift (match path_exists cv_file with
                   | inl text => inl (OSError text)
                   | inr b => inr b
                   end) ;;
    if negb there then
      print (utf8 "❌ File not found: " ++ cv_file)
    else
      try_except
        (r <- lift (read_file cv_file) ;;
         let '(cv_text, encoding) := r in
         print (utf8 "✅ File read successfully using " ++ encoding
                ++ lit " encoding") ;;
         analysis <- lift (match Cvf.analyze_cv_structure cv_text with
                           | inl e => inl (of_exn e)
                           | inr d => inr d
                           end) ;;
         display_analysis analysis cv_file)
        (fun e => print (utf8 "❌ Error reading file: " ++ text_of e)).

End Program.
End Cli.

(** ** The words of the specification *)
Module Spec.
Import Py Re Obj.

(** The number of whitespace-delimited tokens of a text: the positions that
    hold a character which is not whitespace and which stand at the start of
    the text or right after a whitespace character. [after_space] tells
    whether the previous position allows a token to start. *)
Fixpoint token_starts (after_space : bool) (s : str) : nat :=
  match s with
  | [] => O
  | c :: s' =>
      ((if after_space && negb (isspace c) then 1 else 0)
       + token_starts (isspace c) s')%nat
  end.

Definition token_count (s : str) : nat := token_starts true s.

(** A term occurs in the text as a whole word, case-insensitively: the text
    is [before ++ occurrence ++ after], each character of the occurrence
    matches the character of the term at its place under IGNORECASE, and a
    word boundary stands before and after the occurrence. *)
Definition occurs_as_word {U : UnicodeDB} (term cv_text : str) : Prop :=
  exists before occurrence after,
    cv_text = before ++ occurrence ++ after
    /\ Forall2 (fun a c => atom_match true (Literal a) c = true) term occurrence
    /\ at_boundary (last (map Some before) None) (occurrence ++ after) = true
    /\ at_boundary (last (map Some (before ++ occurrence)) None) after = true.

(** What the returned dictionary holds under a key; [None] when the call
    raised or the key is absent. *)
Definition field (result : exn + dict) (key : string) : option value :=
  match result with
  | inr d => lookup (lit key) d
  | inl _ => None
  end.

End Spec.

(** ** Sample texts *)
Module Samples.
Import Py.

(** A text given line by line, the lines separated by a newline. *)
Definition text_of (lines : list string) : str := join [NL] (map lit lines).

(** Two blocks headed "Experience" with a "Skills" block between them. *)
Definition two_blocks : str :=
  text_of ["Experience"; "first job"; "Skills"; "Python"; "Experience";
           "second job"]%string.

Definition my_skills : str := lit "My Skills are strong".

(** The line of [my_skills], padded, inside an open "Skills" section. *)
Definition skills_block : str :=
  text_of ["Skills"; "  My Skills are strong  "; "python, sql"]%string.

Definition contact_line : str := lit "Contact: a@b.com, phone 123-456-7890".

Definition github_only : str := lit "github.com/x".

Definition shouted_skills : str := lit "PYTHON Python maintain".

Definition knows_sql : str := lit "I know SQL, sql and SQLite".

(** An address on a line of its own before the first header. *)
Definition address_first : str :=
  text_of ["a@b.com"; "Skills"; "Python"]%string.

Definition from_header_on : str := text_of ["Skills"; "Python"]%string.

(** The lines of [from_header_on], padded, with a blank line between. *)
Definition padded_block : str :=
  text_of ["  Skills"; "   "; "Python  "]%string.

(** A file with CR LF line ends, and one that is not UTF-8 (the last byte
    is an e acute in Latin-1). *)
Definition cv_bytes : Codec.bytes :=
  list_byte_of_string "Skills" ++ [Byte.x0d; Byte.x0a]
  ++ list_byte_of_string "Python, 5 years" ++ [Byte.x0d; Byte.x0a]
  ++ list_byte_of_string "a@b.com".

Definition latin1_bytes : Codec.bytes :=
  list_byte_of_string "Skills: caf" ++ [Byte.xe9].

Definition ascii_bytes : Codec.bytes := list_byte_of_string "Skills: Python".

(** An output in UTF-8, which has every character but the surrogates, and
    one in Latin-1. *)
Definition utf8_console (c : Z) : bool := Codec.is_scalar c.

Definition latin1_console (c : Z) : bool := (0 <=? c) && (c <? 256).

(** An output that has the characters below U+10000 only. *)
Definition bmp_console (c : Z) : bool := utf8_console c && (c <? 65536).

(** Eleven skills, and the same with another last one. *)
Definition eleven_skills : list str :=
  map lit ["a"; "b"; "c"; "d"; "e"; "f"; "g"; "h"; "i"; "j"; "sql"]%string.

Definition eleven_others : list str :=
  map lit ["a"; "b"; "c"; "d"; "e"; "f"; "g"; "h"; "i"; "j"; "git"]%string.

(** A machine for the command line: "cv.txt", "old.txt" and "plain.txt"
    hold the bytes above, "dir" exists and cannot be opened, the directory
    "locked" may not be searched, nothing else exists. *)
Definition machine (args : list string) (console : Z -> bool) : Cli.Host :=
  {| Cli.argv := map lit args;
     Cli.path_exists := fun p =>
       if str_eqb p (lit "locked/cv.txt")
       then inl (lit "[Errno 13] Permission denied: 'locked/cv.txt'")
       else inr (existsb (str_eqb p)
                   (map lit ["cv.txt"; "old.txt"; "plain.txt"; "dir"]%string));
     Cli.open_read := fun p =>
       if str_eqb p (lit "cv.txt") then inr cv_bytes
       else if str_eqb p (lit "old.txt") then inr latin1_bytes
       else if str_eqb p (lit "plain.txt") then inr ascii_bytes
       else if str_eqb p (lit "dir") then inl (lit "[Errno 21] Is a directory: 'dir'")
       else inl (lit "[Errno 2] No such file or directory");
     Cli.encodable := console;
     Cli.str_container := fun _ => lit "[...]";
     Cli.str_exception := fun _ => lit "...";
     Cli.dict_slice_error := Cli.TypeError |}.

End Samples.

(** ** Notions the further properties are stated with *)
Module Notions.
Import Py Re.

(** [ms] are pieces of [s] that follow one another from left to right
    without overlapping. *)
Fixpoint in_order (ms : list str) (s : str) : Prop :=
  match ms with
  | [] => True
  | m :: ms' => exists before after, s = before ++ m ++ after /\ in_order ms' after
  end.

(** [m] is a piece of [s]. *)
Definition substring (m s : str) : Prop :=
  exists before after, s = before ++ m ++ after.

(** [l1] is [l2] with some elements left out, the order kept. *)
Inductive subseq {A : Type} : list A -> list A -> Prop :=
| subseq_nil : subseq [] []
| subseq_skip x l1 l2 : subseq l1 l2 -> subseq l1 (x :: l2)
| subseq_take x l1 l2 : subseq l1 l2 -> subseq (x :: l1) (x :: l2).

(** A pattern that cannot match without taking a character. [false] is
    always right. *)
Fixpoint consumes (r : regex) : bool :=
  match r with
  | Empty => false
  | Atom _ => true
  | Boundary => false
  | Seq r1 r2 => consumes r1 || consumes r2
  | Alt r1 r2 => consumes r1 && consumes r2
  | Opt _ => false
  | Repeat _ lo _ => match lo with O => false | S _ => true end
  end.

(** A line as the classifier keeps it: not empty, nothing to trim, no line
    boundary inside. *)
Definition tidy (line : str) : Prop :=
  line <> [] /\ strip line = line /\ Forall (fun c => islinebreak c = false) line.

(** What holds of the lines kept under one section of rep.py when [seen]
    are the lines read so far: each is tidy and no header, and together they
    are trimmed lines of [seen], in order. *)
Definition kept_from {U : UnicodeDB} (seen : list str) (ls : list str) : Prop :=
  Forall (fun l => tidy l /\ Rep.header_of l = None) ls
  /\ subseq ls (map strip seen).

(** A Unicode scalar value: a code point that is no surrogate. These are
    the characters UTF-8 can write. *)
Definition scalar_value (c : Z) : Prop :=
  0 <= c < 55296 \/ 57343 < c <= 1114111.

(** The texts a pattern can match, leaving aside what a word boundary asks
    of the characters around it. *)
Fixpoint shape {U : UnicodeDB} (ic : bool) (r : regex) (m : str) : Prop :=
  match r with
  | Empty => m = []
  | Atom a => exists c, m = [c] /\ atom_match ic a c = true
  | Boundary => m = []
  | Seq r1 r2 => exists m1 m2, m = m1 ++ m2 /\ shape ic r1 m1 /\ shape ic r2 m2
  | Alt r1 r2 => shape ic r1 m \/ shape ic r2 m
  | Opt r1 => shape ic r1 m \/ m = []
  | Repeat a lo hi =>
      Forall (fun c => atom_match ic a c = true) m
      /\ (lo <= length m)%nat
      /\ match hi with Some h => (length m <= h)%nat | None => True end
  end.

(** An address as rep.py takes it: a local part, an at sign, a domain, a
    dot and two letters or more, all in ASCII. *)
Definition ascii_letter (c : Z) : bool := between 65 90 c || between 97 122 c.
Definition ascii_digit (c : Z) : bool := between 48 57 c.

Definition local_char (c : Z) : bool :=
  ascii_letter c || ascii_digit c
  || existsb (Z.eqb c) (lit "._%+-").

Definition domain_char (c : Z) : bool :=
  ascii_letter c || ascii_digit c || existsb (Z.eqb c) (lit ".-").

Definition email_form (m : str) : Prop :=
  exists local domain tld,
    m = local ++ lit "@" ++ domain ++ lit "." ++ tld
    /\ local <> [] /\ forallb local_char local = true
    /\ domain <> [] /\ forallb domain_char domain = true
    /\ (2 <= length tld)%nat /\ forallb ascii_letter tld = true.

(** A phone number as rep.py takes it: a plus sign or none, a decimal
    digit, then seven characters or more, each a decimal digit, whitespace
    or a hyphen. *)
Definition phone_form {U : UnicodeDB} (m : str) : Prop :=
  exists sign d rest,
    m = sign ++ [d] ++ rest
    /\ (sign = [] \/ sign = lit "+")
    /\ isdecimal d = true
    /\ (7 <= length rest)%nat
    /\ forallb (fun c => isdecimal c || isspace c || (c =? ord "-")) rest = true.

End Notions.

(** * Properties *)

(** ** Strings *)
Section StrFacts.
Import Py Spec.

Lemma str_eqb_refl (a : str) : str_eqb a a = true.
Proof.
  induction a as [|x a IH]; simpl; [reflexivity|].
  now rewrite Z.eqb_refl, IH.
Qed.

Lemma str_eqb_eq (a b : str) : str_eqb a b = true <-> a = b.
Proof.
  split; [|intros ->; apply str_eqb_refl].
  revert b; induction a as [|x a IH]; intros [|y b]; simpl; try discriminate; auto.
  rewrite andb_true_iff, Z.eqb_eq. intros [-> H]. f_equal. now apply IH.
Qed.

Lemma str_eqb_neq (a b : str) : str_eqb a b = false <-> a <> b.
Proof.
  destruct (str_eqb a b) eqn:E.
  - apply str_eqb_eq in E. split; [discriminate|contradiction].
  - split; [|reflexivity]. intros _ H. apply str_eqb_eq in H. congruence.
Qed.

Lemma str_eqb_sym (a b : str) : str_eqb a b = str_eqb b a.
Proof.
  destruct (str_eqb b a) eqn:E.
  - apply str_eqb_eq in E. subst. apply str_eqb_refl.
  - apply str_eqb_neq in E. apply str_eqb_neq. congruence.
Qed.

Lemma existsb_str_eqb (k : str) (l : list str) :
  existsb (str_eqb k) l = true <-> In k l.
Proof.
  rewrite existsb_exists. split.
  - intros (x & Hx & E). apply str_eqb_eq in E. now subst.
  - intros H. exists k. split; [assumption|apply str_eqb_refl].
Qed.

(** The scan of [split] closes one token per token start, plus the token it
    is reading when it is reading one. *)
Lemma split_scan_length (cur s : str) :
  length (split_scan cur s)
  = (token_starts (match cur with [] => true | _ => false end) s
     + match cur with [] => 0 | _ => 1 end)%nat.
Proof.
  revert cur; induction s as [|c s IH]; intros cur.
  - destruct cur; reflexivity.
  - simpl. destruct (isspace c) eqn:Hc.
    + destruct cur; simpl; rewrite IH; simpl; lia.
    + rewrite IH. destruct cur; simpl; lia.
Qed.

Lemma split_length (s : str) : length (split s) = token_count s.
Proof.
  unfold split, token_count. rewrite split_scan_length. simpl. lia.
Qed.

(** Every token [split] returns is a non-empty run without whitespace. *)
Lemma split_scan_tokens (cur s : str) :
  Forall (fun c => isspace c = false) cur ->
  Forall (fun t => t <> [] /\ Forall (fun c => isspace c = false) t)
         (split_scan cur s).
Proof.
  revert cur; induction s as [|c s IH]; intros cur Hcur; simpl.
  - destruct cur as [|x cur]; constructor; [|constructor].
    split.
    + intros E. apply (f_equal (@length Z)) in E.
      rewrite length_rev in E. discriminate.
    + apply Forall_rev. assumption.
  - destruct (isspace c) eqn:Hc.
    + destruct cur as [|x cur]; [apply IH; constructor|].
      constructor; [|apply IH; constructor].
      split.
      * intros E. apply (f_equal (@length Z)) in E.
        rewrite length_rev in E. discriminate.
      * apply Forall_rev. assumption.
    + apply IH. constructor; assumption.
Qed.

End StrFacts.

(** ** Dictionaries *)
Section DictFacts.
Import Py Obj.
Context {V : Type}.
Implicit Types (d : list (str * V)) (k : str) (v : V).

Lemma lookup_update_same k v d : lookup k (update k v d) = Some v.
Proof.
  induction d as [|[k' v'] d IH]; simpl.
  - now rewrite str_eqb_refl.
  - destruct (str_eqb k k') eqn:E; simpl; rewrite E; [reflexivity|exact IH].
Qed.

Lemma lookup_update_other k k' v d :
  k <> k' -> lookup k (update k' v d) = lookup k d.
Proof.
  intros Hne. induction d as [|[k2 v2] d IH]; simpl.
  - apply str_eqb_neq in Hne. now rewrite Hne.
  - destruct (str_eqb k' k2) eqn:E; simpl.
    + apply str_eqb_eq in E. subst k2.
      apply str_eqb_neq in Hne. now rewrite Hne.
    + now rewrite IH.
Qed.

Lemma lookup_in_keys k d : In k (keys d) <-> exists v, lookup k d = Some v.
Proof.
  induction d as [|[k' v'] d IH]; simpl.
  - split; [contradiction|intros [v H]; discriminate].
  - destruct (str_eqb k k') eqn:E.
    + apply str_eqb_eq in E. subst. split; eauto.
    + apply str_eqb_neq in E. rewrite <- IH. split.
      * intros [H|H]; [congruence|assumption].
      * auto.
Qed.

Lemma lookup_none_keys k d : lookup k d = None <-> ~ In k (keys d).
Proof.
  rewrite lookup_in_keys. destruct (lookup k d) as [v|].
  - split; [discriminate|]. intros H. exfalso. apply H. eauto.
  - split; [|reflexivity]. intros _ [v H]. discriminate.
Qed.

(** Assigning to a key the dictionary has keeps the keys; a new key goes
    last. *)
Lemma keys_update_old k v d : In k (keys d) -> keys (update k v d) = keys d.
Proof.
  induction d as [|[k' v'] d IH]; simpl; [contradiction|].
  intros H. destruct (str_eqb k k') eqn:E; [reflexivity|].
  simpl. f_equal. apply IH. destruct H as [H|H]; [|assumption].
  apply str_eqb_neq in E. congruence.
Qed.

Lemma keys_update_new k v d : ~ In k (keys d) -> keys (update k v d) = keys d ++ [k].
Proof.
  induction d as [|[k' v'] d IH]; simpl; [reflexivity|].
  intros H. destruct (str_eqb k k') eqn:E.
  - apply str_eqb_eq in E. subst. exfalso. auto.
  - simpl. f_equal. apply IH. auto.
Qed.

Lemma in_keys_update k k' v d :
  In k (keys (update k' v d)) <-> k = k' \/ In k (keys d).
Proof.
  destruct (in_dec (list_eq_dec Z.eq_dec) k' (keys d)) as [H|H].
  - rewrite keys_update_old by assumption. split; [auto|].
    intros [->|]; assumption.
  - rewrite keys_update_new by assumption. rewrite in_app_iff. simpl.
    split; [intros [?|[?|[]]]; auto|intros [?|?]; auto].
Qed.

Lemma nodup_keys_update k v d : NoDup (keys d) -> NoDup (keys (update k v d)).
Proof.
  intros Hd. destruct (in_dec (list_eq_dec Z.eq_dec) k (keys d)) as [H|H].
  - now rewrite keys_update_old.
  - rewrite keys_update_new by assumption.
    apply NoDup_app; [assumption|repeat constructor; simpl; tauto|].
    intros x Hx [<-|[]]. contradiction.
Qed.

(** Updating the value at the head of a suffix whose key is not in the
    prefix. *)
Lemma update_middle k v v' (pre suf : list (str * V)) :
  ~ In k (keys pre) ->
  update k v (pre ++ (k, v') :: suf) = pre ++ (k, v) :: suf.
Proof.
  induction pre as [|[k2 v2] pre IH]; simpl; intros H.
  - now rewrite str_eqb_refl.
  - destruct (str_eqb k k2) eqn:E.
    + apply str_eqb_eq in E. subst. exfalso. auto.
    + f_equal. apply IH. auto.
Qed.

Lemma lookup_middle k v (pre suf : list (str * V)) :
  ~ In k (keys pre) -> lookup k (pre ++ (k, v) :: suf) = Some v.
Proof.
  induction pre as [|[k2 v2] pre IH]; simpl; intros H.
  - now rewrite str_eqb_refl.
  - destruct (str_eqb k k2) eqn:E.
    + apply str_eqb_eq in E. subst. exfalso. auto.
    + apply IH. auto.
Qed.

End DictFacts.

Section DictMapFacts.
Import Py Obj.
Context {V W : Type} (f : V -> W).

Lemma lookup_map_values k d :
  lookup k (map_values f d) = option_map f (lookup k d).
Proof.
  induction d as [|[k' v'] d IH]; simpl; [reflexivity|].
  destruct (str_eqb k k'); [reflexivity|exact IH].
Qed.

Lemma update_map_values k v d :
  update k (f v) (map_values f d) = map_values f (update k v d).
Proof.
  induction d as [|[k' v'] d IH]; simpl; [reflexivity|].
  destruct (str_eqb k k'); simpl; [reflexivity|now rewrite IH].
Qed.

Lemma keys_map_values d : keys (map_values f d) = keys d.
Proof.
  unfold keys, map_values. rewrite map_map. reflexivity.
Qed.

End DictMapFacts.

(** ** Statements *)
Section StmtFacts.
Import Py Obj Stmt.
Local Open Scope stmt_scope.

Lemma bind_eq {A B} (m : M A) (f : A -> M B) (d : dict) :
  bind m f d = match m d with
               | inl e => inl e
               | inr (a, d') => f a d'
               end.
Proof. reflexivity. Qed.

Lemma bind_returns {A B} (m : M A) (f : A -> M B) (d d' : dict) (a : A) :
  m d = inr (a, d') -> bind m f d = f a d'.
Proof. intros H. unfold bind. now rewrite H. Qed.

(** A loop whose body extends one list of the dictionary: [D l] is the
    dictionary with [l] as that list. *)
Lemma for_each_extends {X} (D : list value -> dict) (body : X -> M unit)
  (g : X -> list value) :
  (forall x l, body x (D l) = inr (tt, D (l ++ g x))) ->
  forall xs l, for_each xs body (D l) = inr (tt, D (l ++ flat_map g xs)).
Proof.
  intros Hbody xs. induction xs as [|x xs IH]; intros l; simpl.
  - now rewrite app_nil_r.
  - rewrite (bind_returns _ _ _ _ _ (Hbody x l)).
    rewrite IH. now rewrite app_assoc.
Qed.

Lemma flat_map_map_values {X Y Z'} (f : Y -> Z') (g : X -> list Y) (xs : list X) :
  flat_map (fun x => map f (g x)) xs = map f (flat_map g xs).
Proof.
  induction xs as [|x xs IH]; simpl; [reflexivity|].
  now rewrite map_app, IH.
Qed.

Lemma flat_map_filter {X Y} (f : X -> Y) (p : X -> bool) (xs : list X) :
  flat_map (fun x => if p x then [f x] else []) xs = map f (filter p xs).
Proof.
  induction xs as [|x xs IH]; simpl; [reflexivity|].
  destruct (p x); simpl; now rewrite IH.
Qed.

Lemma as_strs_map (l : list str) : as_strs (map VStr l) = Some l.
Proof.
  induction l as [|s l IH]; simpl; [reflexivity|now rewrite IH].
Qed.

Lemma existsb_eq_str (s : str) (l : list str) :
  existsb (eq_str s) (map VStr l) = existsb (str_eqb s) l.
Proof.
  induction l as [|x l IH]; simpl; [reflexivity|now rewrite IH].
Qed.

Lemma truthy_strs (l : list str) :
  truthy (VList (map VStr l)) = match l with [] => false | _ => true end.
Proof. destruct l; reflexivity. Qed.

End StmtFacts.

(** ** rep.py: the statements against the functions of the text *)
Section RepFacts.
Import Py Re Obj Stmt Rep.
Local Open Scope stmt_scope.
Context {U : UnicodeDB}.

Lemma header_of_strip (line : str) (section : str) :
  header_of line = Some section ->
  strip line <> [] /\ first_fullmatch section_patterns (strip line) = Some section.
Proof.
  unfold header_of. destruct (strip line); [discriminate|].
  intros H. split; [discriminate|exact H].
Qed.

Lemma classify_line_opened (st : sections) (line : str) :
  opened st -> opened (classify_line st line).
Proof.
  unfold opened, classify_line. intros H.
  destruct (header_of line) as [section|]; simpl.
  - apply in_keys_update. now left.
  - destruct (strip line) as [|z stripped]; [exact H|].
    destruct (current st) as [[|c cs]|] eqn:Hcur; try (rewrite Hcur; exact H).
    destruct (lookup (c :: cs) (content st)) eqn:Hl; simpl.
    + apply in_keys_update. now left.
    + rewrite Hcur. exact H.
Qed.

Lemma classify_opened (lines : list str) (st : sections) :
  opened st -> opened (fold_left classify_line lines st).
Proof.
  revert st; induction lines as [|l lines IH]; intros st H; simpl; [exact H|].
  apply IH, classify_line_opened, H.
Qed.

Section Steps.
Variables (c w : Z) (sk ex ed co iss : list value).

Lemma append_found x f ct :
  append (lit "sections_found") x (rep_dict c w f ct sk ex ed co iss)
  = inr (tt, rep_dict c w (f ++ [x]) ct sk ex ed co iss).
Proof. reflexivity. Qed.

Lemma setitem2_content k v f ct :
  setitem2 (lit "sections_content") k v (rep_dict c w f ct sk ex ed co iss)
  = inr (tt, rep_dict c w f (update k v ct) sk ex ed co iss).
Proof. reflexivity. Qed.

Lemma getitem2_content k f ct :
  getitem2 (lit "sections_content") k (rep_dict c w f ct sk ex ed co iss)
  = match lookup k ct with
    | Some v => inr (v, rep_dict c w f ct sk ex ed co iss)
    | None => inl (KeyError k)
    end.
Proof.
  unfold getitem2. rewrite bind_eq. 
  change (getitem (lit "sections_content") (rep_dict c w f ct sk ex ed co iss))
    with (@inr exn _ (VDict ct, rep_dict c w f ct sk ex ed co iss)).
  cbv beta iota. unfold subscript. destruct (lookup k ct); reflexivity.
Qed.

Lemma append2_content k x l f ct :
  lookup k ct = Some (VList l) ->
  append2 (lit "sections_content") k x (rep_dict c w f ct sk ex ed co iss)
  = inr (tt, rep_dict c w f (update k (VList (l ++ [x])) ct) sk ex ed co iss).
Proof.
  intros H. unfold append2. rewrite bind_eq, getitem2_content, H.
  cbv beta iota. rewrite bind_eq. unfold list_append at 1. unfold ret at 1.
  cbv beta iota. apply setitem2_content.
Qed.

(** One turn of the loop over the lines. *)
Lemma scan_line_classify (st : sections) (line : str) :
  opened st ->
  scan_line (current st) line
    (rep_dict c w (map VStr (found st)) (collected (content st)) sk ex ed co iss)
  = let st' := classify_line st line in
    inr (current st',
         rep_dict c w (map VStr (found st')) (collected (content st')) sk ex ed co iss).
Proof.
  intros Hop. unfold scan_line, classify_line, header_of.
  destruct (strip line) as [|z stripped] eqn:Hs; [reflexivity|].
  destruct (first_fullmatch section_patterns (z :: stripped)) as [section|] eqn:Hm.
  - rewrite bind_eq, append_found. cbv beta iota.
    rewrite bind_eq, setitem2_content. cbv beta iota zeta. simpl found. simpl content.
    simpl current. unfold ret, collected.
    rewrite map_app. change (VList []) with (strs []).
    rewrite (update_map_values strs). reflexivity.
  - destruct (current st) as [[|k0 ks]|] eqn:Hcur;
      try (cbv zeta; rewrite Hcur; reflexivity).
    unfold opened in Hop. rewrite Hcur in Hop.
    apply lookup_in_keys in Hop. destruct Hop as [ls Hls]. rewrite Hls.
    rewrite bind_eq.
    rewrite (append2_content _ _ (map VStr ls)).
    + cbv beta iota zeta. simpl. unfold ret, collected.
      rewrite <- (update_map_values strs). unfold strs.
      rewrite map_app. reflexivity.
    + unfold collected. rewrite lookup_map_values, Hls. reflexivity.
Qed.

Lemma scan_lines_classify (lines : list str) (st : sections) :
  opened st ->
  for_fold lines scan_line (current st)
    (rep_dict c w (map VStr (found st)) (collected (content st)) sk ex ed co iss)
  = let st' := fold_left classify_line lines st in
    inr (current st',
         rep_dict c w (map VStr (found st')) (collected (content st')) sk ex ed co iss).
Proof.
  revert st; induction lines as [|l lines IH]; intros st Hop; [reflexivity|].
  simpl for_fold. rewrite bind_eq, scan_line_classify by assumption.
  cbv beta iota zeta. rewrite IH by (apply classify_line_opened; assumption).
  reflexivity.
Qed.

Lemma classify_line_nodup (st : sections) (line : str) :
  NoDup (keys (content st)) -> NoDup (keys (content (classify_line st line))).
Proof.
  unfold classify_line. intros H.
  destruct (header_of line) as [section|]; simpl.
  - now apply nodup_keys_update.
  - destruct (strip line) as [|z stripped]; [exact H|].
    destruct (current st) as [[|k0 ks]|]; try exact H.
    destruct (lookup (k0 :: ks) (content st)); simpl; [|exact H].
    now apply nodup_keys_update.
Qed.

Lemma classify_nodup (lines : list str) (st : sections) :
  NoDup (keys (content st)) ->
  NoDup (keys (content (fold_left classify_line lines st))).
Proof.
  revert st; induction lines as [|l lines IH]; intros st H; simpl; [exact H|].
  apply IH, classify_line_nodup, H.
Qed.

(** The loop that joins the lines of each section: the sections before
    the current one are joined already, the others still hold their lines. *)
Lemma join_loop (suf pre : list (str * list str)) f :
  NoDup (keys (pre ++ suf)) ->
  for_each (keys suf)
    (fun section =>
       v <- getitem2 (lit "sections_content") section ;;
       joined <- str_join [NL] v ;;
       setitem2 (lit "sections_content") section joined)
    (rep_dict c w f (joined pre ++ collected suf) sk ex ed co iss)
  = inr (tt, rep_dict c w f (joined (pre ++ suf)) sk ex ed co iss).
Proof.
  revert pre; induction suf as [|[k ls] suf IH]; intros pre Hnd.
  - simpl. now rewrite !app_nil_r.
  - assert (Hk : ~ In k (keys (joined pre))).
    { unfold joined. rewrite keys_map_values.
      unfold keys in *. rewrite map_app in Hnd. simpl in Hnd.
      apply NoDup_remove_2 in Hnd. rewrite in_app_iff in Hnd. tauto. }
    simpl for_each. rewrite bind_eq, bind_eq, getitem2_content.
    change (collected ((k, ls) :: suf)) with ((k, strs ls) :: collected suf).
    rewrite (lookup_middle k (strs ls) _ _ Hk). cbv beta iota.
    rewrite bind_eq. unfold str_join, strs. rewrite as_strs_map.
    unfold ret at 1. cbv beta iota. rewrite setitem2_content.
    cbv beta iota. rewrite (update_middle k _ _ _ _ Hk).
    specialize (IH (pre ++ [(k, ls)])).
    rewrite <- app_assoc in IH. simpl in IH. rewrite <- IH by assumption.
    unfold joined, map_values. rewrite map_app, <- app_assoc. reflexivity.
Qed.

Lemma join_sections_joined (ct : list (str * list str)) f :
  NoDup (keys ct) ->
  join_sections (rep_dict c w f (collected ct) sk ex ed co iss)
  = inr (tt, rep_dict c w f (joined ct) sk ex ed co iss).
Proof.
  intros Hnd. unfold join_sections. rewrite bind_eq.
  change (getitem (lit "sections_content") (rep_dict c w f (collected ct) sk ex ed co iss))
    with (@inr exn _ (VDict (collected ct), rep_dict c w f (collected ct) sk ex ed co iss)).
  cbv beta iota. rewrite bind_eq. unfold iter_keys, ret at 1. cbv beta iota.
  unfold collected at 1. rewrite keys_map_values.
  apply (join_loop ct []). exact Hnd.
Qed.

End Steps.

Lemma extend_contact c w f ct sk ex ed co iss xs :
  extend (lit "contact_info") xs (rep_dict c w f ct sk ex ed co iss)
  = inr (tt, rep_dict c w f ct sk ex ed (co ++ xs) iss).
Proof. reflexivity. Qed.

Lemma extend_education c w f ct sk ex ed co iss xs :
  extend (lit "education_indicators") xs (rep_dict c w f ct sk ex ed co iss)
  = inr (tt, rep_dict c w f ct sk ex (ed ++ xs) co iss).
Proof. reflexivity. Qed.

Lemma extend_experience c w f ct sk ex ed co iss xs :
  extend (lit "experience_indicators") xs (rep_dict c w f ct sk ex ed co iss)
  = inr (tt, rep_dict c w f ct sk (ex ++ xs) ed co iss).
Proof. reflexivity. Qed.

Lemma append_skill c w f ct sk ex ed co iss (b : bool) x :
  when b (append (lit "skills_indicators") x) (rep_dict c w f ct sk ex ed co iss)
  = inr (tt, rep_dict c w f ct (sk ++ if b then [x] else []) ex ed co iss).
Proof. destruct b; [reflexivity|]. simpl. now rewrite app_nil_r. Qed.

Lemma append_issue c w f ct sk ex ed co iss (b : bool) x :
  when b (append (lit "potential_issues") x) (rep_dict c w f ct sk ex ed co iss)
  = inr (tt, rep_dict c w f ct sk ex ed co (iss ++ if b then [x] else [])).
Proof. destruct b; [reflexivity|]. simpl. now rewrite app_nil_r. Qed.

Lemma getitem_found c w f ct sk ex ed co iss :
  getitem (lit "sections_found") (rep_dict c w f ct sk ex ed co iss)
  = inr (VList f, rep_dict c w f ct sk ex ed co iss).
Proof. reflexivity. Qed.

Lemma getitem_contact c w f ct sk ex ed co iss :
  getitem (lit "contact_info") (rep_dict c w f ct sk ex ed co iss)
  = inr (VList co, rep_dict c w f ct sk ex ed co iss).
Proof. reflexivity. Qed.

(** [analyze_cv] never raises, and returns the dictionary [analysis_of]
    describes. *)
Theorem analyze_cv_returns (cv_text : str) :
  analyze_cv cv_text = inr (analysis_of cv_text).
Proof.
  unfold analyze_cv, returning.
  change [ (lit "total_chars", VInt (len cv_text));
           (lit "total_words", VInt (len (split cv_text)));
           (lit "sections_found", VList []);
           (lit "sections_content", VDict []);
           (lit "skills_indicators", VList []);
           (lit "experience_indicators", VList []);
           (lit "education_indicators", VList []);
           (lit "contact_info", VList []);
           (lit "potential_issues", VList []) ]
    with (rep_dict (len cv_text) (len (split cv_text))
            (map VStr (found no_sections)) (collected (content no_sections))
            [] [] [] [] []).
  cbv zeta.
  (* the loop over the lines *)
  rewrite bind_eq.
  rewrite (scan_lines_classify _ _ _ _ _ _ _ (splitlines cv_text) no_sections)
    by exact I.
  cbv zeta beta iota. fold (classify (splitlines cv_text)).
  set (st := classify (splitlines cv_text)).
  (* the join *)
  rewrite bind_eq, join_sections_joined
    by (apply classify_nodup; constructor).
  cbv beta iota.
  (* contact, education, experience, skills *)
  rewrite bind_eq, extend_contact. cbv beta iota.
  rewrite bind_eq.
  rewrite (for_each_extends
             (fun l => rep_dict _ _ _ _ _ _ l _ _) _
             (fun pat => map VStr (findall pat cv_text true)))
    by (intros; apply extend_education).
  cbv beta iota.
  rewrite bind_eq.
  rewrite (for_each_extends
             (fun l => rep_dict _ _ _ _ _ l _ _ _) _
             (fun pat => map VStr (findall pat cv_text true)))
    by (intros; apply extend_experience).
  cbv beta iota.
  rewrite bind_eq.
  rewrite (for_each_extends
             (fun l => rep_dict _ _ _ _ l _ _ _ _) _
             (fun skill => if has_skill cv_text skill then [VStr skill] else []))
    by (intros; apply append_skill).
  cbv beta iota.
  rewrite !flat_map_map_values, flat_map_filter. rewrite !app_nil_l.
  (* the three checks *)
  rewrite bind_eq, bind_eq, getitem_found. cbv beta iota.
  rewrite bind_eq. unfold contains at 1, ret at 1. cbv beta iota.
  rewrite append_issue. cbv beta iota.
  rewrite bind_eq, bind_eq, getitem_found. cbv beta iota.
  rewrite bind_eq. unfold contains at 1, ret at 1. cbv beta iota.
  rewrite append_issue. cbv beta iota.
  rewrite bind_eq, getitem_contact. cbv beta iota.
  rewrite append_issue.
  unfold analysis_of. fold st. cbv zeta.
  rewrite !existsb_eq_str, truthy_strs.
  do 2 f_equal. unfold issues, emails, phones.
  destruct (existsb (str_eqb (lit "Experience")) (found st));
    destruct (existsb (str_eqb (lit "Education")) (found st));
    destruct (findall email_pattern cv_text false ++ findall phone_pattern cv_text false);
    reflexivity.
Qed.

End RepFacts.

(** ** cvf.py: the statements against the functions of the text *)
Section CvfFacts.
Import Py Re Obj Stmt Cvf.
Local Open Scope stmt_scope.
Context {U : UnicodeDB}.

Section Steps.
Variables (c w : Z) (f sk ex ed co iss : list value) (n : Z).

Lemma cvf_append_found (b : bool) x :
  when b (append (lit "sections_found") x) (cvf_dict c w f sk ex ed co iss n)
  = inr (tt, cvf_dict c w (f ++ if b then [x] else []) sk ex ed co iss n).
Proof. destruct b; [reflexivity|]. simpl. now rewrite app_nil_r. Qed.

Lemma cvf_extend_skills (matches : list str) :
  when (any_match matches) (extend (lit "skills_indicators") (map VStr matches))
    (cvf_dict c w f sk ex ed co iss n)
  = inr (tt, cvf_dict c w f (sk ++ map VStr matches) ex ed co iss n).
Proof. destruct matches; [|reflexivity]. simpl. now rewrite app_nil_r. Qed.

Lemma cvf_extend_experience xs :
  extend (lit "experience_indicators") xs (cvf_dict c w f sk ex ed co iss n)
  = inr (tt, cvf_dict c w f sk (ex ++ xs) ed co iss n).
Proof. reflexivity. Qed.

Lemma cvf_extend_education xs :
  extend (lit "education_indicators") xs (cvf_dict c w f sk ex ed co iss n)
  = inr (tt, cvf_dict c w f sk ex (ed ++ xs) co iss n).
Proof. reflexivity. Qed.

Lemma cvf_extend_contact xs :
  extend (lit "contact_info") xs (cvf_dict c w f sk ex ed co iss n)
  = inr (tt, cvf_dict c w f sk ex ed (co ++ xs) iss n).
Proof. reflexivity. Qed.

Lemma cvf_append_issue (b : bool) x :
  when b (append (lit "potential_issues") x) (cvf_dict c w f sk ex ed co iss n)
  = inr (tt, cvf_dict c w f sk ex ed co (iss ++ if b then [x] else []) n).
Proof. destruct b; [reflexivity|]. simpl. now rewrite app_nil_r. Qed.

Lemma cvf_getitem_chars :
  getitem (lit "total_chars") (cvf_dict c w f sk ex ed co iss n)
  = inr (VInt c, cvf_dict c w f sk ex ed co iss n).
Proof. reflexivity. Qed.

Lemma cvf_getitem_found :
  getitem (lit "sections_found") (cvf_dict c w f sk ex ed co iss n)
  = inr (VList f, cvf_dict c w f sk ex ed co iss n).
Proof. reflexivity. Qed.

Lemma cvf_getitem_skills :
  getitem (lit "skills_indicators") (cvf_dict c w f sk ex ed co iss n)
  = inr (VList sk, cvf_dict c w f sk ex ed co iss n).
Proof. reflexivity. Qed.

Lemma cvf_getitem_experience :
  getitem (lit "experience_indicators") (cvf_dict c w f sk ex ed co iss n)
  = inr (VList ex, cvf_dict c w f sk ex ed co iss n).
Proof. reflexivity. Qed.

Lemma cvf_setitem_skills v :
  setitem (lit "skills_indicators") (VList v) (cvf_dict c w f sk ex ed co iss n)
  = inr (tt, cvf_dict c w f v ex ed co iss n).
Proof. reflexivity. Qed.

End Steps.

Lemma sections_found_flat_map (cv_text : str) :
  flat_map (fun sp : str * pattern =>
              if any_match (findall (snd sp) cv_text false)
              then [VStr (fst sp)] else [])
           section_patterns
  = map VStr (sections_found cv_text).
Proof.
  unfold sections_found. rewrite map_map.
  apply (flat_map_filter (fun sp : str * pattern => VStr (fst sp))).
Qed.

(** [analyze_cv_structure] never raises, and returns the dictionary
    [analysis_of] describes. *)
Theorem analyze_cv_structure_returns (cv_text : str) :
  analyze_cv_structure cv_text = inr (analysis_of cv_text).
Proof.
  unfold analyze_cv_structure, returning. cbv zeta.
  rewrite bind_eq.
  change (setitem (lit "total_lines") (VInt (len (split_on NL cv_text))) _)
    with (@inr exn _ (tt, cvf_dict (len cv_text) (len (split cv_text))
                            [] [] [] [] [] [] (len (split_on NL cv_text)))).
  cbv beta iota.
  (* the section headers *)
  rewrite bind_eq.
  rewrite (for_each_extends
             (fun l => cvf_dict _ _ l _ _ _ _ _ _) _
             (fun sp : str * pattern =>
                if any_match (findall (snd sp) cv_text false)
                then [VStr (fst sp)] else []))
    by (intros [section pat] l; apply cvf_append_found).
  cbv beta iota. rewrite sections_found_flat_map, app_nil_l.
  (* the skills and their deduplication *)
  rewrite bind_eq.
  rewrite (for_each_extends
             (fun l => cvf_dict _ _ _ l _ _ _ _ _) _
             (fun pat => map VStr (findall pat cv_text true)))
    by (intros; apply cvf_extend_skills).
  cbv beta iota. rewrite flat_map_map_values, app_nil_l.
  rewrite bind_eq, bind_eq, cvf_getitem_skills. cbv beta iota.
  rewrite bind_eq. unfold list_set at 1. rewrite as_strs_map.
  unfold ret at 1, strs. cbv beta iota. rewrite cvf_setitem_skills.
  cbv beta iota.
  (* experience, education, contact *)
  rewrite bind_eq.
  rewrite (for_each_extends
             (fun l => cvf_dict _ _ _ _ l _ _ _ _) _
             (fun pat => map VStr (findall pat cv_text true)))
    by (intros; apply cvf_extend_experience).
  cbv beta iota. rewrite flat_map_map_values, app_nil_l.
  rewrite bind_eq.
  rewrite (for_each_extends
             (fun l => cvf_dict _ _ _ _ _ l _ _ _) _
             (fun pat => map VStr (findall pat cv_text true)))
    by (intros; apply cvf_extend_education).
  cbv beta iota. rewrite flat_map_map_values, app_nil_l.
  rewrite bind_eq.
  rewrite (for_each_extends
             (fun l => cvf_dict _ _ _ _ _ _ l _ _) _
             (fun pat => map VStr (findall pat cv_text true)))
    by (intros; apply cvf_extend_contact).
  cbv beta iota. rewrite flat_map_map_values, app_nil_l.
  (* the checks *)
  rewrite bind_eq, bind_eq, cvf_getitem_chars. cbv beta iota.
  rewrite bind_eq. unfold int_lt at 1, ret at 1. cbv beta iota.
  rewrite cvf_append_issue. cbv beta iota.
  rewrite bind_eq, bind_eq, cvf_getitem_chars. cbv beta iota.
  rewrite bind_eq. unfold int_gt at 1, ret at 1. cbv beta iota.
  rewrite cvf_append_issue. cbv beta iota.
  rewrite bind_eq, bind_eq, cvf_getitem_skills. cbv beta iota.
  rewrite cvf_append_issue. cbv beta iota.
  rewrite bind_eq, bind_eq, cvf_getitem_experience. cbv beta iota.
  rewrite cvf_append_issue. cbv beta iota.
  rewrite bind_eq, cvf_getitem_found. cbv beta iota.
  rewrite bind_eq. unfold contains at 1, ret at 1. cbv beta iota.
  rewrite bind_eq, cvf_getitem_found. cbv beta iota.
  rewrite bind_eq. unfold contains at 1, ret at 1. cbv beta iota.
  rewrite cvf_append_issue.
  unfold analysis_of. cbv zeta.
  rewrite !existsb_eq_str, !truthy_strs.
  fold (all_matches skill_patterns cv_text). fold (skills cv_text).
  fold (all_matches exp_patterns cv_text).
  fold (all_matches edu_patterns cv_text).
  fold (all_matches contact_patterns cv_text).
  do 2 f_equal. unfold issues.
  destruct (len cv_text <? 500); destruct (10000 <? len cv_text);
    destruct (skills cv_text); destruct (all_matches exp_patterns cv_text);
    destruct (negb (existsb (str_eqb (lit "Experience")) (sections_found cv_text))
              && negb (existsb (str_eqb (lit "Skills")) (sections_found cv_text)));
    reflexivity.
Qed.

End CvfFacts.

(** ** rep.py: the section classifier *)
Section SectionFacts.
Import Py Re Obj Rep.
Context {U : UnicodeDB}.

Lemma headers_app (l1 l2 : list str) : headers (l1 ++ l2) = headers l1 ++ headers l2.
Proof. unfold headers. apply flat_map_app. Qed.

Lemma headers_none (lines : list str) :
  Forall (fun l => header_of l = None) lines -> headers lines = [].
Proof.
  induction 1 as [|l lines Hl _ IH]; [reflexivity|].
  unfold headers in *. simpl. now rewrite Hl, IH.
Qed.

Lemma classify_line_found (st : sections) (line : str) :
  found (classify_line st line) = found st ++ headers [line].
Proof.
  unfold classify_line, headers. simpl.
  destruct (header_of line) as [section|]; simpl; [reflexivity|].
  rewrite app_nil_r.
  destruct (strip line); [reflexivity|].
  destruct (current st) as [[|k ks]|]; try reflexivity.
  destruct (lookup (k :: ks) (content st)); reflexivity.
Qed.

Lemma fold_found (lines : list str) (st : sections) :
  found (fold_left classify_line lines st) = found st ++ headers lines.
Proof.
  revert st; induction lines as [|l lines IH]; intros st; simpl.
  - now rewrite app_nil_r.
  - rewrite IH, classify_line_found, <- app_assoc.
    now rewrite <- headers_app.
Qed.

(** [sections_found] lists the sections of the header lines, one entry per
    header line, in the order of the lines. *)
Lemma classify_found (lines : list str) : found (classify lines) = headers lines.
Proof. unfold classify. now rewrite fold_found. Qed.

(** A line is a header exactly when, trimmed, it is not empty and one of
    the three patterns matches the whole of it. *)
Lemma first_fullmatch_some (ps : list (str * pattern)) (stripped : str) :
  (exists section, first_fullmatch ps stripped = Some section)
  <-> exists section p, In (section, p) ps /\ fullmatch p stripped true = true.
Proof.
  induction ps as [|[s p] ps IH]; simpl.
  - split; [intros [? H]; discriminate|intros (? & ? & [] & _)].
  - destruct (fullmatch p stripped true) eqn:E.
    + split; [intros _; exists s, p; auto|intros _; eauto].
    + rewrite IH. split.
      * intros (s' & p' & Hin & Hm). exists s', p'. auto.
      * intros (s' & p' & [Heq|Hin] & Hm); [|eauto].
        injection Heq as <- <-. congruence.
Qed.

Lemma header_of_fullmatch (line : str) :
  (exists section, header_of line = Some section)
  <-> strip line <> []
      /\ exists section p,
           In (section, p) section_patterns /\ fullmatch p (strip line) true = true.
Proof.
  unfold header_of. destruct (strip line) as [|z s] eqn:E.
  - split; [intros [? H]; discriminate|intros [H _]; congruence].
  - rewrite first_fullmatch_some. split; [intros H; split; [discriminate|exact H]|tauto].
Qed.

Lemma first_fullmatch_in (ps : list (str * pattern)) (stripped section : str) :
  first_fullmatch ps stripped = Some section -> In section (map fst ps).
Proof.
  induction ps as [|[s p] ps IH]; simpl; [discriminate|].
  destruct (fullmatch p stripped true).
  - intros [= ->]. now left.
  - intros H. right. now apply IH.
Qed.

(** A section name is never the empty string. *)
Lemma header_of_named (line section : str) :
  header_of line = Some section -> exists c cs, section = c :: cs.
Proof.
  unfold header_of. destruct (strip line); [discriminate|].
  intros H. apply first_fullmatch_in in H. simpl in H.
  destruct H as [<-|[<-|[<-|[]]]]; vm_compute; eauto.
Qed.

(** The keys of [sections_content] are the names in [sections_found]. *)
Lemma classify_line_keys (st : sections) (line : str) :
  (forall k, In k (keys (content st)) <-> In k (found st)) ->
  forall k, In k (keys (content (classify_line st line)))
            <-> In k (found (classify_line st line)).
Proof.
  intros H k. unfold classify_line.
  destruct (header_of line) as [section|]; simpl.
  - rewrite in_keys_update, in_app_iff, H. simpl. intuition congruence.
  - destruct (strip line); [apply H|].
    destruct (current st) as [[|k0 ks]|]; try apply H.
    destruct (lookup (k0 :: ks) (content st)) eqn:Hl; simpl; [|apply H].
    rewrite in_keys_update, <- H. split; [|auto].
    intros [->|Hin]; [|assumption].
    apply lookup_in_keys. eauto.
Qed.

Lemma fold_keys (lines : list str) (st : sections) :
  (forall k, In k (keys (content st)) <-> In k (found st)) ->
  forall k, In k (keys (content (fold_left classify_line lines st)))
            <-> In k (found (fold_left classify_line lines st)).
Proof.
  revert st; induction lines as [|l lines IH]; intros st H; simpl; [exact H|].
  apply IH, classify_line_keys, H.
Qed.

Lemma classify_keys (lines : list str) (k : str) :
  In k (keys (content (classify lines))) <-> In k (found (classify lines)).
Proof. apply fold_keys. simpl. tauto. Qed.

(** Before the first header no section is open and a line changes nothing. *)
Lemma fold_no_header (lines : list str) (st : sections) :
  Forall (fun l => header_of l = None) lines ->
  current st = None ->
  fold_left classify_line lines st = st.
Proof.
  intros H; revert st; induction H as [|l lines Hl _ IH]; intros st Hc; simpl.
  - reflexivity.
  - assert (E : classify_line st l = st).
    { unfold classify_line. rewrite Hl, Hc. now destruct (strip l). }
    rewrite E. now apply IH.
Qed.

(** From a header on, the lines up to the next header are collected under
    the section the header opened. *)
Lemma classify_header (st : sections) (line section : str) :
  header_of line = Some section ->
  current (classify_line st line) = Some section
  /\ lookup section (content (classify_line st line)) = Some [].
Proof.
  intros H. unfold classify_line. rewrite H. simpl.
  split; [reflexivity|apply lookup_update_same].
Qed.

Lemma fold_body (body : list str) (st : sections) (section : str) (ls : list str) :
  Forall (fun l => header_of l = None) body ->
  current st = Some section ->
  section <> [] ->
  lookup section (content st) = Some ls ->
  let st' := fold_left classify_line body st in
  current st' = Some section
  /\ lookup section (content st') = Some (ls ++ body_lines body).
Proof.
  intros H; revert st ls; induction H as [|l body Hl _ IH]; intros st ls Hc Hne Hls.
  - simpl. rewrite app_nil_r. auto.
  - simpl fold_left. unfold body_lines. simpl map.
    assert (E : exists ls',
               current (classify_line st l) = Some section
               /\ lookup section (content (classify_line st l)) = Some ls'
               /\ ls' ++ body_lines body
                  = ls ++ filter (fun s => match s with [] => false | _ => true end)
                                 (strip l :: map strip body)).
    { unfold classify_line. rewrite Hl, Hc.
      destruct (strip l) as [|z stripped] eqn:Hs.
      - exists ls. simpl. auto.
      - destruct section as [|c cs]; [congruence|].
        rewrite Hls. simpl. exists (ls ++ [z :: stripped]).
        split; [reflexivity|]. split; [apply lookup_update_same|].
        now rewrite <- app_assoc. }
    destruct E as (ls' & Hc' & Hls' & Heq).
    destruct (IH _ _ Hc' Hne Hls') as [H1 H2].
    cbv zeta. split; [exact H1|]. rewrite H2. f_equal. exact Heq.
Qed.

(** While other sections are open, a section keeps what it holds. *)
Lemma fold_other (post : list str) (st : sections) (section : str) :
  Forall (fun l => header_of l <> Some section) post ->
  current st <> Some section ->
  lookup section (content (fold_left classify_line post st))
  = lookup section (content st).
Proof.
  intros H; revert st; induction H as [|l post Hl _ IH]; intros st Hc; simpl.
  - reflexivity.
  - assert (E : current (classify_line st l) <> Some section
                /\ lookup section (content (classify_line st l))
                   = lookup section (content st)).
    { unfold classify_line.
      destruct (header_of l) as [s'|] eqn:Hh; simpl.
      - split; [congruence|]. apply lookup_update_other. congruence.
      - destruct (strip l); [auto|].
        destruct (current st) as [[|k ks]|] eqn:Hcur;
          try (rewrite Hcur; split; [assumption|reflexivity]).
        destruct (lookup (k :: ks) (content st)); simpl;
          [|rewrite Hcur; split; [assumption|reflexivity]].
        split; [assumption|]. apply lookup_update_other. congruence. }
    destruct E as [Hc' Hl']. rewrite IH by assumption. exact Hl'.
Qed.

(** The block a section's last header opens is what the section holds at
    the end: a header restarts the section's list. *)
Lemma classify_last_block (pre : list str) (h : str) (body post : list str)
  (section : str) :
  header_of h = Some section ->
  Forall (fun l => header_of l = None) body ->
  Forall (fun l => header_of l <> Some section) post ->
  post = [] \/ (exists s', header_of (hd [] post) = Some s') ->
  lookup section (content (classify (pre ++ h :: body ++ post)))
  = Some (body_lines body).
Proof.
  intros Hh Hbody Hpost Hend. unfold classify.
  rewrite fold_left_app. simpl fold_left. rewrite fold_left_app.
  set (st0 := fold_left classify_line pre no_sections).
  destruct (classify_header st0 h section Hh) as [Hc Hl].
  destruct (header_of_named _ _ Hh) as (c & cs & Hname).
  assert (Hne : section <> []) by (rewrite Hname; discriminate).
  destruct (fold_body body _ section [] Hbody Hc Hne Hl) as [Hc1 Hl1].
  simpl in Hl1.
  set (st1 := fold_left classify_line body (classify_line st0 h)) in *.
  destruct Hend as [->|[s' Hs']]; [exact Hl1|].
  destruct post as [|h' post]; [simpl in Hs'; unfold header_of in Hs'; simpl in Hs'; discriminate|].
  simpl in Hs'. simpl fold_left.
  inversion Hpost as [|? ? Hh' Hpost']; subst.
  rewrite fold_other; [| assumption |].
  - unfold classify_line. rewrite Hs'. simpl.
    rewrite lookup_update_other by congruence. exact Hl1.
  - unfold classify_line. rewrite Hs'. simpl. congruence.
Qed.

(** While no header of [section] is read, the section only gains lines. *)
Lemma fold_grows (lines : list str) (st : sections) (section : str) (ls : list str) :
  Forall (fun l => header_of l <> Some section) lines ->
  lookup section (content st) = Some ls ->
  exists ls', lookup section (content (fold_left classify_line lines st))
              = Some (ls ++ ls').
Proof.
  intros H; revert st ls; induction H as [|l lines Hh _ IH]; intros st ls Hl.
  - exists []. simpl. now rewrite app_nil_r.
  - simpl.
    assert (E : exists ls1, lookup section (content (classify_line st l))
                            = Some (ls ++ ls1)).
    { unfold classify_line. destruct (header_of l) as [s'|] eqn:Hs'; simpl.
      - exists []. rewrite app_nil_r.
        rewrite lookup_update_other by congruence. exact Hl.
      - destruct (strip l) as [|z stripped]; [exists []; now rewrite app_nil_r|].
        destruct (current st) as [[|k ks]|]; try (exists []; now rewrite app_nil_r).
        destruct (lookup (k :: ks) (content st)) as [lk|] eqn:Hk; simpl;
          [|exists []; now rewrite app_nil_r].
        destruct (list_eq_dec Z.eq_dec section (k :: ks)) as [->|Hne].
        + rewrite lookup_update_same. rewrite Hl in Hk. injection Hk as <-.
          eauto.
        + exists []. rewrite app_nil_r, lookup_update_other by assumption.
          exact Hl. }
    destruct E as [ls1 E]. destruct (IH _ _ E) as [ls2 E2].
    exists (ls1 ++ ls2). rewrite E2. now rewrite app_assoc.
Qed.

(** A line that is not a header, read while [section] is open, is among the
    lines the section holds at the end unless [section] is opened again. *)
Lemma classify_keeps_line (pre : list str) (line : str) (post : list str)
  (section : str) :
  current (classify pre) = Some section ->
  header_of line = None ->
  strip line <> [] ->
  Forall (fun l => header_of l <> Some section) post ->
  exists ls,
    lookup section (content (classify (pre ++ line :: post))) = Some ls
    /\ In (strip line) ls.
Proof.
  intros Hc Hh Hs Hpost.
  assert (Hop : opened (classify pre)) by (apply classify_opened; exact I).
  unfold opened in Hop. rewrite Hc in Hop.
  apply lookup_in_keys in Hop. destruct Hop as [ls0 Hls0].
  assert (Hin : In section (found (classify pre))).
  { apply classify_keys, lookup_in_keys. eauto. }
  rewrite classify_found in Hin.
  assert (Hne : exists c cs, section = c :: cs).
  { unfold headers in Hin. apply in_flat_map in Hin.
    destruct Hin as (l & _ & Hl). destruct (header_of l) eqn:E; [|contradiction].
    destruct Hl as [<-|[]]. eapply header_of_named, E. }
  destruct Hne as (c & cs & Hname).
  unfold classify in *. rewrite fold_left_app. simpl fold_left.
  set (st0 := fold_left classify_line pre no_sections) in *.
  assert (E : lookup section (content (classify_line st0 line))
              = Some (ls0 ++ [strip line])).
  { unfold classify_line. rewrite Hh, Hc.
    destruct (strip line) as [|z stripped]; [congruence|].
    rewrite Hname in *. rewrite Hls0. simpl. apply lookup_update_same. }
  destruct (fold_grows post _ section _ Hpost E) as [ls' E'].
  exists ((ls0 ++ [strip line]) ++ ls'). split; [exact E'|].
  rewrite !in_app_iff. left. right. now left.
Qed.

End SectionFacts.

(** ** Matching a whole word *)
Section WordFacts.
Import Py Re Obj Rep Spec.
Context {U : UnicodeDB}.

Lemma run_chars {A} (ic : bool) (w : str) (prev : option Z) (s : str)
  (k : option Z -> str -> option A) :
  run ic (chars w) prev s k
  = match read_chars ic w prev s with
    | Some (p, t) => k p t
    | None => None
    end.
Proof.
  revert prev s; induction w as [|a w IH]; intros prev s; [reflexivity|].
  destruct w as [|b w].
  - cbn [chars run read_chars]. destruct s as [|c s]; [reflexivity|].
    destruct (atom_match ic (Literal a) c); reflexivity.
  - change (chars (a :: b :: w)) with (Seq (Atom (Literal a)) (chars (b :: w))).
    cbn [run]. destruct s as [|c s]; [reflexivity|].
    cbn [read_chars]. destruct (atom_match ic (Literal a) c); [|reflexivity].
    apply IH.
Qed.

Lemma last_default {A} (x : A) (l : list A) (d d' : A) :
  last (x :: l) d = last (x :: l) d'.
Proof.
  revert x; induction l as [|y l IH]; intros x; [reflexivity|].
  change (last (y :: l) d = last (y :: l) d'). apply IH.
Qed.

Lemma last_some_app (l1 l2 : str) (d : option Z) :
  last (map Some (l1 ++ l2)) d = last (map Some l2) (last (map Some l1) d).
Proof.
  revert d; induction l1 as [|x l1 IH]; intros d; [reflexivity|].
  destruct l1 as [|y l1].
  - destruct l2 as [|z l2]; [reflexivity|].
    change (last (map Some (z :: l2)) d = last (map Some (z :: l2)) (Some x)).
    apply last_default.
  - change (last (map Some ((x :: y :: l1) ++ l2)) d)
      with (last (map Some ((y :: l1) ++ l2)) d).
    rewrite IH. reflexivity.
Qed.

Lemma last_some_cons (c : Z) (l : str) (d : option Z) :
  last (map Some (c :: l)) d = last (map Some l) (Some c).
Proof. apply (last_some_app [c] l d). Qed.

(** [read_chars] succeeds exactly on the texts that start with an
    occurrence of [w]. *)
Lemma read_chars_spec (ic : bool) (w : str) (prev : option Z) (s : str)
  (p : option Z) (t : str) :
  read_chars ic w prev s = Some (p, t)
  <-> exists occ,
        s = occ ++ t
        /\ Forall2 (fun a c => atom_match ic (Literal a) c = true) w occ
        /\ p = last (map Some occ) prev.
Proof.
  revert prev s; induction w as [|a w IH]; intros prev s; cbn [read_chars].
  - split.
    + intros [= <- <-]. exists []. repeat split. constructor.
    + intros (occ & -> & H & ->). inversion H. reflexivity.
  - destruct s as [|c s].
    + split; [discriminate|].
      intros (occ & E & H & _). inversion H; subst. discriminate.
    + destruct (atom_match ic (Literal a) c) eqn:Hm.
      * rewrite IH. split.
        -- intros (occ & -> & H & ->). exists (c :: occ).
           split; [reflexivity|]. split; [now constructor|].
           now rewrite last_some_cons.
        -- intros (occ & E & H & ->). inversion H as [|? c' ? occ' Hc Hrest]; subst.
           injection E as <- ->. exists occ'. rewrite last_some_cons. auto.
      * split; [discriminate|].
        intros (occ & E & H & _). inversion H as [|? c' ? occ' Hc Hrest]; subst.
        injection E as <- ->. congruence.
Qed.

(** The pattern [\bw\b] at one position. *)
Lemma match_len_whole_word (w : str) (prev : option Z) (s : str) :
  (exists n, match_len true (body (whole_word w)) prev s false = Some n)
  <-> exists occ t,
        s = occ ++ t
        /\ Forall2 (fun a c => atom_match true (Literal a) c = true) w occ
        /\ at_boundary prev s = true
        /\ at_boundary (last (map Some occ) prev) t = true.
Proof.
  unfold match_len, whole_word. simpl body.
  change (seqs [Boundary; chars w; Boundary])
    with (Seq Boundary (Seq (chars w) Boundary)).
  cbn [run]. rewrite run_chars.
  destruct (at_boundary prev s) eqn:Hb.
  - destruct (read_chars true w prev s) as [[p t]|] eqn:Hr.
    + apply read_chars_spec in Hr. destruct Hr as (occ & -> & Hocc & ->).
      destruct (at_boundary (last (map Some occ) prev) t) eqn:Hb2.
      * split; [intros _; exists occ, t; auto|intros _; simpl; eauto].
      * split; [intros [n H]; discriminate|].
        intros (occ' & t' & E & Hocc' & _ & Hb').
        assert (occ' = occ /\ t' = t) as [-> ->].
        { assert (Hlen : length occ' = length occ).
          { apply Forall2_length in Hocc, Hocc'. congruence. }
          clear -E Hlen. revert occ' E Hlen.
          induction occ as [|x occ IH]; intros [|y occ'] E Hlen;
            simpl in *; try discriminate; auto.
          injection E as -> E. injection Hlen as Hlen.
          destruct (IH _ E Hlen) as [-> ->]. auto. }
        congruence.
    + split; [intros [n H]; discriminate|].
      intros (occ & t & E & Hocc & _ & Hb').
      assert (read_chars true w prev s = Some (last (map Some occ) prev, t)).
      { apply read_chars_spec. eauto. }
      congruence.
  - split; [intros [n H]; discriminate|].
    intros (occ & t & _ & _ & H & _). discriminate.
Qed.

(** [search_from] finds a match exactly when the pattern matches at some
    position. *)
Lemma search_from_some (ic : bool) (r : regex) (prev : option Z) (s : str) :
  is_match (search_from ic r prev s) = true
  <-> exists pre suf n,
        s = pre ++ suf
        /\ match_len ic r (last (map Some pre) prev) suf false = Some n.
Proof.
  revert prev; induction s as [|c s IH]; intros prev; simpl.
  - destruct (match_len ic r prev [] false) as [n|] eqn:E; simpl.
    + split; [intros _; exists [], [], n; auto|reflexivity].
    + split; [discriminate|].
      intros (pre & suf & n & Hs & Hn).
      symmetry in Hs. apply app_eq_nil in Hs. destruct Hs as [-> ->].
      simpl in Hn. congruence.
  - destruct (match_len ic r prev (c :: s) false) as [n|] eqn:E; simpl.
    + split; [intros _; exists [], (c :: s), n; auto|reflexivity].
    + specialize (IH (Some c)).
      destruct (search_from ic r (Some c) s) as [[i n]|]; simpl in *.
      * split; [intros _|reflexivity].
        destruct (proj1 IH eq_refl) as (pre & suf & m & -> & Hm).
        exists (c :: pre), suf, m. split; [reflexivity|].
        now rewrite last_some_cons.
      * split; [discriminate|].
        intros (pre & suf & m & Hs & Hm).
        destruct pre as [|x pre].
        -- simpl in Hs, Hm. subst suf. congruence.
        -- injection Hs as <- ->. rewrite last_some_cons in Hm.
           assert (false = true); [|discriminate].
           apply IH. eauto.
Qed.

(** The test of the skills loop, [re.search(rf'\b{skill}\b', cv_text,
    flags=re.IGNORECASE)], succeeds exactly when the skill occurs in the text
    as a whole word. *)
Theorem has_skill_occurs (cv_text w : str) :
  has_skill cv_text w = true <-> occurs_as_word w cv_text.
Proof.
  unfold has_skill, search, flag_i, occurs_as_word. simpl orb.
  rewrite search_from_some. split.
  - intros (pre & suf & n & -> & Hn).
    destruct (proj1 (match_len_whole_word w _ suf) (ex_intro _ n Hn))
      as (occ & t & -> & Hocc & Hb1 & Hb2).
    exists pre, occ, t. rewrite last_some_app. auto.
  - intros (before & occ & after & -> & Hocc & Hb1 & Hb2).
    rewrite last_some_app in Hb2.
    destruct (proj2 (match_len_whole_word w (last (map Some before) None) (occ ++ after)))
      as [n Hn]; [exists occ, after; auto|].
    exists before, (occ ++ after), n. auto.
Qed.

End WordFacts.

(** ** Counting and deduplication *)
Section ListFacts.
Import Py Obj.

Lemma count_occ_filter_nodup (p : str -> bool) (l : list str) (x : str) :
  NoDup l -> In x l ->
  count_occ str_eq_dec (filter p l) x = if p x then 1%nat else 0%nat.
Proof.
  induction 1 as [|y l Hy Hnd IH]; [contradiction|].
  intros [->|Hin]; simpl.
  - assert (H0 : count_occ str_eq_dec (filter p l) x = 0%nat).
    { apply count_occ_not_In. rewrite filter_In. tauto. }
    destruct (p x); simpl; [|exact H0].
    destruct (str_eq_dec x x); [now rewrite H0|congruence].
  - assert (Hne : y <> x) by (intros ->; contradiction).
    destruct (p y); simpl; [|now apply IH].
    destruct (str_eq_dec y x); [contradiction|now apply IH].
Qed.

Lemma in_distinct (l : list str) (x : str) : In x (distinct l) <-> In x l.
Proof.
  induction l as [|y l IH]; simpl; [tauto|].
  rewrite filter_In, IH. split.
  - intros [?|[? _]]; auto.
  - intros [->|H]; [now left|].
    destruct (str_eq_dec y x) as [->|Hne]; [now left|right].
    split; [assumption|]. apply negb_true_iff, str_eqb_neq, Hne.
Qed.

Lemma nodup_distinct (l : list str) : NoDup (distinct l).
Proof.
  induction l as [|y l IH]; simpl; constructor.
  - rewrite filter_In. intros [_ H].
    now rewrite str_eqb_refl in H.
  - now apply NoDup_filter.
Qed.

Lemma strs_inj (l l' : list str) : strs l = strs l' -> l = l'.
Proof.
  unfold strs. intros [= H]. revert l' H.
  induction l as [|x l IH]; intros [|y l'] H; simpl in H; try discriminate; auto.
  injection H as -> H. f_equal. now apply IH.
Qed.

End ListFacts.

(** * The claims *)

Import Py Re Obj Spec.

(** What [field] reads from a returned dictionary. *)
Lemma field_returns (d : dict) (key : string) :
  field (inr d) key = lookup (lit key) d.
Proof. reflexivity. Qed.

(** C3. For every input string, [total_chars] is the length of the input,
    [total_words] is the number of its whitespace-delimited tokens, in
    [analyze_cv] and in [analyze_cv_structure] alike, and both numbers are
    non-negative. *)
Theorem C3_character_and_word_counts {U : UnicodeDB} (cv_text : str) :
  field (Rep.analyze_cv cv_text) "total_chars"
    = Some (VInt (Z.of_nat (length cv_text)))
  /\ field (Rep.analyze_cv cv_text) "total_words"
    = Some (VInt (Z.of_nat (token_count cv_text)))
  /\ field (Cvf.analyze_cv_structure cv_text) "total_chars"
    = Some (VInt (Z.of_nat (length cv_text)))
  /\ field (Cvf.analyze_cv_structure cv_text) "total_words"
    = Some (VInt (Z.of_nat (token_count cv_text)))
  /\ 0 <= Z.of_nat (length cv_text)
  /\ 0 <= Z.of_nat (token_count cv_text).
Proof.
  rewrite analyze_cv_returns, analyze_cv_structure_returns, !field_returns.
  unfold Rep.analysis_of, Cvf.analysis_of. cbv zeta.
  unfold len. rewrite split_length.
  repeat split; try reflexivity; apply Nat2Z.is_nonneg.
Qed.

(** C10. For every input string, the keys of [sections_content] in the
    dictionary [analyze_cv] returns are the distinct elements of
    [sections_found]: no key occurs twice, and a name is a key exactly when
    it is listed in [sections_found]. *)
Theorem C10_content_keys_are_found_sections {U : UnicodeDB} (cv_text : str) :
  exists (found : list str) (content : dict),
    field (Rep.analyze_cv cv_text) "sections_found" = Some (strs found)
    /\ field (Rep.analyze_cv cv_text) "sections_content" = Some (VDict content)
    /\ NoDup (keys content)
    /\ forall k, In k (keys content) <-> In k found.
Proof.
  rewrite analyze_cv_returns, !field_returns.
  set (st := Rep.classify (splitlines cv_text)).
  exists (Rep.found st), (Rep.joined (Rep.content st)).
  split; [reflexivity|]. split; [reflexivity|].
  unfold Rep.joined. rewrite keys_map_values. split.
  - apply classify_nodup. constructor.
  - intros k. apply classify_keys.
Qed.

(** C9. For every input string, empty or not and whatever its characters,
    [analyze_cv] and [analyze_cv_structure] return without raising, the four
    keys of the extractors are present in the dictionary returned, each
    holds the list of its category's matches, and a category without
    matches holds the empty list. *)
Theorem C9_extractors_total {U : UnicodeDB} (cv_text : str) :
  (exists d,
     Rep.analyze_cv cv_text = inr d
     /\ lookup (lit "skills_indicators") d
        = Some (strs (filter (Rep.has_skill cv_text) Rep.skills_list))
     /\ lookup (lit "experience_indicators") d
        = Some (strs (Rep.all_matches Rep.exp_patterns cv_text))
     /\ lookup (lit "education_indicators") d
        = Some (strs (Rep.all_matches Rep.edu_patterns cv_text))
     /\ lookup (lit "contact_info") d
        = Some (strs (Rep.emails cv_text ++ Rep.phones cv_text))
     /\ (Forall (fun skill => Rep.has_skill cv_text skill = false) Rep.skills_list ->
         lookup (lit "skills_indicators") d = Some (VList []))
     /\ (Forall (fun p => findall p cv_text true = []) Rep.exp_patterns ->
         lookup (lit "experience_indicators") d = Some (VList []))
     /\ (Forall (fun p => findall p cv_text true = []) Rep.edu_patterns ->
         lookup (lit "education_indicators") d = Some (VList []))
     /\ (Rep.emails cv_text = [] -> Rep.phones cv_text = [] ->
         lookup (lit "contact_info") d = Some (VList [])))
  /\ (exists d,
        Cvf.analyze_cv_structure cv_text = inr d
        /\ lookup (lit "skills_indicators") d = Some (strs (Cvf.skills cv_text))
        /\ lookup (lit "experience_indicators") d
           = Some (strs (Cvf.all_matches Cvf.exp_patterns cv_text))
        /\ lookup (lit "education_indicators") d
           = Some (strs (Cvf.all_matches Cvf.edu_patterns cv_text))
        /\ lookup (lit "contact_info") d
           = Some (strs (Cvf.all_matches Cvf.contact_patterns cv_text))
        /\ (Forall (fun p => findall p cv_text true = []) Cvf.skill_patterns ->
            lookup (lit "skills_indicators") d = Some (VList []))
        /\ (Forall (fun p => findall p cv_text true = []) Cvf.exp_patterns ->
            lookup (lit "experience_indicators") d = Some (VList []))
        /\ (Forall (fun p => findall p cv_text true = []) Cvf.edu_patterns ->
            lookup (lit "education_indicators") d = Some (VList []))
        /\ (Forall (fun p => findall p cv_text true = []) Cvf.contact_patterns ->
            lookup (lit "contact_info") d = Some (VList []))).
Proof.
  assert (Hnone : forall (ps : list pattern),
             Forall (fun p => findall p cv_text true = []) ps ->
             flat_map (fun p => findall p cv_text true) ps = []).
  { induction 1 as [|p ps Hp _ IH]; simpl; [reflexivity|now rewrite Hp, IH]. }
  split.
  - exists (Rep.analysis_of cv_text). split; [apply analyze_cv_returns|].
    repeat split; try reflexivity.
    + intros H. change (Some (strs (filter (Rep.has_skill cv_text) Rep.skills_list))
                        = Some (VList [])).
      replace (filter (Rep.has_skill cv_text) Rep.skills_list) with (@nil str);
        [reflexivity|].
      symmetry. induction H as [|s l Hs _ IH]; simpl; [reflexivity|].
      now rewrite Hs.
    + intros H. change (Some (strs (Rep.all_matches Rep.exp_patterns cv_text))
                        = Some (VList [])).
      unfold Rep.all_matches. now rewrite (Hnone _ H).
    + intros H. change (Some (strs (Rep.all_matches Rep.edu_patterns cv_text))
                        = Some (VList [])).
      unfold Rep.all_matches. now rewrite (Hnone _ H).
    + intros He Hp. change (Some (strs (Rep.emails cv_text ++ Rep.phones cv_text))
                            = Some (VList [])).
      now rewrite He, Hp.
  - exists (Cvf.analysis_of cv_text). split; [apply analyze_cv_structure_returns|].
    repeat split; try reflexivity.
    + intros H. change (Some (strs (Cvf.skills cv_text)) = Some (VList [])).
      unfold Cvf.skills, Cvf.all_matches. now rewrite (Hnone _ H).
    + intros H. change (Some (strs (Cvf.all_matches Cvf.exp_patterns cv_text))
                        = Some (VList [])).
      unfold Cvf.all_matches. now rewrite (Hnone _ H).
    + intros H. change (Some (strs (Cvf.all_matches Cvf.edu_patterns cv_text))
                        = Some (VList [])).
      unfold Cvf.all_matches. now rewrite (Hnone _ H).
    + intros H. change (Some (strs (Cvf.all_matches Cvf.contact_patterns cv_text))
                        = Some (VList [])).
      unfold Cvf.all_matches. now rewrite (Hnone _ H).
Qed.

(** On the empty string nothing matches, and each of the four keys holds
    the empty list in both dictionaries. *)
Lemma C9_extractors_witness :
  (exists d,
     @Rep.analyze_cv ascii_db [] = inr d
     /\ lookup (lit "skills_indicators") d = Some (VList [])
     /\ lookup (lit "experience_indicators") d = Some (VList [])
     /\ lookup (lit "education_indicators") d = Some (VList [])
     /\ lookup (lit "contact_info") d = Some (VList []))
  /\ (exists d,
        @Cvf.analyze_cv_structure ascii_db [] = inr d
        /\ lookup (lit "skills_indicators") d = Some (VList [])
        /\ lookup (lit "experience_indicators") d = Some (VList [])
        /\ lookup (lit "education_indicators") d = Some (VList [])
        /\ lookup (lit "contact_info") d = Some (VList [])).
Proof.
  destruct (@C9_extractors_total ascii_db [])
    as [(d & Hd & _ & _ & _ & _ & Hs & Hx & He & Hc)
        (d' & Hd' & _ & _ & _ & _ & Hs' & Hx' & He' & Hc')].
  split.
  - exists d. split; [exact Hd|]. split; [|split; [|split]].
    + apply Hs. repeat constructor.
    + apply Hx. repeat constructor.
    + apply He. repeat constructor.
    + apply Hc; reflexivity.
  - exists d'. split; [exact Hd'|]. split; [|split; [|split]].
    + apply Hs'. repeat constructor.
    + apply Hx'. repeat constructor.
    + apply He'. repeat constructor.
    + apply Hc'. repeat constructor.
Defined.

(** C1, as the code has it. A header restarts its section: when a text has
    two blocks headed by the same section name, the one entry of
    [sections_content] for that name holds the body lines of the last block
    only, trimmed and joined by newlines, and [sections_found] lists the name
    once for each of its header lines. Here [h] is the last header line of
    [section], [body] the lines up to the next header or the end, [pre] the
    lines before [h] (the earlier blocks) and [post] the lines after the
    block. *)
Theorem C1_repeated_header_restarts_section {U : UnicodeDB} (cv_text : str)
  (pre : list str) (h : str) (body post : list str) (section : str) :
  splitlines cv_text = pre ++ h :: body ++ post ->
  Rep.header_of h = Some section ->
  Forall (fun l => Rep.header_of l = None) body ->
  Forall (fun l => Rep.header_of l <> Some section) post ->
  post = [] \/ (exists s', Rep.header_of (hd [] post) = Some s') ->
  exists content,
    field (Rep.analyze_cv cv_text) "sections_content" = Some (VDict content)
    /\ NoDup (keys content)
    /\ lookup section content = Some (VStr (join [NL] (Rep.body_lines body)))
    /\ field (Rep.analyze_cv cv_text) "sections_found"
       = Some (strs (Rep.headers pre ++ section :: Rep.headers post)).
Proof.
  intros Hlines Hh Hbody Hpost Hend.
  rewrite analyze_cv_returns, !field_returns.
  exists (Rep.joined (Rep.content (Rep.classify (splitlines cv_text)))).
  split; [reflexivity|]. split; [|split].
  - unfold Rep.joined. rewrite keys_map_values. apply classify_nodup. constructor.
  - unfold Rep.joined. rewrite lookup_map_values, Hlines.
    now rewrite (classify_last_block pre h body post section).
  - change (Some (strs (Rep.found (Rep.classify (splitlines cv_text))))
            = Some (strs (Rep.headers pre ++ section :: Rep.headers post))).
    rewrite classify_found, Hlines, headers_app.
    change (h :: body ++ post) with ([h] ++ body ++ post).
    rewrite !headers_app, (headers_none body Hbody).
    unfold Rep.headers at 2. simpl. now rewrite Hh.
Qed.

(** The text of [Samples.two_blocks]: the last block is the line
    "second job", and the header "Experience" is listed twice. *)
Lemma C1_repeated_header_witness :
  exists content,
    field (@Rep.analyze_cv ascii_db Samples.two_blocks) "sections_content"
      = Some (VDict content)
    /\ NoDup (keys content)
    /\ lookup (lit "Experience") content = Some (VStr (lit "second job"))
    /\ field (@Rep.analyze_cv ascii_db Samples.two_blocks) "sections_found"
       = Some (strs [lit "Experience"; lit "Skills"; lit "Experience"]).
Proof.
  apply (@C1_repeated_header_restarts_section ascii_db Samples.two_blocks
           [lit "Experience"; lit "first job"; lit "Skills"; lit "Python"]
           (lit "Experience") [lit "second job"] [] (lit "Experience")).
  - reflexivity.
  - reflexivity.
  - repeat constructor.
  - constructor.
  - left. reflexivity.
Defined.

(** C1 as stated fails on [Samples.two_blocks], whatever the Unicode
    tables: the entry for "Experience" holds "second job" alone, the line
    "first job" of the first block is in no entry. *)
Lemma C1_counterexample :
  (forall U : UnicodeDB,
     field (@Rep.analyze_cv U Samples.two_blocks) "sections_content"
     = Some (VDict [ (lit "Experience", VStr (lit "second job"));
                     (lit "Skills", VStr (lit "Python")) ]))
  /\ (forall U : UnicodeDB,
        field (@Rep.analyze_cv U Samples.two_blocks) "sections_found"
        = Some (strs [lit "Experience"; lit "Skills"; lit "Experience"])).
Proof. split; intros U; vm_compute; reflexivity. Qed.

(** C8, as the code has it. When no line of the text is a header,
    [sections_found] is the empty list and [sections_content] the empty
    dictionary. In any text, the lines before the first header leave no
    trace in [sections_found] and [sections_content]: both are the same as
    for a text that has the remaining lines only. (The extractors read the
    whole text, such lines included.) Here [pre] are lines of [cv_text] none
    of which is a header, and [rest_text] is a text with the lines that
    follow them. *)
Theorem C8_lines_before_first_header {U : UnicodeDB} (cv_text : str) :
  (Forall (fun l => Rep.header_of l = None) (splitlines cv_text) ->
   field (Rep.analyze_cv cv_text) "sections_found" = Some (VList [])
   /\ field (Rep.analyze_cv cv_text) "sections_content" = Some (VDict []))
  /\ (forall (pre : list str) (rest_text : str),
        splitlines cv_text = pre ++ splitlines rest_text ->
        Forall (fun l => Rep.header_of l = None) pre ->
        field (Rep.analyze_cv cv_text) "sections_found"
          = field (Rep.analyze_cv rest_text) "sections_found"
        /\ field (Rep.analyze_cv cv_text) "sections_content"
          = field (Rep.analyze_cv rest_text) "sections_content").
Proof.
  assert (E : forall pre rest,
             splitlines cv_text = pre ++ rest ->
             Forall (fun l => Rep.header_of l = None) pre ->
             Rep.classify (splitlines cv_text) = Rep.classify rest).
  { intros pre rest Hlines Hpre. rewrite Hlines. unfold Rep.classify.
    rewrite fold_left_app.
    now rewrite (fold_no_header pre Rep.no_sections Hpre). }
  split.
  - intros Hall. rewrite analyze_cv_returns, !field_returns.
    change (lookup (lit "sections_found") (Rep.analysis_of cv_text))
      with (Some (strs (Rep.found (Rep.classify (splitlines cv_text))))).
    change (lookup (lit "sections_content") (Rep.analysis_of cv_text))
      with (Some (VDict (Rep.joined
                           (Rep.content (Rep.classify (splitlines cv_text)))))).
    rewrite (E (splitlines cv_text) []) by (rewrite ?app_nil_r; auto).
    split; reflexivity.
  - intros pre rest_text Hlines Hpre.
    rewrite !analyze_cv_returns, !field_returns.
    change (lookup (lit "sections_found") (Rep.analysis_of cv_text))
      with (Some (strs (Rep.found (Rep.classify (splitlines cv_text))))).
    change (lookup (lit "sections_content") (Rep.analysis_of cv_text))
      with (Some (VDict (Rep.joined
                           (Rep.content (Rep.classify (splitlines cv_text)))))).
    rewrite (E pre (splitlines rest_text) Hlines Hpre).
    split; reflexivity.
Qed.

(** The text "a@b.com" has no header; and in [Samples.address_first] that
    line stands before the header "Skills", so that the sections are those
    of [Samples.from_header_on]. *)
Lemma C8_lines_before_first_header_witness :
  (field (@Rep.analyze_cv ascii_db (lit "a@b.com")) "sections_found"
     = Some (VList [])
   /\ field (@Rep.analyze_cv ascii_db (lit "a@b.com")) "sections_content"
     = Some (VDict []))
  /\ (field (@Rep.analyze_cv ascii_db Samples.address_first) "sections_found"
       = field (@Rep.analyze_cv ascii_db Samples.from_header_on) "sections_found"
      /\ field (@Rep.analyze_cv ascii_db Samples.address_first) "sections_content"
       = field (@Rep.analyze_cv ascii_db Samples.from_header_on) "sections_content").
Proof.
  split.
  - apply (proj1 (@C8_lines_before_first_header ascii_db (lit "a@b.com"))).
    repeat constructor.
  - apply (proj2 (@C8_lines_before_first_header ascii_db Samples.address_first)
             [lit "a@b.com"] Samples.from_header_on).
    + reflexivity.
    + repeat constructor.
Defined.

(** C8 as stated fails on [Samples.address_first], whatever the Unicode
    tables: the line "a@b.com" is no header and stands before the first
    header, "Skills", and the result holds it under [contact_info]. *)
Lemma C8_counterexample :
  (forall U : UnicodeDB, @Rep.header_of U (lit "a@b.com") = None)
  /\ (forall U : UnicodeDB,
        field (@Rep.analyze_cv U Samples.address_first) "sections_found"
        = Some (strs [lit "Skills"]))
  /\ (forall U : UnicodeDB,
        field (@Rep.analyze_cv U Samples.address_first) "contact_info"
        = Some (strs [lit "a@b.com"])).
Proof. repeat split; intros U; vm_compute; reflexivity. Qed.

Lemma skills_list_nodup : NoDup Rep.skills_list.
Proof.
  repeat constructor; vm_compute; intuition discriminate.
Qed.

(** C4, as the code has it. In [analyze_cv], [skills_indicators] holds only
    terms of [skills_list], and each term once if it occurs in the text as a
    whole word, case-insensitively, and not at all otherwise. In
    [analyze_cv_structure], [skills_indicators] holds the matches of the
    skill patterns as they are spelled in the text, each distinct spelling
    once, with no word-boundary test. *)
Theorem C4_skills_indicators {U : UnicodeDB} (cv_text : str) :
  (exists skills,
     field (Rep.analyze_cv cv_text) "skills_indicators" = Some (strs skills)
     /\ incl skills Rep.skills_list
     /\ Forall (fun term =>
                  (occurs_as_word term cv_text ->
                   count_occ str_eq_dec skills term = 1%nat)
                  /\ (~ occurs_as_word term cv_text ->
                      count_occ str_eq_dec skills term = 0%nat))
               Rep.skills_list)
  /\ (exists skills,
        field (Cvf.analyze_cv_structure cv_text) "skills_indicators"
          = Some (strs skills)
        /\ NoDup skills
        /\ forall m, In m skills
                     <-> exists p, In p Cvf.skill_patterns
                                   /\ In m (findall p cv_text true)).
Proof.
  rewrite analyze_cv_returns, analyze_cv_structure_returns, !field_returns.
  split.
  - exists (filter (Rep.has_skill cv_text) Rep.skills_list).
    split; [reflexivity|]. split.
    + intros x Hx. apply filter_In in Hx. tauto.
    + apply Forall_forall. intros term Hterm.
      rewrite (count_occ_filter_nodup _ _ _ skills_list_nodup Hterm).
      rewrite <- has_skill_occurs.
      destruct (Rep.has_skill cv_text term); split; intros H;
        try reflexivity; congruence.
  - exists (Cvf.skills cv_text).
    split; [reflexivity|]. split; [apply nodup_distinct|].
    intros m. unfold Cvf.skills, Cvf.all_matches.
    rewrite in_distinct, in_flat_map. reflexivity.
Qed.

(** On [Samples.knows_sql] the term SQL occurs as a whole word (twice) and
    is listed once; the term Python does not occur and is not listed. *)
Lemma C4_skills_indicators_witness :
  exists skills,
    field (@Rep.analyze_cv ascii_db Samples.knows_sql) "skills_indicators"
      = Some (strs skills)
    /\ count_occ str_eq_dec skills (lit "SQL") = 1%nat
    /\ count_occ str_eq_dec skills (lit "Python") = 0%nat.
Proof.
  destruct (@C4_skills_indicators ascii_db Samples.knows_sql)
    as [(skills & Hfield & _ & Hterms) _].
  exists skills. split; [exact Hfield|].
  rewrite Forall_forall in Hterms. split.
  - apply (Hterms (lit "SQL")); [simpl; tauto|].
    apply has_skill_occurs. vm_compute. reflexivity.
  - apply (Hterms (lit "Python")); [simpl; tauto|].
    intros H. apply has_skill_occurs in H. vm_compute in H. discriminate.
Defined.

(** C4 as stated fails on [analyze_cv_structure], whatever the Unicode
    tables: the text "PYTHON Python maintain" gives the entries PYTHON,
    Python and ai (Python's order is that of the hash table): two entries
    for one term, none of them the term "python" as the pattern spells it,
    and "ai" found inside a word. On the same text [analyze_cv] gives the
    one entry Python. *)
Lemma C4_counterexample :
  (forall U : UnicodeDB,
     field (@Cvf.analyze_cv_structure U Samples.shouted_skills)
           "skills_indicators"
     = Some (strs [lit "PYTHON"; lit "Python"; lit "ai"]))
  /\ (forall U : UnicodeDB,
        field (@Rep.analyze_cv U Samples.shouted_skills) "skills_indicators"
        = Some (strs [lit "Python"])).
Proof. split; intros U; vm_compute; reflexivity. Qed.

(** C5, as the code has it. In [analyze_cv], [contact_info] is the matches
    of the email pattern followed by the matches of the phone pattern, each
    in the order found, duplicates kept. In [analyze_cv_structure] the
    matches of the LinkedIn and GitHub patterns follow those two. On
    "Contact: a@b.com, phone 123-456-7890" both give the address first and
    the phone number second. *)
Theorem C5_contact_info {U : UnicodeDB} (cv_text : str) :
  field (Rep.analyze_cv cv_text) "contact_info"
    = Some (strs (findall Rep.email_pattern cv_text false
                  ++ findall Rep.phone_pattern cv_text false))
  /\ field (Cvf.analyze_cv_structure cv_text) "contact_info"
    = Some (strs (findall Cvf.email_pattern cv_text true
                  ++ findall Cvf.phone_pattern cv_text true
                  ++ findall Cvf.linkedin_pattern cv_text true
                  ++ findall Cvf.github_pattern cv_text true))
  /\ field (Rep.analyze_cv Samples.contact_line) "contact_info"
    = Some (strs [lit "a@b.com"; lit "123-456-7890"])
  /\ field (Cvf.analyze_cv_structure Samples.contact_line) "contact_info"
    = Some (strs [lit "a@b.com"; lit "123-456-7890"]).
Proof.
  rewrite !analyze_cv_returns, !analyze_cv_structure_returns, !field_returns.
  split; [reflexivity|]. split.
  - change (Some (strs (Cvf.all_matches Cvf.contact_patterns cv_text)) = 
            Some (strs (findall Cvf.email_pattern cv_text true
                  ++ findall Cvf.phone_pattern cv_text true
                  ++ findall Cvf.linkedin_pattern cv_text true
                  ++ findall Cvf.github_pattern cv_text true))).
    unfold Cvf.all_matches, Cvf.contact_patterns. simpl flat_map.
    now rewrite app_nil_r.
  - split; vm_compute; reflexivity.
Qed.

(** C5 as stated fails on [analyze_cv_structure], whatever the Unicode
    tables: on "github.com/x" neither the email nor the phone pattern
    matches, and [contact_info] is not empty. *)
Lemma C5_counterexample :
  (forall U : UnicodeDB,
     field (@Cvf.analyze_cv_structure U Samples.github_only) "contact_info"
     = Some (strs [lit "github.com/x"]))
  /\ (forall U : UnicodeDB,
        @findall U Cvf.email_pattern Samples.github_only true = [])
  /\ (forall U : UnicodeDB,
        @findall U Cvf.phone_pattern Samples.github_only true = []).
Proof. repeat split; intros U; vm_compute; reflexivity. Qed.

(** C6, as the code has it. In [analyze_cv_structure], [potential_issues]
    holds the "very short" warning exactly when the text has fewer than 500
    characters and the "quite long" warning exactly when it has more than
    10,000, whatever else the text holds. [analyze_cv] has no check on the
    length: its [potential_issues] never holds either warning. *)
Theorem C6_length_warnings {U : UnicodeDB} (cv_text : str) :
  (exists issues,
     field (Cvf.analyze_cv_structure cv_text) "potential_issues"
       = Some (strs issues)
     /\ field (Cvf.analyze_cv_structure cv_text) "total_chars"
        = Some (VInt (len cv_text))
     /\ (In Cvf.too_short issues <-> len cv_text < 500)
     /\ (In Cvf.too_long issues <-> 10000 < len cv_text))
  /\ (exists issues,
        field (Rep.analyze_cv cv_text) "potential_issues" = Some (strs issues)
        /\ ~ In Cvf.too_short issues
        /\ ~ In Cvf.too_long issues).
Proof.
  rewrite analyze_cv_returns, analyze_cv_structure_returns, !field_returns.
  split.
  - eexists. split; [reflexivity|]. split; [reflexivity|].
    unfold Cvf.issues.
    destruct (Z.ltb_spec (len cv_text) 500) as [Hs|Hs];
      destruct (Z.ltb_spec 10000 (len cv_text)) as [Hl|Hl];
      destruct (Cvf.skills cv_text);
      destruct (Cvf.all_matches Cvf.exp_patterns cv_text);
      destruct (negb _ && negb _);
      simpl; split; split; intros H; try lia; try (now left);
      repeat (destruct H as [H|H]; [try (vm_compute in H; discriminate)|]);
      try contradiction; try (now exfalso; lia).
  - eexists. split; [reflexivity|].
    unfold Rep.issues.
    destruct (existsb _ _); destruct (existsb _ _);
      destruct (Rep.emails cv_text ++ Rep.phones cv_text);
      simpl; split; intros H;
      repeat (destruct H as [H|H]; [try (vm_compute in H; discriminate)|]);
      contradiction.
Qed.

(** C6 as stated fails on [analyze_cv], whatever the Unicode tables: the
    empty text has 0 characters, and [potential_issues] holds three
    warnings, none about the length. *)
Lemma C6_counterexample :
  (forall U : UnicodeDB,
     field (@Rep.analyze_cv U []) "total_chars" = Some (VInt 0))
  /\ (forall U : UnicodeDB,
        field (@Rep.analyze_cv U []) "potential_issues"
        = Some (strs [ lit "Missing experience section";
                       lit "Missing education section";
                       lit "No contact information found" ])).
Proof. split; intros U; vm_compute; reflexivity. Qed.

(** C7, as the code has it. On the empty string [analyze_cv_structure]
    returns without raising; [total_chars] and [total_words] are 0 and
    [total_lines] is 1 (the split at newlines gives one empty piece); the
    lists of sections, skills, experience, education and contact are empty;
    and [potential_issues] holds exactly the short-text, no-skills,
    no-experience and missing-headers warnings, in this order. *)
Theorem C7_empty_text {U : UnicodeDB} :
  Cvf.analyze_cv_structure []
  = inr (Cvf.cvf_dict 0 0 [] [] [] [] []
           (map VStr [ Cvf.too_short; Cvf.no_skills; Cvf.no_experience;
                       Cvf.no_headers ])
           1).
Proof.
  rewrite analyze_cv_structure_returns.
  unfold Cvf.analysis_of. cbv zeta.
  assert (Hf : Cvf.sections_found [] = []) by (vm_compute; reflexivity).
  assert (Hs : Cvf.skills [] = []) by (vm_compute; reflexivity).
  assert (Hx : Cvf.all_matches Cvf.exp_patterns [] = []) by (vm_compute; reflexivity).
  assert (Hd : Cvf.all_matches Cvf.edu_patterns [] = []) by (vm_compute; reflexivity).
  assert (Hc : Cvf.all_matches Cvf.contact_patterns [] = []) by (vm_compute; reflexivity).
  rewrite Hf, Hs, Hx, Hd, Hc. reflexivity.
Qed.

(** C7 as stated fails on the line count, whatever the Unicode tables: the
    split of the empty string at newlines is one empty piece, and
    [total_lines] is 1, not 0. *)
Lemma C7_counterexample :
  split_on NL [] = [[]]
  /\ (forall U : UnicodeDB,
        field (@Cvf.analyze_cv_structure U []) "total_lines" = Some (VInt 1)).
Proof. split; [reflexivity|]. intros U. vm_compute. reflexivity. Qed.

(** * Further properties *)

(** ** What [re.findall] returns *)
Section FindallFacts.
Import Py Re Notions.
Context {U : UnicodeDB}.

Lemma in_order_more (ms : list str) (p s : str) :
  in_order ms s -> in_order ms (p ++ s).
Proof.
  destruct ms as [|m ms]; simpl; [trivial|].
  intros (before & after & -> & H). exists (p ++ before), after.
  split; [now rewrite app_assoc|exact H].
Qed.

Lemma in_order_substring (ms : list str) (s : str) :
  in_order ms s -> Forall (fun m => substring m s) ms.
Proof.
  revert s; induction ms as [|m ms IH]; intros s; simpl; [constructor|].
  intros (before & after & -> & H). constructor.
  - now exists before, after.
  - specialize (IH _ H). rewrite Forall_forall in *. intros x Hx.
    destruct (IH x Hx) as (b & a & ->).
    exists (before ++ m ++ b), a. now rewrite <- !app_assoc.
Qed.

(** The matches come one after the other in the text. *)
Lemma findall_scan_in_order (ic : bool) (r : regex) (s : str) :
  forall prev skip, in_order (findall_scan ic r prev s skip) (skipn skip s).
Proof.
  induction s as [|c s IH]; intros prev skip.
  - destruct skip; simpl.
    + destruct (match_len ic r prev [] false) as [[|n]|]; simpl; trivial.
      * exists [], []. split; [reflexivity|].
        destruct (match_len ic r prev [] true) as [[|m]|]; simpl; trivial.
        exists [], []. auto.
      * exists [], []. auto.
    + trivial.
  - destruct skip as [|k].
    + assert (Hnext : forall n, in_order (findall_scan ic r (Some c) s n)
                                  (skipn (S n) (c :: s))).
      { intros n. apply IH. }
      assert (Hnext0 : in_order (findall_scan ic r (Some c) s 0) (c :: s)).
      { apply (in_order_more _ [c]). apply (IH (Some c) 0%nat). }
      assert (Hm : forall n, in_order (firstn (S n) (c :: s)
                                       :: findall_scan ic r (Some c) s n)
                                      (c :: s)).
      { intros n. exists [], (skipn (S n) (c :: s)). split.
        - simpl app. now rewrite firstn_skipn.
        - apply Hnext. }
      cbn [findall_scan skipn].
      destruct (match_len ic r prev (c :: s) false) as [[|n]|].
      * exists [], (c :: s). split; [reflexivity|].
        destruct (match_len ic r prev (c :: s) true) as [[|m]|]; auto.
      * apply Hm.
      * exact Hnext0.
    + cbn [findall_scan]. apply IH.
Qed.

Lemma findall_in_order (p : pattern) (cv_text : str) (ignorecase : bool) :
  in_order (findall p cv_text ignorecase) cv_text.
Proof. apply (findall_scan_in_order _ _ cv_text None 0%nat). Qed.

(** What the matcher hands to its continuation is a rest of the text, and a
    proper one when the pattern has to take a character. *)
Lemma repeat_atom_rest {A} (ic : bool) (a : atom) (s : str) :
  forall lo hi prev (k : option Z -> str -> option A) x,
    repeat_atom ic a lo hi prev s k = Some x ->
    exists m p t, s = m ++ t /\ k p t = Some x
                  /\ (lo <> 0%nat -> m <> []).
Proof.
  induction s as [|c s IH]; intros lo hi prev k x H.
  - assert (E : repeat_atom ic a lo hi prev [] k
                = match lo with O => k prev [] | S _ => None end).
    { destruct hi as [[|h]|]; reflexivity. }
    rewrite E in H. destruct lo; [|discriminate].
    exists [], prev, []. repeat split; auto; congruence.
  - assert (Hstop : match lo with O => k prev (c :: s) | S _ => None end = Some x ->
                    exists m p t, c :: s = m ++ t /\ k p t = Some x
                                  /\ (lo <> 0%nat -> m <> [])).
    { destruct lo; [|discriminate]. intros Hk.
      exists [], prev, (c :: s). repeat split; auto; congruence. }
    assert (Hrec : forall lo' hi' y,
               repeat_atom ic a lo' hi' (Some c) s k = Some y ->
               exists m p t, c :: s = m ++ t /\ k p t = Some y
                             /\ (lo <> 0%nat -> m <> [])).
    { intros lo' hi' y E.
      destruct (IH _ _ _ _ _ E) as (m & p & t & -> & Hk & _).
      exists (c :: m), p, t. repeat split; auto; discriminate. }
    destruct hi as [[|h]|]; cbn [repeat_atom option_map] in H.
    + apply Hstop, H.
    + destruct (atom_match ic a c); [|apply Hstop, H].
      destruct (repeat_atom ic a (pred lo) (Some (pred (S h))) (Some c) s k)
        as [y|] eqn:E; [|apply Hstop, H].
      injection H as ->. eapply Hrec, E.
    + destruct (atom_match ic a c); [|apply Hstop, H].
      destruct (repeat_atom ic a (pred lo) None (Some c) s k)
        as [y|] eqn:E; [|apply Hstop, H].
      injection H as ->. eapply Hrec, E.
Qed.

Lemma run_rest {A} (ic : bool) (r : regex) :
  forall prev s (k : option Z -> str -> option A) x,
    run ic r prev s k = Some x ->
    exists m p t, s = m ++ t /\ k p t = Some x
                  /\ (consumes r = true -> m <> []).
Proof.
  induction r as [| a | | r1 IH1 r2 IH2 | r1 IH1 r2 IH2 | r1 IH1 | a lo hi];
    intros prev s k x H; cbn [run] in H.
  - exists [], prev, s. repeat split; auto; discriminate.
  - destruct s as [|c s]; [discriminate|].
    destruct (atom_match ic a c); [|discriminate].
    exists [c], (Some c), s. repeat split; auto; discriminate.
  - destruct (at_boundary prev s); [|discriminate].
    exists [], prev, s. repeat split; auto; discriminate.
  - destruct (IH1 _ _ _ _ H) as (m1 & p1 & t1 & -> & H2 & Hc1).
    destruct (IH2 _ _ _ _ H2) as (m2 & p2 & t2 & -> & Hk & Hc2).
    exists (m1 ++ m2), p2, t2. split; [now rewrite app_assoc|]. split; [exact Hk|].
    simpl. intros Hc Hnil. apply app_eq_nil in Hnil. destruct Hnil as [-> ->].
    apply orb_true_iff in Hc. destruct Hc as [Hc|Hc]; [now apply Hc1|now apply Hc2].
  - destruct (run ic r1 prev s k) as [y|] eqn:E.
    + injection H as ->. destruct (IH1 _ _ _ _ E) as (m & p & t & -> & Hk & Hc).
      exists m, p, t. repeat split; auto. simpl. intros Hb.
      apply andb_true_iff in Hb. tauto.
    + destruct (IH2 _ _ _ _ H) as (m & p & t & -> & Hk & Hc).
      exists m, p, t. repeat split; auto. simpl. intros Hb.
      apply andb_true_iff in Hb. tauto.
  - destruct (run ic r1 prev s k) as [y|] eqn:E.
    + injection H as ->. destruct (IH1 _ _ _ _ E) as (m & p & t & -> & Hk & _).
      exists m, p, t. repeat split; auto; discriminate.
    + exists [], prev, s. repeat split; auto; discriminate.
  - destruct (repeat_atom_rest _ _ _ _ _ _ _ _ H) as (m & p & t & -> & Hk & Hc).
    exists m, p, t. repeat split; auto. simpl. intros Hlo. apply Hc.
    destruct lo; [discriminate|discriminate].
Qed.

(** The length [match_len] gives is that of a start of the text, not zero
    when the pattern has to take a character. *)
Lemma match_len_bounds (ic : bool) (r : regex) (prev : option Z) (s : str)
  (must_advance : bool) (n : nat) :
  match_len ic r prev s must_advance = Some n ->
  (n <= length s)%nat /\ (consumes r = true -> n <> 0%nat).
Proof.
  unfold match_len. intros H.
  destruct (run_rest _ _ _ _ _ _ H) as (m & p & t & -> & Hk & Hc).
  rewrite length_app in *.
  replace (length m + length t - length t)%nat with (length m) in Hk by lia.
  destruct (must_advance && (length m =? 0)%nat); [discriminate|].
  injection Hk as <-. split; [lia|].
  intros Hr E. apply Hc; [assumption|]. now apply length_zero_iff_nil.
Qed.

(** With a pattern that has to take a character, no match is empty. *)
Lemma findall_scan_nonempty (ic : bool) (r : regex) (s : str) :
  consumes r = true ->
  forall prev skip, Forall (fun m => m <> []) (findall_scan ic r prev s skip).
Proof.
  intros Hr. induction s as [|c s IH]; intros prev skip.
  - destruct skip; simpl; [|constructor].
    destruct (match_len ic r prev [] false) as [n|] eqn:E; [|constructor].
    destruct (match_len_bounds _ _ _ _ _ _ E) as [Hle Hnz].
    simpl in Hle. specialize (Hnz Hr). lia.
  - destruct skip as [|k]; cbn [findall_scan]; [|apply IH].
    destruct (match_len ic r prev (c :: s) false) as [[|n]|] eqn:E.
    + destruct (match_len_bounds _ _ _ _ _ _ E) as [_ Hnz].
      specialize (Hnz Hr). congruence.
    + constructor; [discriminate|apply IH].
    + apply IH.
Qed.

Lemma findall_nonempty (p : pattern) (cv_text : str) (ignorecase : bool) :
  consumes (body p) = true ->
  Forall (fun m => m <> []) (findall p cv_text ignorecase).
Proof. intros H. now apply findall_scan_nonempty. Qed.

(** [re.findall] finds something exactly when [re.search] does. *)
Lemma findall_scan_search (ic : bool) (r : regex) (s : str) :
  forall prev,
    findall_scan ic r prev s 0 <> []
    <-> search_from ic r prev s <> None.
Proof.
  induction s as [|c s IH]; intros prev; cbn [findall_scan search_from].
  - destruct (match_len ic r prev [] false) as [[|n]|]; split; congruence.
  - destruct (match_len ic r prev (c :: s) false) as [[|n]|].
    + split; congruence.
    + split; congruence.
    + rewrite IH. destruct (search_from ic r (Some c) s) as [[i n]|];
        split; congruence.
Qed.

End FindallFacts.

(** ** Trimming and splitting into lines *)
Section LineFacts.
Import Py Notions.

Lemma lstrip_split (s : str) :
  exists ws, s = ws ++ lstrip s /\ Forall (fun c => isspace c = true) ws.
Proof.
  induction s as [|c s (ws & E & H)]; [exists []; auto|].
  simpl. destruct (isspace c) eqn:Hc.
  - exists (c :: ws). split; [simpl; now f_equal|now constructor].
  - exists []. auto.
Qed.

Lemma lstrip_head (s : str) :
  match lstrip s with
  | c :: _ => isspace c = false
  | [] => True
  end.
Proof.
  induction s as [|c s IH]; simpl; [exact I|].
  destruct (isspace c) eqn:Hc; [exact IH|exact Hc].
Qed.

Lemma lstrip_fixed (s : str) :
  match s with c :: _ => isspace c = false | [] => True end -> lstrip s = s.
Proof. destruct s as [|c s]; simpl; [reflexivity|]. now intros ->. Qed.

Lemma rstrip_split (s : str) :
  exists ws, s = rstrip s ++ ws /\ Forall (fun c => isspace c = true) ws.
Proof.
  unfold rstrip. destruct (lstrip_split (rev s)) as (ws & E & H).
  exists (rev ws). split; [|now apply Forall_rev].
  rewrite <- rev_app_distr, <- E. now rewrite rev_involutive.
Qed.

(** The text is whitespace, then the trimmed text, then whitespace. *)
Lemma strip_split (s : str) :
  exists ws1 ws2,
    s = ws1 ++ strip s ++ ws2
    /\ Forall (fun c => isspace c = true) ws1
    /\ Forall (fun c => isspace c = true) ws2.
Proof.
  unfold strip. destruct (lstrip_split s) as (ws1 & E1 & H1).
  destruct (rstrip_split (lstrip s)) as (ws2 & E2 & H2).
  exists ws1, ws2. split; [|auto]. now rewrite <- E2.
Qed.

Lemma strip_forall (P : Z -> Prop) (s : str) : Forall P s -> Forall P (strip s).
Proof.
  intros H. destruct (strip_split s) as (ws1 & ws2 & E & _ & _).
  rewrite E in H. apply Forall_app in H. destruct H as [_ H].
  apply Forall_app in H. tauto.
Qed.

(** Trimming twice is trimming once. *)
Lemma strip_idempotent (s : str) : strip (strip s) = strip s.
Proof.
  unfold strip. set (t := lstrip s).
  assert (Ht : match t with c :: _ => isspace c = false | [] => True end)
    by apply lstrip_head.
  assert (Hl : lstrip (rstrip t) = rstrip t).
  { apply lstrip_fixed. destruct (rstrip_split t) as (ws & E & _).
    destruct (rstrip t) as [|c u]; [exact I|].
    rewrite E in Ht. exact Ht. }
  rewrite Hl. unfold rstrip. rewrite rev_involutive. f_equal.
  apply lstrip_fixed. apply lstrip_head.
Qed.

(** No line [splitlines] returns holds a line boundary. *)
Lemma splitlines_scan_clean (n : nat) : forall (s cur : str),
  (length s <= n)%nat ->
  Forall (fun c => islinebreak c = false) cur ->
  Forall (Forall (fun c => islinebreak c = false)) (splitlines_scan cur s).
Proof.
  induction n as [|n IH]; intros s cur Hn Hcur.
  - destruct s; [|simpl in Hn; lia]. simpl.
    destruct cur; constructor; [now apply Forall_rev|constructor].
  - destruct s as [|c s]; simpl.
    + destruct cur; constructor; [now apply Forall_rev|constructor].
    + simpl in Hn. destruct (islinebreak c) eqn:Hc.
      * constructor; [now apply Forall_rev|].
        destruct s as [|d s']; [constructor|].
        destruct ((c =? 13) && (d =? 10)).
        -- apply IH; [simpl in Hn; lia|constructor].
        -- apply IH; [lia|constructor].
      * apply IH; [lia|now constructor].
Qed.

Lemma splitlines_clean (s : str) :
  Forall (Forall (fun c => islinebreak c = false)) (splitlines s).
Proof. now apply (splitlines_scan_clean (length s)). Qed.

Lemma splitlines_scan_line (l rest cur : str) :
  Forall (fun c => islinebreak c = false) l ->
  splitlines_scan cur (l ++ rest) = splitlines_scan (rev l ++ cur) rest.
Proof.
  revert cur; induction l as [|c l IH]; intros cur H; [reflexivity|].
  inversion H as [|? ? Hc Hl]; subst. simpl. rewrite Hc, IH by exact Hl.
  now rewrite <- app_assoc.
Qed.

(** Lines joined with a newline and split again are the same lines, when
    none of them is empty or holds a line boundary. *)
Lemma splitlines_join (ls : list str) :
  Forall (fun l => l <> [] /\ Forall (fun c => islinebreak c = false) l) ls ->
  splitlines (join [NL] ls) = ls.
Proof.
  induction ls as [|l ls IH]; intros H; [reflexivity|].
  inversion H as [|? ? [Hne Hl] Hls]; subst.
  destruct ls as [|l2 ls].
  - unfold splitlines. cbn [join].
    rewrite <- (app_nil_r l) at 1. rewrite splitlines_scan_line by exact Hl.
    rewrite app_nil_r. cbn [splitlines_scan].
    destruct (rev l) eqn:E.
    + apply (f_equal (@rev Z)) in E. rewrite rev_involutive in E. now subst.
    + rewrite <- E. now rewrite rev_involutive.
  - unfold splitlines. change (join [NL] (l :: l2 :: ls))
      with (l ++ NL :: join [NL] (l2 :: ls)).
    rewrite splitlines_scan_line by exact Hl. rewrite app_nil_r.
    specialize (IH Hls). unfold splitlines in IH.
    inversion Hls as [|? ? [Hne2 _] _]; subst.
    assert (Hj : exists d t, join [NL] (l2 :: ls) = d :: t).
    { destruct l2 as [|d l2]; [contradiction|].
      destruct ls; simpl; eauto. }
    destruct Hj as (d & t & Hj). rewrite Hj in *.
    change (splitlines_scan (rev l) (NL :: d :: t))
      with (rev (rev l) :: splitlines_scan [] (d :: t)).
    rewrite rev_involutive. now rewrite IH.
Qed.

End LineFacts.

(** ** Lists with elements left out *)
Section SubseqFacts.
Import Notions.
Context {A : Type}.

Lemma subseq_nil_l (l : list A) : subseq [] l.
Proof. induction l; now constructor. Qed.

Lemma subseq_refl (l : list A) : subseq l l.
Proof. induction l; now constructor. Qed.

Lemma subseq_app (a b c d : list A) :
  subseq a b -> subseq c d -> subseq (a ++ c) (b ++ d).
Proof.
  induction 1; simpl; intros Hcd;
    [assumption|apply subseq_skip; auto|apply subseq_take; auto].
Qed.

Lemma subseq_more (a b c : list A) : subseq a b -> subseq a (b ++ c).
Proof.
  intros H. rewrite <- (app_nil_r a). apply subseq_app; [exact H|].
  apply subseq_nil_l.
Qed.

Lemma subseq_filter (p : A -> bool) (l : list A) : subseq (filter p l) l.
Proof.
  induction l as [|x l IH]; simpl; [constructor|].
  destruct (p x); [now apply subseq_take|now apply subseq_skip].
Qed.

Lemma subseq_in (l1 l2 : list A) (x : A) : subseq l1 l2 -> In x l1 -> In x l2.
Proof. induction 1; simpl; intuition. Qed.

Lemma subseq_length (l1 l2 : list A) :
  subseq l1 l2 -> (length l1 <= length l2)%nat.
Proof. induction 1; simpl; lia. Qed.

Lemma subseq_nodup (l1 l2 : list A) : subseq l1 l2 -> NoDup l2 -> NoDup l1.
Proof.
  induction 1 as [|x l1 l2 H IH|x l1 l2 H IH]; intros Hnd; auto.
  - inversion Hnd; auto.
  - inversion Hnd as [|? ? Hx Hl]; subst. constructor; auto.
    intros Hin. apply Hx. eapply subseq_in; eauto.
Qed.

End SubseqFacts.

Lemma subseq_map {A B} (f : A -> B) (l1 l2 : list A) :
  Notions.subseq l1 l2 -> Notions.subseq (map f l1) (map f l2).
Proof.
  induction 1 as [|x l1 l2 H IH|x l1 l2 H IH]; simpl.
  - apply Notions.subseq_nil.
  - apply Notions.subseq_skip, IH.
  - apply Notions.subseq_take, IH.
Qed.

(** ** A property of every value of a dictionary *)
Section ValueFacts.
Import Py Obj.
Context {V : Type} (Q : V -> Prop).

Lemma values_update (k : str) (v : V) (d : list (str * V)) :
  Forall (fun kv => Q (snd kv)) d -> Q v ->
  Forall (fun kv => Q (snd kv)) (update k v d).
Proof.
  intros Hd Hv. induction Hd as [|[k' v'] d Hkv Hd IH]; simpl.
  - now repeat constructor.
  - destruct (str_eqb k k'); constructor; auto.
Qed.

Lemma values_lookup (k : str) (v : V) (d : list (str * V)) :
  Forall (fun kv => Q (snd kv)) d -> lookup k d = Some v -> Q v.
Proof.
  induction 1 as [|[k' v'] d Hkv Hd IH]; simpl; [discriminate|].
  destruct (str_eqb k k'); [now intros [= <-]|exact IH].
Qed.

End ValueFacts.

(** ** The lines kept under a section *)
Section ContentFacts.
Import Py Re Obj Rep Notions.
Context {U : UnicodeDB}.

Lemma header_of_trimmed (line : str) : header_of (strip line) = header_of line.
Proof. unfold header_of. now rewrite strip_idempotent. Qed.

(** Only the trimmed line counts. *)
Lemma classify_line_strip (st : sections) (line : str) :
  classify_line st (strip line) = classify_line st line.
Proof. unfold classify_line. now rewrite header_of_trimmed, strip_idempotent. Qed.

(** A blank line changes nothing. *)
Lemma classify_line_blank (st : sections) (line : str) :
  strip line = [] -> classify_line st line = st.
Proof.
  intros H. unfold classify_line, header_of. rewrite H. reflexivity.
Qed.

Lemma fold_body_lines (lines : list str) (st : sections) :
  fold_left classify_line (body_lines lines) st
  = fold_left classify_line lines st.
Proof.
  revert st; induction lines as [|l lines IH]; intros st; [reflexivity|].
  unfold body_lines in *. cbn [map filter fold_left].
  destruct (strip l) as [|c s] eqn:E.
  - rewrite classify_line_blank by exact E. apply IH.
  - cbn [fold_left]. rewrite <- E, classify_line_strip. apply IH.
Qed.

Lemma classify_body_lines (lines : list str) :
  classify (body_lines lines) = classify lines.
Proof. apply fold_body_lines. Qed.

Lemma kept_from_more (seen : list str) (line : str) (ls : list str) :
  kept_from seen ls -> kept_from (seen ++ [line]) ls.
Proof.
  intros [H1 H2]. split; [exact H1|].
  rewrite map_app. now apply subseq_more.
Qed.

Lemma classify_line_kept (seen : list str) (st : sections) (line : str) :
  Forall (fun c => islinebreak c = false) line ->
  Forall (fun kv => kept_from seen (snd kv)) (content st) ->
  Forall (fun kv => kept_from (seen ++ [line]) (snd kv))
         (content (classify_line st line)).
Proof.
  intros Hline Hst.
  assert (Hst' : Forall (fun kv => kept_from (seen ++ [line]) (snd kv)) (content st)).
  { revert Hst. apply Forall_impl. intros kv. apply kept_from_more. }
  unfold classify_line.
  destruct (header_of line) as [section|] eqn:Hh; cbn [content].
  - apply values_update; [exact Hst'|].
    split; [constructor|apply subseq_nil_l].
  - destruct (strip line) as [|x xs] eqn:Hs; [exact Hst'|].
    destruct (current st) as [[|c cs]|]; try exact Hst'.
    destruct (lookup (c :: cs) (content st)) as [ls|] eqn:Hl; [|exact Hst'].
    cbn [content]. apply values_update; [exact Hst'|].
    destruct (values_lookup _ _ _ _ Hst Hl) as [H1 H2].
    split.
    + apply Forall_app. split; [exact H1|]. constructor; [|constructor].
      rewrite <- Hs. split.
      * split; [rewrite Hs; discriminate|].
        split; [apply strip_idempotent|now apply strip_forall].
      * now rewrite header_of_trimmed.
    + rewrite map_app. apply subseq_app; [exact H2|].
      simpl. rewrite Hs. apply subseq_refl.
Qed.

Lemma fold_kept (lines seen : list str) (st : sections) :
  Forall (Forall (fun c => islinebreak c = false)) lines ->
  Forall (fun kv => kept_from seen (snd kv)) (content st) ->
  Forall (fun kv => kept_from (seen ++ lines) (snd kv))
         (content (fold_left classify_line lines st)).
Proof.
  intros H; revert seen st; induction H as [|l lines Hl _ IH]; intros seen st Hst.
  - now rewrite app_nil_r.
  - cbn [fold_left]. change (l :: lines) with ([l] ++ lines).
    rewrite app_assoc. apply IH. now apply classify_line_kept.
Qed.

Lemma classify_kept (cv_text : str) :
  Forall (fun kv => kept_from (splitlines cv_text) (snd kv))
         (content (classify (splitlines cv_text))).
Proof.
  apply (fold_kept (splitlines cv_text) [] no_sections).
  - apply splitlines_clean.
  - constructor.
Qed.

(** Every header found is one of the three names. *)
Lemma headers_named (lines : list str) :
  incl (headers lines) (keys section_patterns).
Proof.
  intros s Hs. unfold headers in Hs. apply in_flat_map in Hs.
  destruct Hs as (line & _ & Hs).
  destruct (header_of line) as [section|] eqn:E; [|contradiction].
  destruct Hs as [<-|[]].
  unfold header_of in E. destruct (strip line); [discriminate|].
  now apply first_fullmatch_in in E.
Qed.

Lemma headers_length (lines : list str) :
  (length (headers lines) <= length lines)%nat.
Proof.
  induction lines as [|l lines IH]; [reflexivity|].
  unfold headers in *. cbn [flat_map]. rewrite length_app.
  destruct (header_of l); simpl in *; lia.
Qed.

Lemma in_headers (lines : list str) (section : str) :
  In section (headers lines)
  <-> exists line, In line lines /\ header_of line = Some section.
Proof.
  unfold headers. rewrite in_flat_map. split.
  - intros (line & Hin & H). exists line. split; [exact Hin|].
    destruct (header_of line); [|contradiction].
    destruct H as [->|[]]. reflexivity.
  - intros (line & Hin & H). exists line. split; [exact Hin|].
    rewrite H. now left.
Qed.

End ContentFacts.

(** ** Matches as pieces of the text *)
Section PieceFacts.
Import Py Re Notions.
Context {U : UnicodeDB}.

Lemma findall_pieces (p : pattern) (cv_text : str) (ignorecase : bool) :
  consumes (body p) = true ->
  Forall (fun m => m <> [] /\ substring m cv_text) (findall p cv_text ignorecase).
Proof.
  intros H. apply Forall_forall. intros m Hm. split.
  - pose proof (findall_nonempty p cv_text ignorecase H) as Hn.
    rewrite Forall_forall in Hn. now apply Hn.
  - pose proof (in_order_substring _ _ (findall_in_order p cv_text ignorecase)) as Hs.
    rewrite Forall_forall in Hs. now apply Hs.
Qed.

Lemma all_findall_pieces (ps : list pattern) (cv_text : str) (ignorecase : bool) :
  Forall (fun p => consumes (body p) = true) ps ->
  Forall (fun m => m <> [] /\ substring m cv_text)
         (flat_map (fun p => findall p cv_text ignorecase) ps).
Proof.
  induction 1 as [|p ps Hp _ IH]; simpl; [constructor|].
  apply Forall_app. split; [now apply findall_pieces|exact IH].
Qed.

(** [re.findall] finds something exactly when [re.search] does. *)
Lemma findall_search (p : pattern) (cv_text : str) (ignorecase : bool) :
  findall p cv_text ignorecase <> [] <-> search p cv_text ignorecase <> None.
Proof. apply findall_scan_search. Qed.

End PieceFacts.

(** ** Counting *)
Section CountFacts.
Import Py Spec.

Lemma token_starts_bound (s : str) (after_space : bool) :
  (2 * token_starts after_space s <= length s + if after_space then 1 else 0)%nat.
Proof.
  revert after_space; induction s as [|c s IH]; intros b; simpl.
  - destruct b; lia.
  - pose proof (IH (isspace c)) as H.
    destruct b, (isspace c); simpl in *; lia.
Qed.

Lemma split_on_scan_length (sep : Z) (s cur : str) :
  length (split_on_scan sep cur s) = S (count_occ Z.eq_dec s sep).
Proof.
  revert cur; induction s as [|c s IH]; intros cur; simpl; [reflexivity|].
  destruct (Z.eqb_spec c sep) as [->|Hne].
  - destruct (Z.eq_dec sep sep); [|contradiction]. simpl. now rewrite IH.
  - destruct (Z.eq_dec c sep); [contradiction|]. apply IH.
Qed.

Lemma count_occ_bound (s : str) (c : Z) :
  (count_occ Z.eq_dec s c <= length s)%nat.
Proof.
  induction s as [|x s IH]; simpl; [lia|]. destruct (Z.eq_dec x c); lia.
Qed.

End CountFacts.

(** A key that occurs once has one value. *)
Lemma nodup_keys_value {V} (k : str) (v v' : V) (d : list (str * V)) :
  NoDup (keys d) -> In (k, v) d -> In (k, v') d -> v = v'.
Proof.
  induction d as [|[k2 v2] d IH]; simpl; [contradiction|].
  intros Hnd. inversion Hnd as [|? ? Hk Hd]; subst.
  intros [[= -> ->]|H1] [[= <-]|H2]; auto.
  - exfalso. apply Hk. apply (in_map fst) in H2. exact H2.
  - exfalso. apply Hk. apply (in_map fst) in H1. exact H1.
Qed.


(** ** Header lines and the sections listed *)
Section HeaderFacts.
Import Py Re Obj Rep.
Context {U : UnicodeDB}.

(** One entry for each header line, in the order of the lines. *)
Lemma headers_of_lines (lines : list str) :
  map Some (headers lines)
  = filter (fun h => match h with Some _ => true | None => false end)
           (map header_of lines).
Proof.
  induction lines as [|l lines IH]; [reflexivity|].
  unfold headers in *. cbn [flat_map map filter].
  destruct (header_of l) as [section|]; simpl; now rewrite IH.
Qed.

Lemma headers_count (lines : list str) :
  length (headers lines)
  = length (filter (fun l => match header_of l with
                             | Some _ => true
                             | None => false
                             end) lines).
Proof.
  induction lines as [|l lines IH]; [reflexivity|].
  unfold headers in *. cbn [flat_map filter]. rewrite length_app, IH.
  destruct (header_of l); reflexivity.
Qed.

(** A section is listed as often as it has header lines. *)
Lemma headers_count_occ (lines : list str) (section : str) :
  count_occ str_eq_dec (headers lines) section
  = length (filter (fun l => match header_of l with
                             | Some s => str_eqb s section
                             | None => false
                             end) lines).
Proof.
  induction lines as [|l lines IH]; [reflexivity|].
  unfold headers in *. cbn [flat_map filter].
  destruct (header_of l) as [s|]; [|exact IH].
  cbn [app count_occ]. destruct (str_eq_dec s section) as [->|Hne].
  - rewrite str_eqb_refl. simpl. now rewrite IH.
  - apply str_eqb_neq in Hne. now rewrite Hne.
Qed.

(** After a header and lines that are no headers, the section of the
    header is the open one. *)
Lemma classify_open_section (before : list str) (h : str) (body : list str)
  (section : str) :
  header_of h = Some section ->
  Forall (fun l => header_of l = None) body ->
  current (classify (before ++ h :: body)) = Some section.
Proof.
  intros Hh Hb. unfold classify. rewrite fold_left_app. cbn [fold_left].
  destruct (classify_header (fold_left classify_line before no_sections)
              h section Hh) as [Hc Hl].
  destruct (header_of_named _ _ Hh) as (c & cs & Hname).
  apply (fold_body body _ section [] Hb Hc); [rewrite Hname; discriminate|exact Hl].
Qed.

Lemma cvf_section_names_nodup : NoDup (keys Cvf.section_patterns).
Proof.
  repeat constructor; simpl; intros H;
    repeat (destruct H as [H|H]; [vm_compute in H; discriminate|]);
    contradiction.
Qed.

(** [analyze_cv_structure] lists a section exactly when its pattern is
    found somewhere in the text. *)
Lemma cvf_sections_found_iff (cv_text section : str) (p : pattern) :
  In (section, p) Cvf.section_patterns ->
  (In section (Cvf.sections_found cv_text)
   <-> search p cv_text false <> None).
Proof.
  intros Hin. rewrite <- findall_search.
  unfold Cvf.sections_found. rewrite in_map_iff. split.
  - intros ([s' p'] & Hs & Hf). simpl in Hs. subst s'.
    apply filter_In in Hf. destruct Hf as [Hin' Hm]. simpl in Hm.
    rewrite (nodup_keys_value _ _ _ _ cvf_section_names_nodup Hin Hin').
    intros E. rewrite E in Hm. discriminate.
  - intros Hne. exists (section, p). split; [reflexivity|].
    apply filter_In. split; [exact Hin|]. simpl.
    destruct (findall p cv_text false); [contradiction|reflexivity].
Qed.

End HeaderFacts.


(** * The claim on the header lines *)

(** C2, as the code has it. In [analyze_cv], for every text,
    [sections_found] holds one entry for each line that is a header, in the
    order of the lines, and a line is a header exactly when, trimmed, it is
    not empty and one of the three patterns matches the whole of it,
    case-insensitively. A line that reads "My Skills are strong" when
    trimmed is never a header. Read while [section] is open, that is after
    a header line [h] of [section] and lines [body] that are no headers, it
    adds nothing to [sections_found] and is one of the lines joined under
    [section] at the end, provided no later line opens [section] again.
    [analyze_cv_structure] instead lists a section exactly when its pattern
    is found somewhere in the text. *)
Theorem C2_headers_need_a_full_match {U : UnicodeDB} (cv_text : str) :
  (exists found,
     field (Rep.analyze_cv cv_text) "sections_found" = Some (strs found)
     /\ map Some found
        = filter (fun h => match h with Some _ => true | None => false end)
                 (map Rep.header_of (splitlines cv_text)))
  /\ (forall line,
        (exists section, Rep.header_of line = Some section)
        <-> strip line <> []
            /\ exists section p, In (section, p) Rep.section_patterns
                                 /\ fullmatch p (strip line) true = true)
  /\ (forall line, strip line = Samples.my_skills -> Rep.header_of line = None)
  /\ (forall before h body line post section,
        splitlines cv_text = (before ++ h :: body) ++ line :: post ->
        Rep.header_of h = Some section ->
        Forall (fun l => Rep.header_of l = None) body ->
        strip line = Samples.my_skills ->
        Forall (fun l => Rep.header_of l <> Some section) post ->
        field (Rep.analyze_cv cv_text) "sections_found"
          = Some (strs (Rep.headers (before ++ h :: body) ++ Rep.headers post))
        /\ exists content ls,
             field (Rep.analyze_cv cv_text) "sections_content"
               = Some (VDict content)
             /\ lookup section content = Some (VStr (join [NL] ls))
             /\ In Samples.my_skills ls)
  /\ (exists found,
        field (Cvf.analyze_cv_structure cv_text) "sections_found"
          = Some (strs found)
        /\ forall section p,
             In (section, p) Cvf.section_patterns ->
             (In section found <-> search p cv_text false <> None)).
Proof.
  assert (Hno : forall line, strip line = Samples.my_skills ->
                             Rep.header_of line = None).
  { intros line Hline. unfold Rep.header_of. rewrite Hline.
    vm_compute. reflexivity. }
  rewrite analyze_cv_returns, analyze_cv_structure_returns, !field_returns.
  split; [|split; [|split; [|split]]].
  - exists (Rep.found (Rep.classify (splitlines cv_text))).
    split; [reflexivity|]. rewrite classify_found. apply headers_of_lines.
  - apply header_of_fullmatch.
  - exact Hno.
  - intros before h body line post section Hlines Hh Hbody Hline Hpost.
    pose proof (Hno line Hline) as Hl.
    pose proof (classify_open_section before h body section Hh Hbody) as Hcur.
    split.
    + change (Some (strs (Rep.found (Rep.classify (splitlines cv_text))))
              = Some (strs (Rep.headers (before ++ h :: body)
                            ++ Rep.headers post))).
      rewrite classify_found, Hlines, headers_app.
      change (line :: post) with ([line] ++ post).
      rewrite headers_app. unfold Rep.headers at 2. simpl. now rewrite Hl.
    + destruct (classify_keeps_line (before ++ h :: body) line post section
                  Hcur Hl) as (ls & Hls & Hin);
        [rewrite Hline; discriminate|assumption|].
      exists (Rep.joined (Rep.content (Rep.classify (splitlines cv_text)))), ls.
      split; [reflexivity|]. split.
      * unfold Rep.joined. now rewrite lookup_map_values, Hlines, Hls.
      * now rewrite <- Hline.
  - exists (Cvf.sections_found cv_text). split; [reflexivity|].
    intros section p. apply cvf_sections_found_iff.
Qed.

(** The text of [Samples.skills_block]: the padded line stands right after
    the header "Skills", which is the only header. *)
Lemma C2_headers_witness :
  field (@Rep.analyze_cv ascii_db Samples.skills_block) "sections_found"
  = Some (strs (@Rep.headers ascii_db [lit "Skills"]
                ++ @Rep.headers ascii_db [lit "python, sql"]))
  /\ exists content ls,
       field (@Rep.analyze_cv ascii_db Samples.skills_block) "sections_content"
         = Some (VDict content)
       /\ lookup (lit "Skills") content = Some (VStr (join [NL] ls))
       /\ In Samples.my_skills ls.
Proof.
  apply (proj1 (proj2 (proj2 (proj2
           (@C2_headers_need_a_full_match ascii_db Samples.skills_block))))
           [] (lit "Skills") [] (lit "  My Skills are strong  ")
           [lit "python, sql"] (lit "Skills")).
  - reflexivity.
  - reflexivity.
  - constructor.
  - reflexivity.
  - repeat constructor. vm_compute. discriminate.
Defined.

(** C2 as stated fails on [analyze_cv_structure], whatever the Unicode
    tables: the text "My Skills are strong" gets "Skills" into
    [sections_found], while [analyze_cv] finds no section in it. *)
Lemma C2_counterexample :
  (forall U : UnicodeDB,
     field (@Cvf.analyze_cv_structure U Samples.my_skills) "sections_found"
     = Some (strs [lit "Skills"]))
  /\ (forall U : UnicodeDB,
        field (@Rep.analyze_cv U Samples.my_skills) "sections_found"
        = Some (strs [])).
Proof. split; intros U; vm_compute; reflexivity. Qed.

(** * Further properties of the two analyses *)

Import Notions.

(** Membership in a list of literal strings, and a subsequence of one. *)
Ltac listed := simpl; repeat (first [left; reflexivity | right]).
Ltac unlisted H :=
  simpl in H;
  repeat (destruct H as [H|H]; [try (vm_compute in H; discriminate)|]);
  try contradiction.
Ltac pick_subseq :=
  repeat first [apply subseq_nil | apply subseq_take | apply subseq_skip].

(** X1. In [analyze_cv], [potential_issues] holds "Missing experience
    section" exactly when "Experience" is not in [sections_found], "Missing
    education section" exactly when "Education" is not, and "No contact
    information found" exactly when [contact_info] is empty; it holds
    nothing else, and the warnings come in this order. *)
Theorem X1_rep_issues_when {U : UnicodeDB} (cv_text : str) :
  exists found contact issues : list str,
    field (Rep.analyze_cv cv_text) "sections_found" = Some (strs found)
    /\ field (Rep.analyze_cv cv_text) "contact_info" = Some (strs contact)
    /\ field (Rep.analyze_cv cv_text) "potential_issues" = Some (strs issues)
    /\ (In (lit "Missing experience section") issues
        <-> ~ In (lit "Experience") found)
    /\ (In (lit "Missing education section") issues
        <-> ~ In (lit "Education") found)
    /\ (In (lit "No contact information found") issues <-> contact = [])
    /\ subseq issues [ lit "Missing experience section";
                       lit "Missing education section";
                       lit "No contact information found" ].
Proof.
  rewrite analyze_cv_returns, !field_returns.
  set (found := Rep.found (Rep.classify (splitlines cv_text))).
  set (contact := Rep.emails cv_text ++ Rep.phones cv_text).
  exists found, contact, (Rep.issues found contact).
  split; [reflexivity|]. split; [reflexivity|]. split; [reflexivity|].
  rewrite <- (existsb_str_eqb (lit "Experience") found).
  rewrite <- (existsb_str_eqb (lit "Education") found).
  unfold Rep.issues.
  destruct (existsb (str_eqb (lit "Experience")) found);
    destruct (existsb (str_eqb (lit "Education")) found);
    destruct contact;
    (split; [|split; [|split]]); try pick_subseq;
    split; intros H; try discriminate; try reflexivity; try congruence;
    try (now listed); try (now unlisted H); try (intros H'; discriminate).
Qed.

(** X2. In [analyze_cv_structure], [potential_issues] holds the no-skills
    warning exactly when [skills_indicators] is empty, the no-experience
    warning exactly when [experience_indicators] is empty, and the
    no-headers warning exactly when neither "Experience" nor "Skills" is in
    [sections_found]; the short-text and long-text warnings never come
    together; the list holds nothing but these five warnings, in this
    order, and so at most four of them. *)
Theorem X2_cvf_issues_when {U : UnicodeDB} (cv_text : str) :
  exists found skills experience issues : list str,
    field (Cvf.analyze_cv_structure cv_text) "sections_found" = Some (strs found)
    /\ field (Cvf.analyze_cv_structure cv_text) "skills_indicators"
       = Some (strs skills)
    /\ field (Cvf.analyze_cv_structure cv_text) "experience_indicators"
       = Some (strs experience)
    /\ field (Cvf.analyze_cv_structure cv_text) "potential_issues"
       = Some (strs issues)
    /\ (In Cvf.no_skills issues <-> skills = [])
    /\ (In Cvf.no_experience issues <-> experience = [])
    /\ (In Cvf.no_headers issues
        <-> ~ In (lit "Experience") found /\ ~ In (lit "Skills") found)
    /\ ~ (In Cvf.too_short issues /\ In Cvf.too_long issues)
    /\ subseq issues [ Cvf.too_short; Cvf.too_long; Cvf.no_skills;
                       Cvf.no_experience; Cvf.no_headers ]
    /\ (length issues <= 4)%nat.
Proof.
  rewrite analyze_cv_structure_returns, !field_returns.
  set (found := Cvf.sections_found cv_text).
  set (skills := Cvf.skills cv_text).
  set (experience := Cvf.all_matches Cvf.exp_patterns cv_text).
  exists found, skills, experience,
    (Cvf.issues (len cv_text) skills experience found).
  do 4 (split; [reflexivity|]).
  rewrite <- (existsb_str_eqb (lit "Experience") found).
  rewrite <- (existsb_str_eqb (lit "Skills") found).
  unfold Cvf.issues.
  destruct (Z.ltb_spec (len cv_text) 500) as [Hs|Hs];
    destruct (Z.ltb_spec 10000 (len cv_text)) as [Hl|Hl];
    try (exfalso; lia);
    destruct skills; destruct experience;
    destruct (existsb (str_eqb (lit "Experience")) found);
    destruct (existsb (str_eqb (lit "Skills")) found);
    cbn [negb andb app];
    (split; [|split; [|split; [|split; [|split]]]]);
    try pick_subseq; try (simpl; lia);
    try (intros [H H']; now unlisted H');
    try (intros [H H']; now unlisted H);
    split; intros H; try discriminate; try reflexivity;
    try (now listed); try (now unlisted H);
    try (split; intros H'; discriminate);
    try (destruct H as [H H']; exfalso; first [now apply H | now apply H']).
Qed.

(** X3. In [analyze_cv_structure], [total_lines] is one more than the
    number of newline characters of the text: at least 1, also on the empty
    text, and at most one more than [total_chars]. *)
Theorem X3_total_lines_counts_newlines {U : UnicodeDB} (cv_text : str) :
  field (Cvf.analyze_cv_structure cv_text) "total_lines"
    = Some (VInt (1 + Z.of_nat (count_occ Z.eq_dec cv_text NL)))
  /\ field (Cvf.analyze_cv_structure cv_text) "total_chars"
    = Some (VInt (Z.of_nat (length cv_text)))
  /\ 1 <= 1 + Z.of_nat (count_occ Z.eq_dec cv_text NL)
     <= Z.of_nat (length cv_text) + 1.
Proof.
  rewrite analyze_cv_structure_returns, !field_returns.
  split; [|split; [reflexivity|]].
  - unfold Cvf.analysis_of. cbv zeta.
    change (Some (VInt (len (split_on NL cv_text)))
            = Some (VInt (1 + Z.of_nat (count_occ Z.eq_dec cv_text NL)))).
    unfold len, split_on. rewrite split_on_scan_length. do 2 f_equal. lia.
  - pose proof (count_occ_bound cv_text NL). lia.
Qed.

(** X4. In both analyses the words fit in the characters: a word takes at
    least one character and two words have whitespace between them, so
    twice [total_words] is at most [total_chars] plus one. *)
Theorem X4_words_fit_in_chars {U : UnicodeDB} (cv_text : str) :
  exists chars words : Z,
    field (Rep.analyze_cv cv_text) "total_chars" = Some (VInt chars)
    /\ field (Rep.analyze_cv cv_text) "total_words" = Some (VInt words)
    /\ field (Cvf.analyze_cv_structure cv_text) "total_chars" = Some (VInt chars)
    /\ field (Cvf.analyze_cv_structure cv_text) "total_words" = Some (VInt words)
    /\ 2 * words <= chars + 1.
Proof.
  rewrite analyze_cv_returns, analyze_cv_structure_returns, !field_returns.
  exists (len cv_text), (len (split cv_text)).
  do 4 (split; [reflexivity|]).
  unfold len. rewrite split_length.
  pose proof (token_starts_bound cv_text true) as H. cbv iota in H.
  unfold token_count. lia.
Qed.

(** X5. In [analyze_cv_structure], [sections_found] lists a section exactly
    when its pattern is found somewhere in the text; it lists each section
    at most once, and in the order of the table: Skills, Experience,
    Education, Contact, Summary, Projects. *)
Theorem X5_cvf_sections_found {U : UnicodeDB} (cv_text : str) :
  exists found : list str,
    field (Cvf.analyze_cv_structure cv_text) "sections_found" = Some (strs found)
    /\ NoDup found
    /\ subseq found [ lit "Skills"; lit "Experience"; lit "Education";
                      lit "Contact"; lit "Summary"; lit "Projects" ]
    /\ forall section p,
         In (section, p) Cvf.section_patterns ->
         (In section found <-> search p cv_text false <> None).
Proof.
  rewrite analyze_cv_structure_returns, !field_returns.
  exists (Cvf.sections_found cv_text). split; [reflexivity|].
  assert (Hsub : subseq (Cvf.sections_found cv_text) (keys Cvf.section_patterns)).
  { unfold Cvf.sections_found, keys. apply subseq_map, subseq_filter. }
  assert (Hnd : NoDup (keys Cvf.section_patterns)).
  { repeat constructor; simpl; intros H; unlisted H. }
  split; [now apply (subseq_nodup _ _ Hsub)|]. split; [exact Hsub|].
  intros section p Hin. rewrite <- findall_search.
  unfold Cvf.sections_found. rewrite in_map_iff. split.
  - intros ([s' p'] & Hs & Hf). simpl in Hs. subst s'.
    apply filter_In in Hf. destruct Hf as [Hin' Hm]. simpl in Hm.
    rewrite (nodup_keys_value _ _ _ _ Hnd Hin Hin').
    intros E. rewrite E in Hm. discriminate.
  - intros Hne. exists (section, p). split; [reflexivity|].
    apply filter_In. split; [exact Hin|]. simpl.
    destruct (findall p cv_text false); [contradiction|reflexivity].
Qed.

(** X6. In [analyze_cv], [sections_found] holds one entry for each header
    line of the text, in the order of the lines: its entries are the
    sections the lines open, line by line, the lines that are no headers
    left out. So it has as many entries as the text has header lines, and
    a section is listed as often as it has header lines, twice for two
    headers "Skills". The entries are names among Experience, Education
    and Skills, the list is never longer than the text has lines, and a
    name is listed exactly when some line of the text is a header of that
    section. *)
Theorem X6_rep_sections_found {U : UnicodeDB} (cv_text : str) :
  exists found : list str,
    field (Rep.analyze_cv cv_text) "sections_found" = Some (strs found)
    /\ map Some found
       = filter (fun h => match h with Some _ => true | None => false end)
                (map Rep.header_of (splitlines cv_text))
    /\ length found
       = length (filter (fun line => match Rep.header_of line with
                                     | Some _ => true
                                     | None => false
                                     end) (splitlines cv_text))
    /\ (forall section,
          count_occ str_eq_dec found section
          = length (filter (fun line => match Rep.header_of line with
                                        | Some s => str_eqb s section
                                        | None => false
                                        end) (splitlines cv_text)))
    /\ incl found [lit "Experience"; lit "Education"; lit "Skills"]
    /\ (length found <= length (splitlines cv_text))%nat
    /\ forall section,
         In section found
         <-> exists line, In line (splitlines cv_text)
                          /\ Rep.header_of line = Some section.
Proof.
  rewrite analyze_cv_returns, !field_returns.
  exists (Rep.found (Rep.classify (splitlines cv_text))).
  split; [reflexivity|]. rewrite classify_found.
  split; [apply headers_of_lines|]. split; [apply headers_count|].
  split; [intros section; apply headers_count_occ|].
  split; [apply headers_named|]. split; [apply headers_length|].
  intros section. apply in_headers.
Qed.

(** X7. In [analyze_cv], every value of [sections_content] is its lines
    joined with a newline, and splitting the value into lines gives these
    lines back; each of them is not empty, has nothing to trim, is no
    header, and together they are trimmed lines of the text in the order
    of the text. *)
Theorem X7_section_content_lines {U : UnicodeDB} (cv_text : str) :
  exists ct : list (str * list str),
    field (Rep.analyze_cv cv_text) "sections_content"
      = Some (VDict (map_values (fun ls => VStr (join [NL] ls)) ct))
    /\ Forall (fun kv =>
                 splitlines (join [NL] (snd kv)) = snd kv
                 /\ Forall (fun l => tidy l /\ Rep.header_of l = None) (snd kv)
                 /\ subseq (snd kv) (map strip (splitlines cv_text)))
              ct.
Proof.
  rewrite analyze_cv_returns, !field_returns.
  exists (Rep.content (Rep.classify (splitlines cv_text))).
  split; [reflexivity|].
  pose proof (classify_kept cv_text) as H. revert H.
  apply Forall_impl. intros kv [H1 H2]. split; [|split; assumption].
  apply splitlines_join. revert H1. apply Forall_impl.
  intros l [(Hne & _ & Hl) _]. now split.
Qed.

(** X8. In [analyze_cv], blank lines and the whitespace around a line do
    not count for the sections: two texts with the same trimmed non-blank
    lines have the same [sections_found] and the same [sections_content]. *)
Theorem X8_only_trimmed_lines_count {U : UnicodeDB} (a b : str) :
  Rep.body_lines (splitlines a) = Rep.body_lines (splitlines b) ->
  field (Rep.analyze_cv a) "sections_found"
    = field (Rep.analyze_cv b) "sections_found"
  /\ field (Rep.analyze_cv a) "sections_content"
    = field (Rep.analyze_cv b) "sections_content".
Proof.
  intros H. rewrite !analyze_cv_returns, !field_returns.
  assert (E : Rep.classify (splitlines a) = Rep.classify (splitlines b)).
  { now rewrite <- (classify_body_lines (splitlines a)), H, classify_body_lines. }
  split.
  - change (Some (strs (Rep.found (Rep.classify (splitlines a))))
            = Some (strs (Rep.found (Rep.classify (splitlines b))))).
    now rewrite E.
  - change (Some (VDict (Rep.joined (Rep.content (Rep.classify (splitlines a)))))
            = Some (VDict (Rep.joined (Rep.content (Rep.classify (splitlines b)))))).
    now rewrite E.
Qed.

(** A padded text with a blank line, and the same lines trimmed. *)
Lemma X8_only_trimmed_lines_witness :
  Rep.body_lines (splitlines Samples.padded_block)
  = Rep.body_lines (splitlines Samples.from_header_on)
  /\ field (@Rep.analyze_cv ascii_db Samples.padded_block) "sections_content"
     = field (@Rep.analyze_cv ascii_db Samples.from_header_on) "sections_content".
Proof.
  split; [reflexivity|].
  apply (@X8_only_trimmed_lines_count ascii_db). reflexivity.
Defined.

(** X9. In [analyze_cv], every entry of [contact_info],
    [experience_indicators] and [education_indicators] is a piece of the
    text as it stands there, and never the empty string; [contact_info] is
    the addresses in the order of the text, one after the other without
    overlap, followed by the phone numbers in the order of the text. *)
Theorem X9_rep_indicators_are_pieces {U : UnicodeDB} (cv_text : str) :
  exists emails phones experience education : list str,
    field (Rep.analyze_cv cv_text) "contact_info" = Some (strs (emails ++ phones))
    /\ field (Rep.analyze_cv cv_text) "experience_indicators"
       = Some (strs experience)
    /\ field (Rep.analyze_cv cv_text) "education_indicators"
       = Some (strs education)
    /\ in_order emails cv_text
    /\ in_order phones cv_text
    /\ Forall (fun m => m <> [] /\ substring m cv_text)
              (emails ++ phones ++ experience ++ education).
Proof.
  rewrite analyze_cv_returns, !field_returns.
  exists (Rep.emails cv_text), (Rep.phones cv_text),
    (Rep.all_matches Rep.exp_patterns cv_text),
    (Rep.all_matches Rep.edu_patterns cv_text).
  do 3 (split; [reflexivity|]).
  split; [apply findall_in_order|]. split; [apply findall_in_order|].
  apply Forall_app; split; [|apply Forall_app; split; [|apply Forall_app; split]].
  - now apply findall_pieces.
  - now apply findall_pieces.
  - apply all_findall_pieces. repeat constructor.
  - apply all_findall_pieces. repeat constructor.
Qed.

(** X10. In [analyze_cv_structure], every entry of [skills_indicators],
    [experience_indicators], [education_indicators] and [contact_info] is a
    piece of the text as it stands there, in the spelling of the text, and
    never the empty string. *)
Theorem X10_cvf_indicators_are_pieces {U : UnicodeDB} (cv_text : str) :
  exists skills experience education contact : list str,
    field (Cvf.analyze_cv_structure cv_text) "skills_indicators"
      = Some (strs skills)
    /\ field (Cvf.analyze_cv_structure cv_text) "experience_indicators"
       = Some (strs experience)
    /\ field (Cvf.analyze_cv_structure cv_text) "education_indicators"
       = Some (strs education)
    /\ field (Cvf.analyze_cv_structure cv_text) "contact_info"
       = Some (strs contact)
    /\ Forall (fun m => m <> [] /\ substring m cv_text)
              (skills ++ experience ++ education ++ contact).
Proof.
  rewrite analyze_cv_structure_returns, !field_returns.
  exists (Cvf.skills cv_text),
    (Cvf.all_matches Cvf.exp_patterns cv_text),
    (Cvf.all_matches Cvf.edu_patterns cv_text),
    (Cvf.all_matches Cvf.contact_patterns cv_text).
  do 4 (split; [reflexivity|]).
  apply Forall_app; split; [|apply Forall_app; split; [|apply Forall_app; split]];
    try (apply all_findall_pieces; repeat constructor).
  apply Forall_forall. intros m Hm.
  unfold Cvf.skills in Hm. apply (proj1 (in_distinct _ _)) in Hm.
  assert (H : Forall (fun p => consumes (body p) = true) Cvf.skill_patterns)
    by (repeat constructor).
  apply (all_findall_pieces _ cv_text true) in H.
  rewrite Forall_forall in H. apply H. exact Hm.
Qed.

(** X11. Whatever the text, the dictionary [analyze_cv] returns has these
    nine keys and no other, and the one [analyze_cv_structure] returns has
    these nine, [total_lines] last and no [sections_content]. *)
Theorem X11_keys_of_the_analyses {U : UnicodeDB} (cv_text : str) :
  (exists d, Rep.analyze_cv cv_text = inr d
             /\ keys d = map lit [ "total_chars"; "total_words"; "sections_found";
                                   "sections_content"; "skills_indicators";
                                   "experience_indicators";
                                   "education_indicators"; "contact_info";
                                   "potential_issues" ]%string)
  /\ (exists d, Cvf.analyze_cv_structure cv_text = inr d
                /\ keys d = map lit [ "total_chars"; "total_words";
                                      "sections_found"; "skills_indicators";
                                      "experience_indicators";
                                      "education_indicators"; "contact_info";
                                      "potential_issues"; "total_lines" ]%string).
Proof.
  rewrite analyze_cv_returns, analyze_cv_structure_returns.
  split; eexists; split; reflexivity.
Qed.

(** * The file reader, the report and the command line *)

(** ** Decoding *)
Section CodecFacts.
Import Py Codec Notions.

Lemma byte_value_range (b : Byte.byte) : 0 <= byte_value b < 256.
Proof.
  unfold byte_value. pose proof (Strings.Byte.to_N_bounded b). lia.
Qed.

Lemma byte_values_range (bs : bytes) :
  Forall (fun b => 0 <= b < 256) (map byte_value bs).
Proof.
  induction bs; simpl; constructor; [apply byte_value_range|assumption].
Qed.

(** What the UTF-8 decoder returns: scalar values, at most one for each
    byte. *)
Lemma utf8_values_sound (n : nat) : forall (bs : list Z) (s : str),
  (length bs <= n)%nat ->
  Forall (fun b => 0 <= b < 256) bs ->
  utf8_values bs = Some s ->
  Forall scalar_value s /\ (length s <= length bs)%nat.
Proof.
  induction n as [|n IH]; intros bs s Hn Hbs H.
  - destruct bs; [|simpl in Hn; lia]. injection H as <-. split; [constructor|simpl; lia].
  - destruct bs as [|b0 bs1]; [injection H as <-; split; [constructor|simpl; lia]|].
    simpl in Hn. inversion Hbs as [|? ? Hb0 Hbs1]; subst.
    cbn [utf8_values] in H.
    destruct (b0 <? 128) eqn:E0.
    { destruct (utf8_values bs1) as [t|] eqn:Et; [|discriminate].
      injection H as <-. destruct (IH bs1 t) as [Hs Hl]; [lia|assumption|assumption|].
      split; [constructor; [unfold scalar_value; lia|exact Hs]|simpl; lia]. }
    destruct (between 194 223 b0) eqn:E1.
    { destruct bs1 as [|b1 bs2]; [discriminate|].
      destruct (continuation b1) eqn:C1; [|discriminate].
      destruct (utf8_values bs2) as [t|] eqn:Et; [|discriminate].
      injection H as <-. inversion Hbs1; subst. simpl in Hn.
      destruct (IH bs2 t) as [Hs Hl]; [lia|assumption|assumption|].
      unfold continuation, between in *.
      split; [constructor; [unfold scalar_value; lia|exact Hs]|simpl; lia]. }
    destruct (between 224 239 b0) eqn:E2.
    { destruct bs1 as [|b1 [|b2 bs3]]; try discriminate.
      destruct (b0 =? 224) eqn:A; destruct (b0 =? 237) eqn:B; cbv iota in H;
        (destruct (between _ _ b1 && continuation b2) eqn:C; [|discriminate]);
        (destruct (utf8_values bs3) as [t|] eqn:Et; [|discriminate]);
        injection H as <-; inversion Hbs1 as [|? ? ? Hbs2]; subst;
        inversion Hbs2; subst; simpl in Hn;
        (destruct (IH bs3 t) as [Hs Hl]; [lia|assumption|assumption|]);
        unfold continuation, between in *;
        (split; [constructor; [unfold scalar_value; lia|exact Hs]|simpl; lia]). }
    destruct (between 240 244 b0) eqn:E3; [|discriminate].
    destruct bs1 as [|b1 [|b2 [|b3 bs4]]]; try discriminate.
    destruct (b0 =? 240) eqn:A; destruct (b0 =? 244) eqn:B; cbv iota in H;
      (destruct (between _ _ b1 && continuation b2 && continuation b3) eqn:C;
         [|discriminate]);
      (destruct (utf8_values bs4) as [t|] eqn:Et; [|discriminate]);
      injection H as <-; inversion Hbs1 as [|? ? ? Hbs2]; subst;
      inversion Hbs2 as [|? ? ? Hbs3]; subst; inversion Hbs3; subst;
      simpl in Hn;
      (destruct (IH bs4 t) as [Hs Hl]; [lia|assumption|assumption|]);
      unfold continuation, between in *;
      (split; [constructor; [unfold scalar_value; lia|exact Hs]|simpl; lia]).
Qed.

Lemma decode_utf8_sound (bs : bytes) (s : str) :
  decode_utf8 bs = Some s ->
  Forall scalar_value s /\ (length s <= length bs)%nat.
Proof.
  intros H. rewrite <- (length_map byte_value bs).
  apply (utf8_values_sound (length (map byte_value bs))); auto.
  apply byte_values_range.
Qed.

Lemma decode_latin1_sound (bs : bytes) :
  Forall (fun c => 0 <= c < 256) (decode_latin1 bs)
  /\ length (decode_latin1 bs) = length bs.
Proof.
  split; [apply byte_values_range|apply length_map].
Qed.

(** ASCII bytes are valid UTF-8 and decode to themselves. *)
Lemma utf8_values_ascii (bs : list Z) :
  Forall (fun b => 0 <= b < 128) bs -> utf8_values bs = Some bs.
Proof.
  induction 1 as [|b bs Hb _ IH]; [reflexivity|].
  cbn [utf8_values]. replace (b <? 128) with true by lia.
  now rewrite IH.
Qed.

(** After the translation of line ends no carriage return is left, nothing
    was added, and only carriage returns and the line feeds after them were
    touched. *)
Lemma universal_newlines_sound (n : nat) : forall (s : str),
  (length s <= n)%nat ->
  Forall (fun c => c <> 13) (universal_newlines s)
  /\ (length (universal_newlines s) <= length s)%nat
  /\ forall P : Z -> Prop, P NL -> Forall P s -> Forall P (universal_newlines s).
Proof.
  induction n as [|n IH]; intros s Hn.
  - destruct s; [|simpl in Hn; lia]. simpl. repeat split; auto.
  - destruct s as [|c s]; [simpl; repeat split; auto|].
    simpl in Hn. cbn [universal_newlines].
    destruct (Z.eqb_spec c 13) as [->|Hc].
    + destruct s as [|d s'].
      * repeat split; [repeat constructor; discriminate|simpl; lia|].
        intros P HP _. now repeat constructor.
      * simpl in Hn. destruct (d =? NL).
        -- destruct (IH s') as (H1 & H2 & H3); [lia|].
           repeat split; [constructor; [discriminate|exact H1]|simpl; lia|].
           intros P HP HF. constructor; [exact HP|]. apply H3; [exact HP|].
           inversion HF as [|? ? _ HF']; subst. now inversion HF'.
        -- destruct (IH (d :: s')) as (H1 & H2 & H3); [simpl; lia|].
           repeat split; [constructor; [discriminate|exact H1]|simpl in *; lia|].
           intros P HP HF. constructor; [exact HP|]. apply H3; [exact HP|].
           now inversion HF.
    + destruct (IH s) as (H1 & H2 & H3); [lia|].
      repeat split; [constructor; assumption|simpl; lia|].
      intros P HP HF. inversion HF; subst. constructor; [assumption|].
      now apply H3.
Qed.

Lemma universal_newlines_plain (s : str) :
  Forall (fun c => c <> 13) s -> universal_newlines s = s.
Proof.
  induction 1 as [|c s Hc _ IH]; [reflexivity|].
  cbn [universal_newlines]. destruct (Z.eqb_spec c 13); [contradiction|].
  now rewrite IH.
Qed.

End CodecFacts.

(** ** Printing *)
Section PrintFacts.
Import Py Re Obj Codec Cli.
Local Open Scope io_scope.
Context {U : UnicodeDB} {W : Host}.

Lemma bind_ext {A B} (m m' : IO A) (f f' : A -> IO B) :
  (forall o, m o = m' o) -> (forall a o, f a o = f' a o) ->
  forall o, bind m f o = bind m' f' o.
Proof.
  intros Hm Hf o. unfold bind. rewrite Hm.
  destruct (m' o) as [[e|a] o']; [reflexivity|apply Hf].
Qed.

Lemma print_one (s : str) (o : list str) : print_all [s] o = print s o.
Proof.
  unfold print_all, for_each, bind, print, ret.
  destruct (forallb encodable s); reflexivity.
Qed.

Lemma print_all_app (l l' : list str) (o : list str) :
  print_all (l ++ l') o = bind (print_all l) (fun _ => print_all l') o.
Proof.
  revert o; induction l as [|s l IH]; intros o; [reflexivity|].
  unfold print_all. cbn [app for_each]. unfold bind.
  destruct (print s o) as [[e|[]] o1]; [reflexivity|].
  apply IH.
Qed.

(** A statement that prints [l] followed by statements that print [l']. *)
Lemma seq_prints (seg rest : IO unit) (l l' : list str) :
  (forall o, seg o = print_all l o) ->
  (forall o, rest o = print_all l' o) ->
  forall o, bind seg (fun _ => rest) o = print_all (l ++ l') o.
Proof.
  intros Hs Hr o. rewrite print_all_app. apply bind_ext; auto.
Qed.

Lemma step_print (seg rest : IO unit) (s : str) (l' : list str) :
  (forall o, seg o = print s o) ->
  (forall o, rest o = print_all l' o) ->
  forall o, bind seg (fun _ => rest) o = print_all (s :: l') o.
Proof.
  intros Hs Hr o. change (s :: l') with ([s] ++ l').
  apply seq_prints; [|exact Hr]. intros o'. now rewrite print_one.
Qed.

Lemma for_each_strs (pre : str) (l : list str) (o : list str) :
  for_each (map VStr l) (fun v => print (pre ++ to_str v)) o
  = print_all (map (fun x => pre ++ x) l) o.
Proof.
  revert o; induction l as [|x l IH]; intros o; [reflexivity|].
  cbn [map for_each]. unfold print_all. cbn [for_each].
  apply bind_ext; [reflexivity|]. intros _ o'. apply IH.
Qed.


(** The test on all the lines, as one computation. *)
Lemma encodable_lines (l : list str) :
  forallb (forallb encodable) l = true ->
  Forall (fun s => forallb encodable s = true) l.
Proof.
  intros H. apply Forall_forall. intros s Hs.
  rewrite forallb_forall in H. now apply H.
Qed.


Lemma item_found (d : dict) (k : string) (v : value) :
  lookup (lit k) d = Some v -> item d k = ret v.
Proof. intros H. unfold item. now rewrite H. Qed.

Lemma when_prints (b : bool) (s : str) (o : list str) :
  when b (print s) o = print_all (if b then [s] else []) o.
Proof. destruct b; [now rewrite print_one|reflexivity]. Qed.

Lemma shown_prints (limit : nat) (pre : str) (l : list str) (o : list str) :
  for_each (firstn limit (map VStr l)) (fun v => print (pre ++ to_str v)) o
  = print_all (map (fun x => pre ++ x) (firstn limit l)) o.
Proof. now rewrite <- for_each_strs, firstn_map. Qed.

(** [if analysis[k]: for x in analysis[k]: print(...) else: print(none)] *)
Lemma plain_block (d : dict) (k : string) (pre none : str) (entries : list str) :
  lookup (lit k) d = Some (strs entries) ->
  forall o,
    (v <- item d k ;;
     if truthy v then
       v' <- item d k ;;
       each <- iterate v' ;;
       for_each each (fun x => print (pre ++ to_str x))
     else print none) o
    = print_all (match entries with
                 | [] => [none]
                 | _ => map (fun x => pre ++ x) entries
                 end) o.
Proof.
  intros H o. rewrite (item_found _ _ _ H).
  destruct entries as [|x xs]; [now rewrite print_one|].
  apply (for_each_strs pre (x :: xs)).
Qed.

Lemma sliced_block (d : dict) (k : string) (limit : nat) (pre none : str)
  (entries : list str) :
  lookup (lit k) d = Some (strs entries) ->
  forall o,
    (v <- item d k ;;
     if truthy v then
       v' <- item d k ;;
       first <- slice_to limit v' ;;
       shown <- iterate first ;;
       for_each shown (fun x => print (pre ++ to_str x))
     else print none) o
    = print_all (match entries with
                 | [] => [none]
                 | _ => map (fun x => pre ++ x) (firstn limit entries)
                 end) o.
Proof.
  intros H o. rewrite (item_found _ _ _ H).
  destruct entries as [|x xs]; [now rewrite print_one|].
  apply (shown_prints limit pre (x :: xs)).
Qed.

Lemma counted_block (d : dict) (k : string) (limit : nat) (bound : Z)
  (pre none : str) (entries : list str) :
  lookup (lit k) d = Some (strs entries) ->
  forall o,
    (v <- item d k ;;
     if truthy v then
       (v' <- item d k ;;
        first <- slice_to limit v' ;;
        shown <- iterate first ;;
        for_each shown (fun x => print (pre ++ to_str x))) ;;
       (v' <- item d k ;;
        n <- length_of v' ;;
        when (bound <? n)
          (v'' <- item d k ;;
           m <- length_of v'' ;;
           print (lit "  ... and " ++ decimal (m - bound) ++ lit " more")))
     else print none) o
    = print_all (match entries with
                 | [] => [none]
                 | _ => map (fun x => pre ++ x) (firstn limit entries)
                        ++ (if bound <? len entries
                            then [and_more (len entries - bound)] else [])
                 end) o.
Proof.
  intros H o. rewrite (item_found _ _ _ H).
  destruct entries as [|x xs]; [now rewrite print_one|].
  revert o. apply seq_prints; intros o.
  - apply (shown_prints limit pre (x :: xs)).
  - change (when (bound <? len (map VStr (x :: xs)))
              (print (and_more (len (map VStr (x :: xs)) - bound))) o
            = print_all (if bound <? len (x :: xs)
                         then [and_more (len (x :: xs) - bound)] else []) o).
    unfold len. rewrite length_map. apply when_prints.
Qed.

Lemma issues_block (d : dict) (k : string) (head pre none : str)
  (entries : list str) :
  lookup (lit k) d = Some (strs entries) ->
  forall o,
    (v <- item d k ;;
     if truthy v then
       print head ;;
       v' <- item d k ;;
       each <- iterate v' ;;
       for_each each (fun x => print (pre ++ to_str x))
     else print none) o
    = print_all (match entries with
                 | [] => [none]
                 | _ => head :: map (fun x => pre ++ x) entries
                 end) o.
Proof.
  intros H o. rewrite (item_found _ _ _ H).
  destruct entries as [|x xs]; [now rewrite print_one|].
  revert o. apply step_print; [reflexivity|]. intros o.
  apply (for_each_strs pre (x :: xs)).
Qed.

Lemma missing_block (d : dict) (k : string) (w s : str) (entries : list str) :
  lookup (lit k) d = Some (strs entries) ->
  forall o,
    (v <- item d k ;;
     b <- not_in w v ;;
     when b (print s)) o
    = print_all (if existsb (str_eqb w) entries then [] else [s]) o.
Proof.
  intros H o. rewrite (item_found _ _ _ H).
  change (when (negb (existsb (eq_str w) (map VStr entries))) (print s) o
          = print_all (if existsb (str_eqb w) entries then [] else [s]) o).
  rewrite existsb_eq_str, when_prints.
  now destruct (existsb (str_eqb w) entries).
Qed.

Lemma empty_block (d : dict) (k : string) (s : str) (entries : list str) :
  lookup (lit k) d = Some (strs entries) ->
  forall o,
    (v <- item d k ;;
     when (negb (truthy v)) (print s)) o
    = print_all (match entries with [] => [s] | _ => [] end) o.
Proof.
  intros H o. rewrite (item_found _ _ _ H).
  destruct entries; [now rewrite print_one|reflexivity].
Qed.

Lemma display_analysis_prints (chars words lines : Z)
  (found skills experience education contact issues : list str)
  (filename : str) (o : list str) :
  display_analysis
    (Cvf.cvf_dict chars words (map VStr found) (map VStr skills)
       (map VStr experience) (map VStr education) (map VStr contact)
       (map VStr issues) lines)
    filename o
  = print_all (report chars words lines found skills experience education
                 contact issues filename) o.
Proof.
  revert o. unfold display_analysis, report.
  cbn [app].
  do 7 (apply step_print; [reflexivity|]).
  apply seq_prints; [now apply plain_block|].
  apply step_print; [reflexivity|].
  apply seq_prints; [now apply (counted_block _ _ 10 10)|].
  apply step_print; [reflexivity|].
  apply seq_prints; [now apply (counted_block _ _ 5 5)|].
  apply step_print; [reflexivity|].
  apply seq_prints; [now apply sliced_block|].
  apply step_print; [reflexivity|].
  apply seq_prints; [now apply plain_block|].
  apply seq_prints; [now apply issues_block|].
  apply step_print; [reflexivity|].
  apply seq_prints; [now apply missing_block|].
  apply seq_prints; [now apply empty_block|].
  apply seq_prints; [now apply empty_block|].
  apply seq_prints; [now apply empty_block|].
  apply step_print; [reflexivity|].
  intros o. symmetry. apply print_one.
Qed.

End PrintFacts.

(** ** Reading and the command line *)
Section MainFacts.
Import Py Re Obj Codec Cli.
Local Open Scope io_scope.
Context {U : UnicodeDB} {W : Host}.

(** [read_file] stops at the first or at the second encoding. *)
Lemma read_file_outcome (file_path : str) :
  read_file file_path
  = match open_read file_path with
    | inl text => inl (OSError text)
    | inr bs => inr (decoded bs)
    end.
Proof.
  unfold read_file, encodings, try_encodings, read_text, decode, decoded.
  destruct (open_read file_path) as [text|bs]; [reflexivity|].
  destruct (decode_utf8 bs); reflexivity.
Qed.


Lemma print_encodable (s : str) (o : list str) :
  forallb encodable s = true -> print s o = (inr tt, o ++ [s]).
Proof. intros H. unfold print. now rewrite H. Qed.

End MainFacts.

Section MainMoreFacts.
Import Py Re Obj Codec Cli.
Local Open Scope io_scope.
Context {U : UnicodeDB} {W : Host}.

Lemma bind_print {A} (s : str) (f : unit -> IO A) (o : list str) :
  forallb encodable s = true -> bind (print s) f o = f tt (o ++ [s]).
Proof. intros H. unfold bind. now rewrite (print_encodable s o H). Qed.

Lemma step_then {A} (seg : IO unit) (rest rest' : IO A) (s : str) :
  (forall o, seg o = print s o) ->
  (forall o, rest o = rest' o) ->
  forall o, bind seg (fun _ => rest) o = bind (print s) (fun _ => rest') o.
Proof. intros Hs Hr o. apply bind_ext; auto. Qed.

(** The lines before the first one the output cannot encode are printed,
    and no other. *)
Lemma print_all_stops (l : list str) (n : nat) :
  forall o,
    (n < length l)%nat ->
    Forall (fun s => forallb encodable s = true) (firstn n l) ->
    forallb encodable (nth n l []) = false ->
    print_all l o = (inl UnicodeEncodeError, o ++ firstn n l).
Proof.
  revert n; induction l as [|s l IH]; intros n o Hn Hf Hs; [simpl in Hn; lia|].
  unfold print_all in *. cbn [for_each].
  destruct n as [|n].
  - simpl in Hs. unfold bind, print. rewrite Hs. simpl. now rewrite app_nil_r.
  - simpl in Hn, Hf, Hs. inversion Hf as [|? ? H1 H2]; subst.
    rewrite bind_print by exact H1.
    rewrite (IH n (o ++ [s])); [|lia|exact H2|exact Hs].
    now rewrite <- app_assoc.
Qed.

Lemma bind_lift_inr {A B} (a : A) (f : A -> IO B) (o : list str) :
  bind (lift (inr a)) f o = f a o.
Proof. reflexivity. Qed.

(** The statements under [try] for a file that was read and decoded. *)
Lemma main_body_prints (decoded_file : str * str) (cv_file : str) (o : list str) :
  (r <- lift (inr decoded_file) ;;
   let '(cv_text, encoding) := r in
   print (utf8 "✅ File read successfully using " ++ encoding
          ++ lit " encoding") ;;
   analysis <- lift (match Cvf.analyze_cv_structure cv_text with
                     | inl e => inl (of_exn e)
                     | inr d => inr d
                     end) ;;
   display_analysis analysis cv_file) o
  = print_all
      ((utf8 "✅ File read successfully using " ++ snd decoded_file
        ++ lit " encoding")
       :: report_of (fst decoded_file) cv_file) o.
Proof.
  destruct decoded_file as [cv_text encoding]. cbn [fst snd].
  unfold bind at 1. unfold lift at 1. cbv beta iota.
  rewrite analyze_cv_structure_returns.
  revert o. apply step_print; [reflexivity|].
  intros o. apply display_analysis_prints.
Qed.

(** What [main] does on a command line of two arguments whose file exists
    and can be opened. *)
Lemma main_reads (bs : bytes) :
  length argv = 2%nat ->
  path_exists (nth 1 argv []) = inr true ->
  open_read (nth 1 argv []) = inr bs ->
  forall o,
    main o
    = try_except
        (print_all
           ((utf8 "✅ File read successfully using " ++ snd (decoded bs)
             ++ lit " encoding")
            :: report_of (fst (decoded bs)) (nth 1 argv [])))
        (fun e => print (utf8 "❌ Error reading file: " ++ text_of e)) o.
Proof.
  intros Ha He Hr o. unfold main.
  replace (len argv =? 2) with true by (unfold len; now rewrite Ha).
  rewrite He. cbn [negb]. cbv iota. rewrite bind_lift_inr. cbn [negb]. cbv iota.
  unfold try_except. rewrite read_file_outcome, Hr.
  now rewrite main_body_prints.
Qed.

End MainMoreFacts.


(** ** What the output has to encode *)
Section ScalarFacts.
Import Py Re Obj Codec Cli Notions.
Context {U : UnicodeDB} {W : Host}.




















End ScalarFacts.


(** * Further properties of the file reader, the report and the command line *)

Import Codec Cli.

(** X12. [read_file] tries at most two encodings. When the file cannot be
    opened, the exception of [open] leaves the function. When it can, the
    function returns: the text decoded as UTF-8 with the name "utf-8" if
    the bytes are well-formed UTF-8, and otherwise the text decoded as
    Latin-1 with the name "latin-1", both with the line ends translated.
    It never returns "cp1252", never raises [UnicodeDecodeError] and never
    reaches its last line, the "Could not read file" exception. *)
Theorem X12_read_file_outcome {W : Host} (file_path : str) :
  (forall text, open_read file_path = inl text ->
                read_file file_path = inl (OSError text))
  /\ (forall bs t, open_read file_path = inr bs -> decode_utf8 bs = Some t ->
                   read_file file_path = inr (universal_newlines t, lit "utf-8"))
  /\ (forall bs, open_read file_path = inr bs -> decode_utf8 bs = None ->
                 read_file file_path
                 = inr (universal_newlines (decode_latin1 bs), lit "latin-1"))
  /\ read_file file_path <> inl (Exception_ could_not_read)
  /\ read_file file_path <> inl UnicodeDecodeError
  /\ (forall text, read_file file_path <> inr (text, lit "cp1252")).
Proof.
  rewrite read_file_outcome. unfold decoded.
  destruct (open_read file_path) as [text|bs].
  - repeat split; intros; try discriminate; congruence.
  - destruct (decode_utf8 bs) as [t|] eqn:E;
      (split; [intros; discriminate|]);
      (split; [intros bs0 t0 [= <-] E'; congruence|]);
      (split; [intros bs0 [= <-] E'; congruence|]);
      (split; [discriminate|]); (split; [discriminate|]);
      intros text [= _ H']; vm_compute in H'; discriminate.
Qed.

(** X13. The text [read_file] returns for a file it could open holds no
    carriage return, holds only Unicode scalar values (no surrogate,
    nothing above U+10FFFF), and has at most as many characters as the file
    has bytes. *)
Theorem X13_text_read_from_a_file {W : Host} (file_path : str) (bs : bytes) :
  open_read file_path = inr bs ->
  exists text encoding,
    read_file file_path = inr (text, encoding)
    /\ Forall (fun c => c <> 13) text
    /\ Forall scalar_value text
    /\ (length text <= length bs)%nat.
Proof.
  intros H. rewrite read_file_outcome, H. unfold decoded.
  destruct (decode_utf8 bs) as [t|] eqn:E.
  - exists (universal_newlines t), (lit "utf-8"). split; [reflexivity|].
    destruct (decode_utf8_sound _ _ E) as [Hs Hl].
    destruct (universal_newlines_sound (length t) t (le_n _)) as (H1 & H2 & H3).
    split; [exact H1|]. split; [|lia].
    apply H3; [left; unfold NL; lia|exact Hs].
  - exists (universal_newlines (decode_latin1 bs)), (lit "latin-1").
    split; [reflexivity|].
    destruct (decode_latin1_sound bs) as [Hs Hl].
    destruct (universal_newlines_sound _ (decode_latin1 bs) (le_n _))
      as (H1 & H2 & H3).
    split; [exact H1|]. split; [|lia].
    apply H3; [left; unfold NL; lia|].
    revert Hs. apply Forall_impl. intros c Hc. left. lia.
Qed.

(** The file "cv.txt" of the sample machine, which has CR LF line ends. *)
Lemma X13_text_read_witness :
  exists text encoding,
    @read_file (Samples.machine [] Samples.utf8_console) (lit "cv.txt")
      = inr (text, encoding)
    /\ Forall (fun c => c <> 13) text
    /\ Forall scalar_value text
    /\ (length text <= length Samples.cv_bytes)%nat.
Proof.
  apply (@X13_text_read_from_a_file (Samples.machine [] Samples.utf8_console)).
  reflexivity.
Defined.

(** X14. For a file of ASCII bytes without a carriage return, [read_file]
    returns the bytes as they are, as characters, with the name "utf-8", and
    [total_chars] of the analysis of this text is the size of the file. *)
Theorem X14_ascii_file_read_as_it_is {U : UnicodeDB} {W : Host}
  (file_path : str) (bs : bytes) :
  open_read file_path = inr bs ->
  Forall (fun b => byte_value b < 128 /\ byte_value b <> 13) bs ->
  read_file file_path = inr (map byte_value bs, lit "utf-8")
  /\ field (Cvf.analyze_cv_structure (map byte_value bs)) "total_chars"
     = Some (VInt (Z.of_nat (length bs))).
Proof.
  intros H Hbs. rewrite read_file_outcome, H. unfold decoded, decode_utf8.
  rewrite utf8_values_ascii.
  - rewrite universal_newlines_plain.
    + split; [reflexivity|].
      rewrite analyze_cv_structure_returns, field_returns.
      change (Some (VInt (len (map byte_value bs)))
              = Some (VInt (Z.of_nat (length bs)))).
      unfold len. now rewrite length_map.
    + apply Forall_map. revert Hbs. apply Forall_impl. tauto.
  - apply Forall_map. revert Hbs. apply Forall_impl. intros b [Hb _].
    pose proof (byte_value_range b). lia.
Qed.

Lemma X14_ascii_file_witness :
  @read_file (Samples.machine [] Samples.utf8_console) (lit "plain.txt")
    = inr (map byte_value Samples.ascii_bytes, lit "utf-8")
  /\ field (@Cvf.analyze_cv_structure ascii_db (map byte_value Samples.ascii_bytes))
           "total_chars"
     = Some (VInt (Z.of_nat (length Samples.ascii_bytes))).
Proof.
  apply (@X14_ascii_file_read_as_it_is ascii_db
           (Samples.machine [] Samples.utf8_console)).
  - reflexivity.
  - repeat constructor; vm_compute; congruence.
Defined.

(** A line of a list put together with [++]. *)
Ltac seek tac :=
  first [ solve [tac]
        | apply in_or_app; left; solve [seek tac]
        | apply in_or_app; right; seek tac ].


(** X16. Whatever the analysis holds, the report shows every section
    found, every contact entry and every potential issue, each on a line
    of its own, and the first ten skills and the first five experience and
    education entries; and its last two lines are the two standing
    recommendations. *)
Theorem X16_what_the_report_shows {W : Host}
  (chars words lines : Z)
  (found skills experience education contact issues : list str)
  (filename : str) :
  exists shown : list str,
    (forall o,
       display_analysis
         (Cvf.cvf_dict chars words (map VStr found) (map VStr skills)
            (map VStr experience) (map VStr education) (map VStr contact)
            (map VStr issues) lines)
         filename o
       = print_all shown o)
    /\ Forall (fun x => In (ticked x) shown)
              (found ++ contact ++ firstn 10 skills ++ firstn 5 experience
               ++ firstn 5 education)
    /\ Forall (fun x => In (bulleted x) shown) issues
    /\ exists before,
         shown = before
                 ++ [ utf8 "  • Use keywords from job descriptions you're applying to";
                      utf8 "  • Quantify achievements with numbers when possible" ].
Proof.
  exists (report chars words lines found skills experience education contact
            issues filename).
  split; [intros o; apply display_analysis_prints|].
  split; [|split].
  - unfold report.
    repeat (apply Forall_app; split); apply Forall_forall; intros x Hx;
      [ destruct found | destruct contact | destruct skills
      | destruct experience | destruct education ];
      try (now destruct Hx);
      seek ltac:(apply (in_map ticked); exact Hx).
  - unfold report. apply Forall_forall; intros x Hx.
    destruct issues; [contradiction|].
    seek ltac:(right; apply (in_map bulleted); exact Hx).
  - unfold report. rewrite !app_assoc. eexists. reflexivity.
Qed.

(** X17. The report tells nothing of a skill beyond the tenth but that it
    is there, and nothing at all of an education entry beyond the fifth:
    [display_analysis] prints the same for two analyses whose skills agree
    on the first ten and in number, and the same when the education entries
    are cut after the fifth. *)
Theorem X17_entries_beyond_the_limits {W : Host}
  (chars words lines : Z)
  (found skills skills' experience education contact issues : list str)
  (filename : str) :
  firstn 10 skills = firstn 10 skills' ->
  length skills = length skills' ->
  forall o,
    display_analysis
      (Cvf.cvf_dict chars words (map VStr found) (map VStr skills)
         (map VStr experience) (map VStr education) (map VStr contact)
         (map VStr issues) lines)
      filename o
    = display_analysis
        (Cvf.cvf_dict chars words (map VStr found) (map VStr skills')
           (map VStr experience) (map VStr (firstn 5 education))
           (map VStr contact) (map VStr issues) lines)
        filename o.
Proof.
  intros Hf Hl o. rewrite !display_analysis_prints. f_equal.
  unfold report, len. rewrite firstn_firstn, <- Hf, <- Hl.
  replace (match firstn 5 education with
           | [] => [utf8 "  ❌ No education information found"]
           | _ :: _ => map ticked (firstn (Nat.min 5 5) education)
           end)
    with (match education with
          | [] => [utf8 "  ❌ No education information found"]
          | _ :: _ => map ticked (firstn 5 education)
          end) by (destruct education; reflexivity).
  destruct skills, skills'; try discriminate; reflexivity.
Qed.

(** Two lists of eleven skills with different last ones. *)
Lemma X17_entries_beyond_witness :
  @display_analysis (Samples.machine [] Samples.utf8_console)
    (Cvf.cvf_dict 0 0 [] (map VStr Samples.eleven_skills) [] [] [] [] 1)
    (lit "cv.txt") []
  = @display_analysis (Samples.machine [] Samples.utf8_console)
      (Cvf.cvf_dict 0 0 [] (map VStr Samples.eleven_others) [] [] [] [] 1)
      (lit "cv.txt") [].
Proof.
  apply (@X17_entries_beyond_the_limits
           (Samples.machine [] Samples.utf8_console)
           0 0 1 [] Samples.eleven_skills Samples.eleven_others [] [] [] []);
    reflexivity.
Defined.

(** X18. [display_analysis] reads [total_lines], which the dictionary of
    [analyze_cv] in rep.py does not have: on that dictionary it prints the
    title, the rule and the first three lines of the statistics, and raises
    [KeyError] for 'total_lines'. *)
Theorem X18_report_needs_total_lines {U : UnicodeDB} {W : Host}
  (cv_text filename : str) (o : list str) :
  let shown :=
    [ utf8 "📄 CV Analysis Report for: " ++ filename;
      repeat (ord "=") 60;
      NL :: utf8 "📊 Basic Statistics:";
      utf8 "  • Characters: " ++ thousands (len cv_text);
      utf8 "  • Words: " ++ thousands (len (split cv_text)) ] in
  Forall (fun s => forallb encodable s = true) shown ->
  exists d,
    Rep.analyze_cv cv_text = inr d
    /\ display_analysis d filename o
       = (inl (KeyError (lit "total_lines")), o ++ shown).
Proof.
  intros shown H. rewrite analyze_cv_returns.
  exists (Rep.analysis_of cv_text). split; [reflexivity|].
  assert (E : forall o',
            display_analysis (Rep.analysis_of cv_text) filename o'
            = fold_right (fun s rest => bind (print s) (fun _ => rest))
                (raise (KeyError (lit "total_lines"))) shown o').
  { unfold display_analysis, shown. cbn [fold_right].
    do 5 (apply step_then; [reflexivity|]).
    intros o'. reflexivity. }
  rewrite E. unfold shown in *. cbn [fold_right].
  repeat match goal with
         | H : Forall _ (_ :: _) |- _ => inversion H; subst; clear H
         end.
  rewrite !bind_print by assumption.
  unfold raise. now rewrite <- !app_assoc.
Qed.

Lemma X18_report_needs_total_lines_witness :
  exists d,
    @Rep.analyze_cv ascii_db Samples.from_header_on = inr d
    /\ exists shown,
         @display_analysis (Samples.machine [] Samples.utf8_console) d
           (lit "cv.txt") []
         = (inl (KeyError (lit "total_lines")), shown).
Proof.
  destruct (@X18_report_needs_total_lines ascii_db
              (Samples.machine [] Samples.utf8_console)
              Samples.from_header_on (lit "cv.txt") [])
    as (d & Hd & Hp).
  - apply encodable_lines. vm_compute. reflexivity.
  - exists d. split; [exact Hd|]. eexists. exact Hp.
Defined.


(** X20. Called with no argument or with more than one, [main] prints the
    two lines of the usage and nothing else. *)
Theorem X20_main_usage {U : UnicodeDB} {W : Host} :
  length argv <> 2%nat ->
  forall o,
    main o
    = print_all [ lit "Usage: python3 cv_format_checker.py <cv_file>";
                  lit "Example: python3 cv_format_checker.py my_cv.pdf" ] o.
Proof.
  intros H o. unfold main.
  replace (len argv =? 2) with false by (unfold len; lia).
  cbn [negb]. cbv iota. unfold print_all. cbn [for_each].
  apply bind_ext; [reflexivity|]. intros _ o'.
  symmetry. apply (print_one _ o').
Qed.

Lemma X20_main_usage_witness :
  @main ascii_db (Samples.machine ["cvf.py"]%string Samples.utf8_console) []
  = (inr tt, [ lit "Usage: python3 cv_format_checker.py <cv_file>";
               lit "Example: python3 cv_format_checker.py my_cv.pdf" ]).
Proof.
  rewrite (@X20_main_usage ascii_db
             (Samples.machine ["cvf.py"]%string Samples.utf8_console));
    [vm_compute; reflexivity|vm_compute; discriminate].
Defined.

(** X21. Called with the name of a file that does not exist ([exists]
    answers [False]), [main] prints one line, "File not found" with the
    name, and opens nothing. *)
Theorem X21_main_file_not_found {U : UnicodeDB} {W : Host} :
  length argv = 2%nat ->
  path_exists (nth 1 argv []) = inr false ->
  forall o,
    main o = print (utf8 "❌ File not found: " ++ nth 1 argv []) o.
Proof.
  intros Ha He o. unfold main.
  replace (len argv =? 2) with true by (unfold len; now rewrite Ha).
  now rewrite He.
Qed.

Lemma X21_main_file_not_found_witness :
  @main ascii_db
    (Samples.machine ["cvf.py"; "none.txt"]%string Samples.utf8_console) []
  = (inr tt, [utf8 "❌ File not found: none.txt"]).
Proof.
  rewrite (@X21_main_file_not_found ascii_db
             (Samples.machine ["cvf.py"; "none.txt"]%string Samples.utf8_console));
    vm_compute; reflexivity.
Defined.

(** X22. When the file exists and cannot be opened, a directory for one,
    [main] prints one line, "Error reading file" with the text of the
    exception of [open]. *)
Theorem X22_main_file_not_opened {U : UnicodeDB} {W : Host} (text : str) :
  length argv = 2%nat ->
  path_exists (nth 1 argv []) = inr true ->
  open_read (nth 1 argv []) = inl text ->
  forall o,
    main o = print (utf8 "❌ Error reading file: " ++ text) o.
Proof.
  intros Ha He Hr o. unfold main.
  replace (len argv =? 2) with true by (unfold len; now rewrite Ha).
  rewrite He. cbn [negb]. cbv iota. rewrite bind_lift_inr. cbn [negb]. cbv iota.
  unfold try_except. rewrite read_file_outcome, Hr. reflexivity.
Qed.

Lemma X22_main_file_not_opened_witness :
  @main ascii_db
    (Samples.machine ["cvf.py"; "dir"]%string Samples.utf8_console) []
  = (inr tt, [utf8 "❌ Error reading file: [Errno 21] Is a directory: 'dir'"]).
Proof.
  rewrite (@X22_main_file_not_opened ascii_db
             (Samples.machine ["cvf.py"; "dir"]%string Samples.utf8_console)
             (lit "[Errno 21] Is a directory: 'dir'"));
    vm_compute; reflexivity.
Defined.




(** X24. Whatever fails under [try] is reported as an error of reading.
    When the file was read and the output has the characters of the first
    line but not the page emoji U+1F4C4 the title of the report starts
    with, [main] prints the line "File read successfully" and then "Error
    reading file" with the text of the [UnicodeEncodeError]. *)
Theorem X24_main_blames_the_reading {U : UnicodeDB} {W : Host} (bs : bytes) :
  let cv_file := nth 1 argv [] in
  let first :=
    utf8 "✅ File read successfully using " ++ snd (decoded bs)
    ++ lit " encoding" in
  length argv = 2%nat ->
  path_exists cv_file = inr true ->
  open_read cv_file = inr bs ->
  forallb encodable first = true ->
  encodable 128196 = false ->
  forall o,
    main o
    = print (utf8 "❌ Error reading file: " ++ str_exception UnicodeEncodeError)
        (o ++ [first]).
Proof.
  intros cv_file first Ha He Hr Hf Hx o.
  rewrite (main_reads bs Ha He Hr). unfold try_except.
  fold cv_file. fold first.
  rewrite (print_all_stops _ 1 o).
  - reflexivity.
  - unfold report_of, report. simpl. lia.
  - now repeat constructor.
  - change (forallb encodable (128196 :: utf8 " CV Analysis Report for: "
                               ++ cv_file) = false).
    cbn [forallb]. now rewrite Hx.
Qed.

(** On an output without the characters from U+10000 on, the title of the
    report cannot be printed. *)
Lemma X24_main_blames_the_reading_witness :
  @main ascii_db
    (Samples.machine ["cvf.py"; "cv.txt"]%string Samples.bmp_console) []
  = (inr tt, [ utf8 "✅ File read successfully using utf-8 encoding";
               utf8 "❌ Error reading file: ..." ]).
Proof.
  rewrite (@X24_main_blames_the_reading ascii_db
             (Samples.machine ["cvf.py"; "cv.txt"]%string Samples.bmp_console)
             Samples.cv_bytes).
  - vm_compute. reflexivity.
  - reflexivity.
  - reflexivity.
  - reflexivity.
  - vm_compute. reflexivity.
  - reflexivity.
Defined.


(** X26. The call [Path(cv_file).exists()] stands before the [try]: when it
    raises, for a name that is too long or in a directory that may not be
    searched, the [OSError] leaves [main], and nothing has been printed,
    neither "File not found" nor "Error reading file". *)
Theorem X26_main_exists_raises {U : UnicodeDB} {W : Host} (text : str) :
  length argv = 2%nat ->
  path_exists (nth 1 argv []) = inl text ->
  forall o, main o = (inl (OSError text), o).
Proof.
  intros Ha He o. unfold main.
  replace (len argv =? 2) with true by (unfold len; now rewrite Ha).
  now rewrite He.
Qed.

Lemma X26_main_exists_raises_witness :
  @main ascii_db
    (Samples.machine ["cvf.py"; "locked/cv.txt"]%string Samples.utf8_console) []
  = (inl (OSError (lit "[Errno 13] Permission denied: 'locked/cv.txt'")), []).
Proof.
  rewrite (@X26_main_exists_raises ascii_db
             (Samples.machine ["cvf.py"; "locked/cv.txt"]%string
                Samples.utf8_console)
             (lit "[Errno 13] Permission denied: 'locked/cv.txt'"));
    reflexivity.
Defined.


(** ** The form of a match *)
Section ShapeFacts.
Import Py Re Notions.
Context {U : UnicodeDB}.

Lemma repeat_atom_shape {A} (ic : bool) (a : atom) (s : str) :
  forall lo hi prev (k : option Z -> str -> option A) x,
    repeat_atom ic a lo hi prev s k = Some x ->
    exists m p t, s = m ++ t /\ k p t = Some x
                  /\ shape ic (Repeat a lo hi) m.
Proof.
  induction s as [|c s IH]; intros lo hi prev k x H.
  - assert (E : repeat_atom ic a lo hi prev [] k
                = match lo with O => k prev [] | S _ => None end).
    { destruct hi as [[|h]|]; reflexivity. }
    rewrite E in H. destruct lo; [|discriminate].
    exists [], prev, []. repeat split; auto. destruct hi; simpl; lia.
  - assert (Hstop : match lo with O => k prev (c :: s) | S _ => None end = Some x ->
                    exists m p t, c :: s = m ++ t /\ k p t = Some x
                                  /\ shape ic (Repeat a lo hi) m).
    { destruct lo; [|discriminate]. intros Hk.
      exists [], prev, (c :: s). repeat split; auto. destruct hi; simpl; lia. }
    destruct hi as [[|h]|]; cbn [repeat_atom option_map] in H.
    + apply Hstop, H.
    + destruct (atom_match ic a c) eqn:Hc; [|apply Hstop, H].
      destruct (repeat_atom ic a (pred lo) (Some (pred (S h))) (Some c) s k)
        as [y|] eqn:E; [|apply Hstop, H].
      injection H as ->.
      destruct (IH _ _ _ _ _ E) as (m & p & t & -> & Hk & Hf & Hlo & Hhi).
      exists (c :: m), p, t. split; [reflexivity|]. split; [exact Hk|].
      simpl in *. split; [now constructor|]. lia.
    + destruct (atom_match ic a c) eqn:Hc; [|apply Hstop, H].
      destruct (repeat_atom ic a (pred lo) None (Some c) s k)
        as [y|] eqn:E; [|apply Hstop, H].
      injection H as ->.
      destruct (IH _ _ _ _ _ E) as (m & p & t & -> & Hk & Hf & Hlo & _).
      exists (c :: m), p, t. split; [reflexivity|]. split; [exact Hk|].
      simpl in *. split; [now constructor|]. lia.
Qed.

(** What the matcher has read when it hands over is a text of the form of
    the pattern. *)
Lemma run_shape {A} (ic : bool) (r : regex) :
  forall prev s (k : option Z -> str -> option A) x,
    run ic r prev s k = Some x ->
    exists m p t, s = m ++ t /\ k p t = Some x /\ shape ic r m.
Proof.
  induction r as [| a | | r1 IH1 r2 IH2 | r1 IH1 r2 IH2 | r1 IH1 | a lo hi];
    intros prev s k x H; cbn [run] in H.
  - exists [], prev, s. now repeat split.
  - destruct s as [|c s]; [discriminate|].
    destruct (atom_match ic a c) eqn:Hc; [|discriminate].
    exists [c], (Some c), s. repeat split; auto. now exists c.
  - destruct (at_boundary prev s); [|discriminate].
    exists [], prev, s. now repeat split.
  - destruct (IH1 _ _ _ _ H) as (m1 & p1 & t1 & -> & H2 & Hs1).
    destruct (IH2 _ _ _ _ H2) as (m2 & p2 & t2 & -> & Hk & Hs2).
    exists (m1 ++ m2), p2, t2. split; [now rewrite app_assoc|]. split; [exact Hk|].
    now exists m1, m2.
  - destruct (run ic r1 prev s k) as [y|] eqn:E.
    + injection H as ->. destruct (IH1 _ _ _ _ E) as (m & p & t & -> & Hk & Hs).
      exists m, p, t. repeat split; auto. now left.
    + destruct (IH2 _ _ _ _ H) as (m & p & t & -> & Hk & Hs).
      exists m, p, t. repeat split; auto. now right.
  - destruct (run ic r1 prev s k) as [y|] eqn:E.
    + injection H as ->. destruct (IH1 _ _ _ _ E) as (m & p & t & -> & Hk & Hs).
      exists m, p, t. repeat split; auto. now left.
    + exists [], prev, s. repeat split; auto. now right.
  - apply (repeat_atom_shape _ _ _ _ _ _ _ _ H).
Qed.

Lemma match_len_shape (ic : bool) (r : regex) (prev : option Z) (s : str)
  (must_advance : bool) (n : nat) :
  match_len ic r prev s must_advance = Some n -> shape ic r (firstn n s).
Proof.
  unfold match_len. intros H.
  destruct (run_shape _ _ _ _ _ _ H) as (m & p & t & -> & Hk & Hs).
  rewrite length_app in Hk.
  replace (length m + length t - length t)%nat with (length m) in Hk by lia.
  destruct (must_advance && (length m =? 0)%nat); [discriminate|].
  injection Hk as <-.
  rewrite firstn_app, Nat.sub_diag, firstn_all. simpl. now rewrite app_nil_r.
Qed.

(** Every match [re.findall] lists has the form of the pattern. *)
Lemma findall_scan_shape (ic : bool) (r : regex) (s : str) :
  forall prev skip, Forall (shape ic r) (findall_scan ic r prev s skip).
Proof.
  induction s as [|c s IH]; intros prev skip.
  - destruct skip; simpl; [|constructor].
    destruct (match_len ic r prev [] false) as [[|n]|] eqn:E; try constructor.
    + apply (match_len_shape _ _ _ _ _ _ E).
    + destruct (match_len ic r prev [] true) as [[|m]|] eqn:E';
        try constructor.
      * apply (match_len_shape _ _ _ _ _ _ E').
      * constructor.
    + apply (match_len_shape _ _ _ _ _ _ E).
    + constructor.
  - destruct skip as [|k]; cbn [findall_scan]; [|apply IH].
    destruct (match_len ic r prev (c :: s) false) as [[|n]|] eqn:E.
    + constructor; [apply (match_len_shape _ _ _ _ _ _ E)|].
      destruct (match_len ic r prev (c :: s) true) as [[|m]|] eqn:E'.
      * apply IH.
      * constructor; [apply (match_len_shape _ _ _ _ _ _ E')|apply IH].
      * apply IH.
    + constructor; [apply (match_len_shape _ _ _ _ _ _ E)|apply IH].
    + apply IH.
Qed.

Lemma findall_shape (p : pattern) (cv_text : str) (ignorecase : bool) :
  Forall (shape (flag_i p ignorecase) (body p)) (findall p cv_text ignorecase).
Proof. apply findall_scan_shape. Qed.

End ShapeFacts.


Section FormFacts.
Import Py Re Notions.
Context {U : UnicodeDB}.

Lemma forall_forallb {A} (f : A -> bool) (l : list A) :
  Forall (fun x => f x = true) l -> forallb f l = true.
Proof. intros H. apply forallb_forall. now apply Forall_forall. Qed.

Lemma forall_same {A} (f g : A -> bool) (l : list A) :
  (forall x, f x = g x) ->
  Forall (fun x => f x = true) l -> Forall (fun x => g x = true) l.
Proof. intros E. apply Forall_impl. intros x. now rewrite E. Qed.

Lemma email_pattern_form (m : str) :
  shape false (body Rep.email_pattern) m -> email_form m.
Proof.
  intros (local & m2 & -> & (Hl & Hn & _) & at_ & m3 & -> & (c1 & -> & Hc1)
          & domain & m4 & -> & (Hd & Hdn & _) & dot & tld & ->
          & (c2 & -> & Hc2) & (Ht & Htn & _)).
  apply Z.eqb_eq in Hc1, Hc2. subst c1 c2.
  exists local, domain, tld. split; [reflexivity|].
  split; [destruct local; [simpl in Hn; lia|discriminate]|].
  split.
  { apply forall_forallb. revert Hl. apply forall_same. intros c.
    unfold local_char, ascii_letter, ascii_digit. simpl.
    now rewrite !orb_false_r, !orb_assoc. }
  split; [destruct domain; [simpl in Hdn; lia|discriminate]|].
  split.
  { apply forall_forallb. revert Hd. apply forall_same. intros c.
    unfold domain_char, ascii_letter, ascii_digit. simpl.
    now rewrite !orb_false_r, !orb_assoc. }
  split; [exact Htn|].
  apply forall_forallb. revert Ht. apply forall_same. intros c.
  unfold ascii_letter. simpl. now rewrite !orb_false_r.
Qed.

Lemma phone_pattern_form (m : str) :
  shape false (body Rep.phone_pattern) m -> phone_form m.
Proof.
  intros (sign & m2 & -> & Hs & digit & rest & -> & (d & -> & Hd)
          & (Hr & Hn & _)).
  exists sign, d, rest. split; [reflexivity|].
  split.
  { destruct Hs as [(c & -> & Hc)| ->]; [right|now left].
    apply Z.eqb_eq in Hc. now subst. }
  split; [exact Hd|]. split; [exact Hn|].
  apply forall_forallb. revert Hr. apply forall_same. intros c.
  simpl. now rewrite !orb_false_r, !orb_assoc.
Qed.

End FormFacts.

(** X25. In [analyze_cv], [contact_info] is a list of addresses followed
    by a list of phone numbers. Every address reads local@domain.tld: a
    local part that is not empty, of ASCII letters, digits and the
    characters . _ % + -, then an at sign, a domain that is not empty, of
    ASCII letters, digits, dots and hyphens, then a dot, then two ASCII
    letters or more. Every phone number is an optional plus sign, a decimal
    digit, and seven characters or more, each a decimal digit, whitespace
    or a hyphen: it has eight characters at least. *)
Theorem X25_rep_contact_forms {U : UnicodeDB} (cv_text : str) :
  exists emails phones : list str,
    field (Rep.analyze_cv cv_text) "contact_info" = Some (strs (emails ++ phones))
    /\ Forall email_form emails
    /\ Forall phone_form phones
    /\ Forall (fun m => (8 <= length m)%nat) phones.
Proof.
  rewrite analyze_cv_returns, field_returns.
  exists (Rep.emails cv_text), (Rep.phones cv_text).
  split; [reflexivity|].
  assert (He : Forall email_form (Rep.emails cv_text)).
  { pose proof (findall_shape Rep.email_pattern cv_text false) as H.
    revert H. apply Forall_impl. apply email_pattern_form. }
  assert (Hp : Forall phone_form (Rep.phones cv_text)).
  { pose proof (findall_shape Rep.phone_pattern cv_text false) as H.
    revert H. apply Forall_impl. apply phone_pattern_form. }
  split; [exact He|]. split; [exact Hp|].
  revert Hp. apply Forall_impl.
  intros m (sign & d & rest & -> & _ & _ & Hn & _).
  rewrite !length_app. simpl. lia.
Qed.
